(** * Balance-sheet and leakage aggregations: a shallow embedding

    This development embeds the aggregation core of the newsletter pipeline
    ([scripts/aggregations/bs_aggregations.py] and
    [scripts/aggregations/ra_aggregations.py]), with the segment figures of
    [scripts/summary_agents/ra_segment_summary_agent.py], and states the
    properties of its specification over that embedding.

    Conventions of the embedding:
    - Python numbers ([int], [float]) are exact rationals [Q]; IEEE rounding,
      overflow and NaN arithmetic are outside the model.  Decimal rendering
      ([f"{x:,.2f}"]) rounds the exact rational half-to-even.
    - Python [str] is [string] (a byte string holding UTF-8); [strip],
      [lower] and [upper] act on the ASCII range.
    - A Python [dict] is an association list in insertion order, a [list] is
      a [list]; [None] and pandas' [pd.NA] are two distinct values.
    - A pandas frame is the list of its rows; [groupby] yields its groups in
      ascending key order (pandas' default [sort=True]) and drops the rows
      with a missing key (pandas' default [dropna=True]).
    - A tree is a value without sharing: the formatter, which updates its
      dicts in place, is a function on values.  A list that two nodes share
      is outside the model; [label_of_code] is the condition under which the
      builder shares none.
    - Raising an exception is the [Raise] outcome of the [result] type. *)

From Stdlib Require Import List String Ascii ZArith QArith Qabs Bool Lia Lqa.
From Stdlib Require Import Permutation Sorted DecimalString.
Import ListNotations.

Set Warnings "-register-all".

Open Scope string_scope.
Open Scope Q_scope.

(* ------------------------------------------------------------------------- *)
(** ** Python values and exceptions *)

Inductive exn : Type :=
| TypeError
| AttributeError
| ZeroDivisionError
| RecursionError.

Inductive result (A : Type) : Type :=
| Ok (a : A)
| Raise (e : exn).

Arguments Ok {A} a.
Arguments Raise {A} e.

Definition bind {A B : Type} (r : result A) (k : A -> result B) : result B :=
  match r with
  | Ok a => k a
  | Raise e => Raise e
  end.

Notation "x <- r ;; k" := (bind r (fun x => k))
  (at level 61, r at next level, right associativity).

Fixpoint mapM {A B : Type} (f : A -> result B) (l : list A) : result (list B) :=
  match l with
  | [] => Ok []
  | x :: xs => y <- f x ;; ys <- mapM f xs ;; Ok (y :: ys)
  end.

(** JSON-like Python values.  [VNA] is pandas' missing-value singleton
    [pd.NA], which is not [None]. *)
Inductive value : Type :=
| VNone
| VNA
| VNum (q : Q)
| VStr (s : string)
| VList (l : list value)
| VDict (items : list (string * value)).

Definition dict : Type := list (string * value).

(** [k in d] and [d.get(k)]. *)
Fixpoint get (k : string) (d : dict) : option value :=
  match d with
  | [] => None
  | (k', v) :: rest => if String.eqb k' k then Some v else get k rest
  end.

Definition mem (k : string) (d : dict) : bool :=
  match get k d with Some _ => true | None => false end.

(** [d[k] = v]: an existing key keeps its position, a new key is appended. *)
Fixpoint set (k : string) (v : value) (d : dict) : dict :=
  match d with
  | [] => [(k, v)]
  | (k', v') :: rest =>
      if String.eqb k' k then (k', v) :: rest else (k', v') :: set k v rest
  end.

Definition keys (d : dict) : list string := map fst d.

(* ------------------------------------------------------------------------- *)
(** ** Strings *)

Fixpoint rev_string (s : string) (acc : string) : string :=
  match s with
  | EmptyString => acc
  | String c r => rev_string r (String c acc)
  end.

(** [s.endswith(suffix)]. *)
Fixpoint prefixb (p s : string) : bool :=
  match p, s with
  | EmptyString, _ => true
  | String a p', String b s' => Ascii.eqb a b && prefixb p' s'
  | String _ _, EmptyString => false
  end.

Definition endswith (s suffix : string) : bool :=
  prefixb (rev_string suffix "") (rev_string s "").

(** [sub in s]. *)
Fixpoint contains (sub s : string) : bool :=
  prefixb sub s ||
  match s with
  | EmptyString => false
  | String _ r => contains sub r
  end.

Definition is_space (c : ascii) : bool :=
  let n := nat_of_ascii c in
  (Nat.eqb n 32 || (Nat.leb 9 n && Nat.leb n 13) || (Nat.leb 28 n && Nat.leb n 31))%bool.

Fixpoint lstrip (s : string) : string :=
  match s with
  | EmptyString => EmptyString
  | String c r => if is_space c then lstrip r else s
  end.

(** [s.strip()] *)
Definition strip (s : string) : string :=
  rev_string (lstrip (rev_string (lstrip s) "")) "".

Definition lower_ascii (c : ascii) : ascii :=
  let n := nat_of_ascii c in
  if (Nat.leb 65 n && Nat.leb n 90)%bool then ascii_of_nat (n + 32) else c.

Definition upper_ascii (c : ascii) : ascii :=
  let n := nat_of_ascii c in
  if (Nat.leb 97 n && Nat.leb n 122)%bool then ascii_of_nat (n - 32) else c.

Fixpoint map_string (f : ascii -> ascii) (s : string) : string :=
  match s with
  | EmptyString => EmptyString
  | String c r => String (f c) (map_string f r)
  end.

Definition lower : string -> string := map_string lower_ascii.
Definition upper : string -> string := map_string upper_ascii.

(* ------------------------------------------------------------------------- *)
(** ** Numbers and their rendering *)

Definition Qlt_bool (x y : Q) : bool := negb (Qle_bool y x).

(** Nearest integer to the non-negative rational [n / d], ties to even. *)
Definition round_half_even (n : Z) (d : positive) : Z :=
  let q := (n / Zpos d)%Z in
  let r := (n mod Zpos d)%Z in
  match (2 * r ?= Zpos d)%Z with
  | Lt => q
  | Gt => (q + 1)%Z
  | Eq => if Z.even q then q else (q + 1)%Z
  end.

Definition digits (n : Z) : string := NilZero.string_of_uint (N.to_uint (Z.to_N n)).

(** Insert a comma before every group of three digits, counted from the
    right; [rs] is the reversed digit string, [i] the digits already placed. *)
Fixpoint group_rev (rs : string) (i : nat) (acc : string) : string :=
  match rs with
  | EmptyString => acc
  | String c r =>
      match i with
      | 3%nat => group_rev r 1 (String c (String "," acc))
      | _ => group_rev r (S i) (String c acc)
      end
  end.

Definition thousands (s : string) : string := group_rev (rev_string s "") 0 "".

Fixpoint zero_pad (width : nat) (s : string) : string :=
  if Nat.leb width (String.length s) then s
  else match width with
       | O => s
       | S w => String "0" (zero_pad w s)
       end.

(** [f"{x:,.{dp}f}"] when [sep] is set, [f"{x:.{dp}f}"] otherwise. *)
Definition format_f (sep : bool) (dp : nat) (x : Q) : string :=
  let scale := (10 ^ Z.of_nat dp)%Z in
  let n := round_half_even (Z.abs (Qnum x) * scale) (Qden x) in
  let ip := digits (n / scale) in
  let ip := if sep then thousands ip else ip in
  let fp := match dp with
            | O => ""
            | _ => "." ++ zero_pad dp (digits (n mod scale))
            end in
  (if Qlt_bool x 0 then "-" else "") ++ ip ++ fp.

(** Stable insertion sort: [sort_by le l] orders [l] by [le] and keeps the
    input order of elements that compare equal, as Python's [sorted] and
    [list.sort] do.  [sorted(l, key=f, reverse=True)] is [sort_by] with the
    comparison of the keys turned around. *)
Fixpoint insert_by {A : Type} (le : A -> A -> bool) (x : A) (l : list A) : list A :=
  match l with
  | [] => [x]
  | y :: r => if le x y then x :: y :: r else y :: insert_by le x r
  end.

Definition sort_by {A : Type} (le : A -> A -> bool) (l : list A) : list A :=
  fold_right (insert_by le) [] l.

(** [before le ord x y]: [x] sorts before [y] under the comparison [le],
    ties being settled by [ord]. *)
Definition before {A : Type} (le : A -> A -> bool) (ord : A -> A -> Prop)
    (x y : A) : Prop :=
  le x y = true /\ (le y x = true -> ord x y).

(* ------------------------------------------------------------------------- *)
(** ** Scale formatter *)

Definition _CURRENCY_SYMBOLS : list (string * string) :=
  [ ("USD", "$"); ("EUR", "€"); ("GBP", "£"); ("JPY", "¥");
    ("INR", "₹"); ("CNY", "¥"); ("AUD", "A$"); ("CAD", "C$") ].

Fixpoint assoc {A : Type} (k : string) (l : list (string * A)) : option A :=
  match l with
  | [] => None
  | (k', v) :: rest => if String.eqb k' k then Some v else assoc k rest
  end.

(** [_CURRENCY_SYMBOLS.get(currency_type.upper(), f"{currency_type} ")
     if currency_type else ""] *)
Definition currency_symbol (currency_type : string) : string :=
  match currency_type with
  | EmptyString => ""
  | _ => match assoc (upper currency_type) _CURRENCY_SYMBOLS with
         | Some s => s
         | None => currency_type ++ " "
         end
  end.

Definition format_scaled_amount (value : value) (currency_type : string)
  : result string :=
  match value with
  | VNone => Ok "0"
  | VNum v =>
      let symbol := currency_symbol currency_type in
      let abs_val := Qabs v in
      let '(scale, divisor) :=
        if Qle_bool 1e12 abs_val then ("T", 1e12)
        else if Qle_bool 1e9 abs_val then ("B", 1e9)
        else if Qle_bool 1e6 abs_val then ("M", 1e6)
        else if Qle_bool 1e3 abs_val then ("K", 1e3)
        else ("", 1) in
      let scaled := v / divisor in
      let formatted := format_f true 2 scaled in
      let sign := if Qlt_bool v 0 then "-" else "" in
      Ok (symbol ++ sign ++ formatted ++ scale)
  | _ => Raise TypeError
  end.

Definition scales : list (Q * string) :=
  [ (1e12, "T"); (1e9, "B"); (1e6, "M"); (1e3, "K") ].

(** The [for divisor, suffix in scales] loop of [_get_scale_info]. *)
Fixpoint first_scale (abs_val : Q) (l : list (Q * string)) : Q * string :=
  match l with
  | [] => (1, "")
  | (divisor, suffix) :: rest =>
      if Qle_bool 10 (abs_val / divisor) then (divisor, suffix)
      else first_scale abs_val rest
  end.

Definition _get_scale_info (val : value) : result (Q * string) :=
  match val with
  | VNone => Ok (1, "")
  | VNum v =>
      let abs_val := Qabs v in
      if Qlt_bool abs_val 1e3 then Ok (1, "")
      else Ok (first_scale abs_val scales)
  | _ => Raise TypeError
  end.

Definition _get_scale_info_fixed (val : value) : result (Q * string) :=
  match val with
  | VNone => Ok (1, "")
  | VNum v =>
      let abs_val := Qabs v in
      if Qle_bool 1e12 abs_val then Ok (1e12, "T")
      else if Qle_bool 1e9 abs_val then Ok (1e9, "B")
      else if Qle_bool 1e6 abs_val then Ok (1e6, "M")
      else if Qle_bool 1e3 abs_val then Ok (1e3, "K")
      else Ok (1, "")
  | _ => Raise TypeError
  end.

Definition _format_fixed_scale (currency_type : string) (val : value)
    (divisor : Q) (suffix : string) (decimal_places : nat) : result string :=
  match val with
  | VNone => Ok "0"
  | VNum v =>
      let symbol := currency_symbol currency_type in
      if Qeq_bool divisor 0 then Raise ZeroDivisionError
      else
        let scaled := v / divisor in
        let formatted := format_f true decimal_places scaled in
        Ok (symbol ++ formatted ++ suffix)
  | VNA =>
      (* [pd.NA / divisor] is [pd.NA], whose [__format__] falls back to its repr *)
      Ok (currency_symbol currency_type ++ "<NA>" ++ suffix)
  | _ => Raise TypeError
  end.

(* ------------------------------------------------------------------------- *)
(** ** Tree formatter: one node *)

(** ['Decrease' if isinstance(v, (int, float)) and v < 0 else 'Increase'] *)
Definition direction (v : value) : string :=
  match v with
  | VNum q => if Qlt_bool q 0 then "Decrease" else "Increase"
  | _ => "Increase"
  end.

Definition is_change_key (key : string) : bool :=
  endswith key "_CHANGE" && negb (endswith key "_PCT_CHANGE").

Definition is_none (v : option value) : bool :=
  match v with
  | Some VNone => true
  | _ => false
  end.

(** State of the first loop of [_format_dict]: [new_dict] and the pair
    [(rel_divisor, rel_suffix)], [None] until a change key has been seen. *)
Definition rel_scale : Type := option (Q * string).

(** Body of the first loop for one [key] of [d]. *)
Definition change_step (currency_type : string) (d : dict)
    (st : dict * rel_scale) (key : string) : result (dict * rel_scale) :=
  let '(new_dict, rel) := st in
  if is_change_key key && negb (is_none (get key d)) then
    match get key d with
    | None => Ok st
    | Some change_value =>
        let dir := direction change_value in
        let new_key := dir ++ "_Amount" in
        sc <- _get_scale_info change_value ;;
        let '(rel_divisor, rel_suffix) := sc in
        let shown :=
          match change_value with
          | VNum q => if String.eqb dir "Decrease" then VNum (Qabs q) else VNum q
          | v => v
          end in
        s <- _format_fixed_scale currency_type shown rel_divisor rel_suffix 0 ;;
        Ok (set new_key (VStr s) new_dict, Some (rel_divisor, rel_suffix))
    end
  else Ok st.

(** Body of the second loop: [f"{abs(val):.2f}%"]. *)
Definition pct_step (d : dict) (new_dict : dict) (key : string) : result dict :=
  if endswith key "_PCT_CHANGE" && negb (is_none (get key d)) then
    match get key d with
    | None => Ok new_dict
    | Some val =>
        let new_key := direction val ++ "_Percentage" in
        match val with
        | VNum q => Ok (set new_key (VStr (format_f false 2 (Qabs q) ++ "%")) new_dict)
        | VNA => Ok (set new_key (VStr "<NA>%") new_dict)
        | _ => Raise TypeError
        end
    end
  else Ok new_dict.

Definition amount_key_list : list string :=
  [ "BUSINESS_DAY"; "PREVIOUS_DAY"; "SRC_MTD"; "TL_MTD" ].

(** The keys that replace a change and a percentage change. *)
Definition direction_keys : list string :=
  [ "Increase_Amount"; "Decrease_Amount";
    "Increase_Percentage"; "Decrease_Percentage" ].

(** The relative-scale copy of an amount: [_format_fixed_scale(currency_type,
    d[k], rel_divisor, rel_suffix, decimal_places=0) if rel_divisor else "N/A"]. *)
Definition relative_copy (currency_type : string) (rel : rel_scale) (v : value)
  : result string :=
  match rel with
  | Some (rel_divisor, rel_suffix) =>
      if Qeq_bool rel_divisor 0 then Ok "N/A"
      else _format_fixed_scale currency_type v rel_divisor rel_suffix 0
  | None => Ok "N/A"
  end.

(** The fixed-scale copy of an amount, scaled by its own value. *)
Definition fixed_copy (currency_type : string) (v : value) : result string :=
  fx <- _get_scale_info_fixed v ;;
  let '(fix_div, fix_suf) := fx in
  _format_fixed_scale currency_type v fix_div fix_suf 2.

(** Body of the third loop: the relative-scale copy under [k] and the
    fixed-scale copy under [k ++ "_FIX"]. *)
Definition amount_step (currency_type : string) (d : dict) (rel : rel_scale)
    (new_dict : dict) (k : string) : result dict :=
  match get k d with
  | Some v =>
      if negb (endswith k "_PCT_CHANGE") then
        s1 <- relative_copy currency_type rel v ;;
        s2 <- fixed_copy currency_type v ;;
        Ok (set (k ++ "_FIX") (VStr s2) (set k (VStr s1) new_dict))
      else Ok new_dict
  | None => Ok new_dict
  end.

(** Body of the fourth loop: every other key passes through. *)
Definition copy_step (d : dict) (new_dict : dict) (key : string) : dict :=
  if negb (mem key new_dict) && negb (endswith key "_CHANGE")
     && negb (endswith key "_PCT_CHANGE") then
    match get key d with
    | Some v => set key v new_dict
    | None => new_dict
    end
  else new_dict.

(** A [for] loop whose body may raise. *)
Fixpoint foldM {S A : Type} (f : S -> A -> result S) (l : list A) (s : S) : result S :=
  match l with
  | [] => Ok s
  | x :: xs => s' <- f s x ;; foldM f xs s'
  end.

(** Lines 271-320 of [_format_dict]: the new content of the node [d],
    before the recursion into its child lists. *)
Definition _format_dict_node (currency_type : string) (d : dict) : result dict :=
  st <- foldM (change_step currency_type d) (keys d) ([], None) ;;
  let '(nd1, rel) := st in
  nd2 <- foldM (pct_step d) (keys d) nd1 ;;
  nd3 <- foldM (amount_step currency_type d rel) amount_key_list nd2 ;;
  Ok (fold_left (copy_step d) (keys d) nd3).

(* ------------------------------------------------------------------------- *)
(** ** Tree formatter: recursion *)

(** [for x in v]: the elements a Python [for] loop visits. *)
Definition iter_value (v : value) : result (list value) :=
  match v with
  | VList l => Ok l
  | VStr s => Ok (map (fun c => VStr (String c EmptyString)) (list_ascii_of_string s))
  | VDict items => Ok (map VStr (keys items))
  | _ => Raise TypeError
  end.

(** [if key in src: for x in src[key]: f(x)], the elements of the list being
    updated in place. *)
Definition format_children (f : value -> result value) (key : string) (src : dict)
  : result dict :=
  match get key src with
  | None => Ok src
  | Some v =>
      xs <- iter_value v ;;
      ys <- mapM f xs ;;
      match v with
      | VList _ => Ok (set key (VList ys) src)
      | _ => Ok src
      end
  end.

Definition as_dict (v : value) : result dict :=
  match v with
  | VDict items => Ok items
  | _ => Raise AttributeError
  end.

(** [_format_dict(d, currency_type, amount_keys)].  The dictionary is updated
    in place by the source and returned here; [fuel] bounds the depth of the
    Python call stack.  The parameter [amount_keys] is never read by the
    source and is left out. *)
Fixpoint _format_dict (fuel : nat) (currency_type : string) (d : value)
  : result value :=
  match fuel with
  | O => Raise RecursionError
  | S n =>
      items <- as_dict d ;;
      d1 <- _format_dict_node currency_type items ;;
      d2 <- format_children
              (fun src =>
                 src1 <- _format_dict n currency_type src ;;
                 s1 <- as_dict src1 ;;
                 s2 <- format_children (_format_dict n currency_type)
                         "SIGNIFICANT_MRLS" s1 ;;
                 s3 <- format_children (_format_dict n currency_type)
                         "POSITIVE_CUSTOMERS" s2 ;;
                 s4 <- format_children (_format_dict n currency_type)
                         "NEGATIVE_CUSTOMERS" s3 ;;
                 Ok (VDict s4))
              "SIGNIFICANT_SOURCES" d1 ;;
      Ok (VDict d2)
  end.

(* ------------------------------------------------------------------------- *)
(** ** pandas [groupby] *)

(** Group keys are compared as pandas sorts them: strings by code point,
    tuples of columns lexicographically. *)
Class Key (K : Type) : Type := { kcmp : K -> K -> comparison }.

#[export] Instance string_Key : Key string := { kcmp := String.compare }.

#[export] Instance prod_Key {A B : Type} `{Key A} `{Key B} : Key (A * B) :=
  { kcmp := fun x y =>
      match kcmp (fst x) (fst y) with
      | Eq => kcmp (snd x) (snd y)
      | c => c
      end }.

(** The comparison of a key type is a strict total order. *)
Class KeyOk (K : Type) `{Key K} : Prop := {
  kcmp_eq : forall a b : K, kcmp a b = Eq <-> a = b;
  kcmp_antisym : forall a b : K, kcmp a b = CompOpp (kcmp b a);
  kcmp_trans : forall a b c : K, kcmp a b = Lt -> kcmp b c = Lt -> kcmp a c = Lt
}.

Definition klt {K : Type} `{Key K} (a b : K) : Prop := kcmp a b = Lt.

Definition keqb {K : Type} `{Key K} (a b : K) : bool :=
  match kcmp a b with Eq => true | _ => false end.

Section GroupBy.
Context {R K : Type} `{Key K}.

(** The sorted list of distinct keys seen so far. *)
Fixpoint insert_key (k : K) (ks : list K) : list K :=
  match ks with
  | [] => [k]
  | k' :: rest =>
      match kcmp k k' with
      | Lt => k :: ks
      | Eq => ks
      | Gt => k' :: insert_key k rest
      end
  end.

(** [by r] is the key of row [r], [None] when one of its columns is
    missing: such a row belongs to no group. *)
Variable by_ : R -> option K.

Definition has_key (k : K) (r : R) : bool :=
  match by_ r with
  | Some k' => keqb k' k
  | None => false
  end.

Definition group_keys (df : list R) : list K :=
  fold_left (fun ks r => match by_ r with
                         | Some k => insert_key k ks
                         | None => ks
                         end) df [].

(** [df.groupby(cols)]: the groups in ascending key order, each with its
    rows in frame order. *)
Definition groupby (df : list R) : list (K * list R) :=
  map (fun k => (k, filter (has_key k) df)) (group_keys df).

(** The grouping as the specification words its tie-breaking ("stable
    input order, first-seen wins"): the groups in the order in which
    their keys first appear in the frame.  The source does not compute
    this; it is what the code is compared with. *)
Definition first_seen_keys (df : list R) : list K :=
  fold_left (fun ks r => match by_ r with
                         | Some k => if existsb (keqb k) ks then ks else (ks ++ [k])%list
                         | None => ks
                         end) df [].

Definition groupby_first_seen (df : list R) : list (K * list R) :=
  map (fun k => (k, filter (has_key k) df)) (first_seen_keys df).
End GroupBy.

(** [Series.sum()] *)
Definition col_sum {R : Type} (col : R -> Q) (g : list R) : Q :=
  fold_left Qplus (map col g) 0.

(** [s.get(k, 0)] for a numeric entry. *)
Definition num_field (k : string) (d : dict) : Q :=
  match get k d with
  | Some (VNum q) => q
  | _ => 0
  end.

Definition Qge_bool (x y : Q) : bool := Qle_bool y x.

(* ------------------------------------------------------------------------- *)
(** ** Hierarchy builder *)

Module BS.

(** One row of the balance-sheet extract.  The counterparty columns may be
    missing. *)
Record Row : Type := mkRow {
  MGT_LINE_DESCRIPTION : string;
  SOURCE_MGT_LINE : string;
  SOURCE_MGT_LINE_DESC : string;
  MRL_LINE : string;
  MRL_DESCRIPTION : string;
  CUSTOMER_ID : option string;
  CUSTOMER_NAME : option string;
  ACCOUNT_OFFICER : option string;
  AO_NAME : option string;
  BUSINESS_DAY : Q;
  PREVIOUS_DAY : Q;
  MTD : Q
}.

(** The summed columns of a group. *)
Record Sums : Type := mkSums {
  sum_BUSINESS_DAY : Q;
  sum_PREVIOUS_DAY : Q;
  sum_MTD : Q
}.

Definition sums_of (g : list Row) : Sums :=
  {| sum_BUSINESS_DAY := col_sum BUSINESS_DAY g;
     sum_PREVIOUS_DAY := col_sum PREVIOUS_DAY g;
     sum_MTD := col_sum MTD g |}.

(** [X["BUSINESS_DAY"] - X["PREVIOUS_DAY"]] *)
Definition CHANGE (s : Sums) : Q := sum_BUSINESS_DAY s - sum_PREVIOUS_DAY s.

(** [(X["BUSINESS_DAY"] - X["PREVIOUS_DAY"])
      / X["PREVIOUS_DAY"].replace({0: pd.NA}) * 100] *)
Definition PCT_CHANGE (s : Sums) : value :=
  if Qeq_bool (sum_PREVIOUS_DAY s) 0 then VNA
  else VNum ((sum_BUSINESS_DAY s - sum_PREVIOUS_DAY s) / sum_PREVIOUS_DAY s * 100).

Definition top_key (r : Row) : option string := Some (MGT_LINE_DESCRIPTION r).

Definition src_key (r : Row) : option (string * string * string) :=
  Some (MGT_LINE_DESCRIPTION r, SOURCE_MGT_LINE r, SOURCE_MGT_LINE_DESC r).

Definition mrl_key (r : Row) : option (string * string * string) :=
  Some (MGT_LINE_DESCRIPTION r, SOURCE_MGT_LINE r, MRL_LINE r).

Definition CustKey : Type :=
  (string * string * string * string * string * string * string * string)%type.

Definition cust_key (r : Row) : option CustKey :=
  match CUSTOMER_ID r, CUSTOMER_NAME r, ACCOUNT_OFFICER r, AO_NAME r with
  | Some cid, Some cname, Some ao, Some ao_name =>
      Some (MGT_LINE_DESCRIPTION r, SOURCE_MGT_LINE r, MRL_LINE r,
            MRL_DESCRIPTION r, cid, cname, ao, ao_name)
  | _, _, _, _ => None
  end.

(** The four aggregated frames: one row per group, in ascending key order. *)
Definition agg {K : Type} `{Key K} (by_ : Row -> option K) (df : list Row)
  : list (K * Sums) :=
  map (fun kg => (fst kg, sums_of (snd kg))) (groupby by_ df).

Definition top_level_sums (df : list Row) : list (string * Sums) :=
  agg top_key df.

Definition source_sums (df : list Row) : list (string * string * string * Sums) :=
  agg src_key df.

Definition mrl_sums (df : list Row) : list (string * string * string * Sums) :=
  agg mrl_key df.

Definition customer_sums (df : list Row) : list (CustKey * Sums) :=
  agg cust_key df.

(** [df[~df['SOURCE_MGT_LINE_DESC'].isin(exclude_lines)]] *)
Definition isin (s : string) (l : list string) : bool :=
  existsb (String.eqb s) l.

Definition drop_excluded (exclude_lines : list string) (df : list Row) : list Row :=
  filter (fun r => negb (isin (SOURCE_MGT_LINE_DESC r) exclude_lines)) df.

(** [to_dict("records")] of the four frames, with the derived columns. *)
Definition tl_record (x : string * Sums) : dict :=
  let '(mgt, s) := x in
  [ ("MGT_LINE_DESCRIPTION", VStr mgt);
    ("BUSINESS_DAY", VNum (sum_BUSINESS_DAY s));
    ("PREVIOUS_DAY", VNum (sum_PREVIOUS_DAY s));
    ("TL_MTD", VNum (sum_MTD s));
    ("TL_CHANGE", VNum (CHANGE s));
    ("TL_PCT_CHANGE", PCT_CHANGE s) ].

Definition src_record (x : string * string * string * Sums) : dict :=
  let '(mgt, src, src_desc, s) := x in
  [ ("MGT_LINE_DESCRIPTION", VStr mgt);
    ("SOURCE_MGT_LINE", VStr src);
    ("SOURCE_MGT_LINE_DESC", VStr src_desc);
    ("BUSINESS_DAY", VNum (sum_BUSINESS_DAY s));
    ("PREVIOUS_DAY", VNum (sum_PREVIOUS_DAY s));
    ("SRC_MTD", VNum (sum_MTD s));
    ("SRC_CHANGE", VNum (CHANGE s));
    ("SRC_PCT_CHANGE", PCT_CHANGE s) ].

(** An MRL record, with the [MRL_DESCRIPTION] column that the source
    attaches before [to_dict]. *)
Definition mrl_record (description : string)
    (x : string * string * string * Sums) : dict :=
  let '(mgt, src, mrl, s) := x in
  [ ("MGT_LINE_DESCRIPTION", VStr mgt);
    ("SOURCE_MGT_LINE", VStr src);
    ("MRL_LINE", VStr mrl);
    ("BUSINESS_DAY", VNum (sum_BUSINESS_DAY s));
    ("PREVIOUS_DAY", VNum (sum_PREVIOUS_DAY s));
    ("MRL_MTD", VNum (sum_MTD s));
    ("MRL_CHANGE", VNum (CHANGE s));
    ("MRL_PCT_CHANGE", PCT_CHANGE s);
    ("MRL_DESCRIPTION", VStr description) ].

(** The customer frame sums [BUSINESS_DAY] and [PREVIOUS_DAY] only. *)
Definition cust_record (x : CustKey * Sums) : dict :=
  let '(mgt, src, mrl, mrl_desc, cid, cname, ao, ao_name, s) := x in
  [ ("MGT_LINE_DESCRIPTION", VStr mgt);
    ("SOURCE_MGT_LINE", VStr src);
    ("MRL_LINE", VStr mrl);
    ("MRL_DESCRIPTION", VStr mrl_desc);
    ("CUSTOMER_ID", VStr cid);
    ("CUSTOMER_NAME", VStr cname);
    ("ACCOUNT_OFFICER", VStr ao);
    ("AO_NAME", VStr ao_name);
    ("BUSINESS_DAY", VNum (sum_BUSINESS_DAY s));
    ("PREVIOUS_DAY", VNum (sum_PREVIOUS_DAY s));
    ("CUST_CHANGE", VNum (CHANGE s));
    ("CUST_PCT_CHANGE", PCT_CHANGE s) ].

(** [{k: rec[k] for k in ks if k in rec}] *)
Definition select (ks : list string) (rec : dict) : dict :=
  flat_map (fun k => match get k rec with
                     | Some v => [(k, v)]
                     | None => []
                     end) ks.

Definition cust_trimmed (rec : dict) : dict :=
  select [ "MRL_DESCRIPTION"; "ACCOUNT_OFFICER"; "AO_NAME"; "BUSINESS_DAY";
           "PREVIOUS_DAY"; "CUST_PCT_CHANGE"; "CUST_CHANGE"; "CUSTOMER_ID";
           "CUSTOMER_NAME" ] rec.

Definition str_field (k : string) (d : dict) : string :=
  match get k d with
  | Some (VStr s) => s
  | _ => ""
  end.

(** [pos_neg_src_lookup]: for a key [(MGT_LINE_DESCRIPTION, SOURCE_MGT_LINE)]
    the lists [POS] and [NEG], the keys in order of first insertion. *)
Record Buckets : Type := mkBuckets { POS : list dict; NEG : list dict }.

Definition Lookup : Type := list (string * string * Buckets).

Definition pair_eqb (a b : string * string) : bool :=
  String.eqb (fst a) (fst b) && String.eqb (snd a) (snd b).

Fixpoint lookup_get (key : string * string) (l : Lookup) : option Buckets :=
  match l with
  | [] => None
  | (k, b) :: rest => if pair_eqb k key then Some b else lookup_get key rest
  end.

(** [lookup.get(key, {"POS": [], "NEG": []})] *)
Definition buckets_or_empty (ob : option Buckets) : Buckets :=
  match ob with
  | Some b => b
  | None => mkBuckets [] []
  end.

(** [pos_neg_src_lookup[key][which].append(x)] on a [defaultdict]. *)
Definition push (pos : bool) (x : dict) (b : Buckets) : Buckets :=
  if pos then mkBuckets (POS b ++ [x]) (NEG b)
  else mkBuckets (POS b) (NEG b ++ [x]).

Fixpoint lookup_append (key : string * string) (pos : bool) (x : dict)
    (l : Lookup) : Lookup :=
  match l with
  | [] => [(key, push pos x (mkBuckets [] []))]
  | (k, b) :: rest =>
      if pair_eqb k key then (k, push pos x b) :: rest
      else (k, b) :: lookup_append key pos x rest
  end.

Definition asset_liability : list string := [ "Total Assets"; "Total Liability" ].
Definition income_expense : list string := [ "Total Expense"; "Total Income" ].

Definition bucket_step (l : Lookup) (rec : dict) : Lookup :=
  if isin (str_field "MGT_LINE_DESCRIPTION" rec) asset_liability then
    let key := (str_field "MGT_LINE_DESCRIPTION" rec,
                str_field "SOURCE_MGT_LINE" rec) in
    lookup_append key (Qle_bool 0 (num_field "CUST_CHANGE" rec))
      (cust_trimmed rec) l
  else l.

(** Top 1 of [POS] by [CUST_CHANGE] descending, top 2 of [NEG] ascending. *)
Definition reduce_buckets (b : Buckets) : Buckets :=
  {| POS := firstn 1 (sort_by (fun r1 r2 => Qge_bool (num_field "CUST_CHANGE" r1)
                                                     (num_field "CUST_CHANGE" r2))
                        (POS b));
     NEG := firstn 2 (sort_by (fun r1 r2 => Qle_bool (num_field "CUST_CHANGE" r1)
                                                     (num_field "CUST_CHANGE" r2))
                        (NEG b)) |}.

Definition pos_neg_src_lookup (customer_records : list dict) : Lookup :=
  map (fun kb => (fst kb, reduce_buckets (snd kb)))
      (fold_left bucket_step customer_records []).

(** [df.drop_duplicates(subset=[...]).set_index([...])['MRL_DESCRIPTION']
     .to_dict()], read at one key: the description of the first row of
    that key. *)
Definition mrl_description_lookup (df : list Row)
    (key : string * string * string) : option string :=
  match filter (has_key mrl_key key) df with
  | r :: _ => Some (MRL_DESCRIPTION r)
  | [] => None
  end.

Definition mrl_MTD (x : string * string * string * Sums) : Q := sum_MTD (snd x).

(** The rows of the MRL frame under one source, and the rows of the
    customer frame under one source. *)
Definition mrls_of (df : list Row) (mgt_desc src : string)
  : list (string * string * string * Sums) :=
  filter (fun x => let '(m, s, _, _) := x in
                   String.eqb m mgt_desc && String.eqb s src) (mrl_sums df).

Definition cust_source (x : CustKey * Sums) : string * string :=
  let '(mgt, src, _, _, _, _, _, _, _) := x in (mgt, src).

Definition customers_of (df : list Row) (mgt_desc src : string)
  : list (CustKey * Sums) :=
  filter (fun x => pair_eqb (cust_source x) (mgt_desc, src)) (customer_sums df).

Definition cust_CHANGE (x : CustKey * Sums) : Q := CHANGE (snd x).

(** The rows of key [k] in a frame. *)
Definition rows {K : Type} `{Key K} (by_ : Row -> option K) (k : K)
    (df : list Row) : list Row :=
  filter (has_key by_ k) df.

(** [mrl_description_lookup.get((mgt_desc, src, rec["MRL_LINE"]),
     rec.get("MRL_DESCRIPTION", "-"))] for a row of the MRL frame, which
    has no [MRL_DESCRIPTION] column of its own. *)
Definition described (df : list Row) (mgt_desc src : string)
    (x : string * string * string * Sums) : string :=
  let '(_, _, mrl, _) := x in
  match mrl_description_lookup df (mgt_desc, src, mrl) with
  | Some desc => desc
  | None => "-"
  end.

Definition MTD_desc (a b : string * string * string * Sums) : bool :=
  Qge_bool (mrl_MTD a) (mrl_MTD b).

(** The [SIGNIFICANT_MRLS] of source [src] under [mgt_desc]. *)
Definition significant_mrls (df : list Row) (mgt_desc src : string) : list value :=
  let mrls := mrls_of df mgt_desc src in
  match mrls with
  | [] => []
  | _ =>
      let positive_mrls := filter (fun x => Qlt_bool 0 (mrl_MTD x)) mrls in
      match positive_mrls with
      | [] => []
      | _ =>
          let with_description :=
            map (fun x => (described df mgt_desc src x, x)) positive_mrls in
          (* [nlargest(2, "MRL_MTD")], [keep='first'] *)
          let top := firstn 2 (sort_by (fun a b => MTD_desc (snd a) (snd b))
                                 with_description) in
          map (fun dx => VDict (mrl_record (fst dx) (snd dx))) top
      end
  end.

Definition remove_key (k : string) (d : dict) : dict :=
  filter (fun kv => negb (String.eqb (fst kv) k)) d.

(** One iteration of the inner loop: the record of one source. *)
Definition source_record (df : list Row) (lookup : Lookup) (mgt_desc : string)
    (x : string * string * string * Sums) : dict :=
  let src := src_record x in
  let src_dict := remove_key "MGT_LINE_DESCRIPTION" src in
  let key_src := (mgt_desc, str_field "SOURCE_MGT_LINE" src) in
  let src_dict :=
    if isin mgt_desc asset_liability then
      let buckets := buckets_or_empty (lookup_get key_src lookup) in
      set "NEGATIVE_CUSTOMERS" (VList (map VDict (NEG buckets)))
        (set "POSITIVE_CUSTOMERS" (VList (map VDict (POS buckets))) src_dict)
    else src_dict in
  if isin mgt_desc income_expense then
    set "SIGNIFICANT_MRLS"
      (VList (significant_mrls df mgt_desc (str_field "SOURCE_MGT_LINE" src)))
      src_dict
  else src_dict.

Definition abs_desc (k : string) (a b : dict) : bool :=
  Qge_bool (Qabs (num_field k a)) (Qabs (num_field k b)).

(** [sorted(src["SIGNIFICANT_MRLS"], key=lambda m: abs(m.get("MRL_MTD", 0)),
     reverse=True)] *)
Definition MRL_abs_desc (a b : value) : bool :=
  match a, b with
  | VDict da, VDict db => abs_desc "MRL_MTD" da db
  | _, _ => true
  end.

Definition resort_mrls (src : dict) : dict :=
  match get "SIGNIFICANT_MRLS" src with
  | Some (VList ms) => set "SIGNIFICANT_MRLS" (VList (sort_by MRL_abs_desc ms)) src
  | _ => src
  end.

Definition sort_source_records (mgt_desc : string) (source_records : list dict)
  : list dict :=
  if isin mgt_desc asset_liability then
    sort_by (abs_desc "SRC_CHANGE") source_records
  else
    map resort_mrls (sort_by (abs_desc "SRC_MTD") source_records).

(** [X.groupby("MGT_LINE_DESCRIPTION").size().to_dict().get(mgt_desc, 0)] *)
Definition sources_count (srcs : list (string * string * string * Sums))
    (mgt_desc : string) : Q :=
  inject_Z (Z.of_nat (List.length
    (filter (fun x => let '(m, _, _, _) := x in String.eqb m mgt_desc) srcs))).

(** One iteration of the outer loop: the node of one top category. *)
Definition mgt_node (df : list Row)
    (srcs : list (string * string * string * Sums)) (lookup : Lookup)
    (tl : string * Sums) : dict :=
  let mgt_desc := fst tl in
  let mgt_dict := tl_record tl in
  let sources_for_mgt :=
    filter (fun x => let '(m, _, _, _) := x in String.eqb m mgt_desc) srcs in
  let source_records :=
    map (source_record df lookup mgt_desc) sources_for_mgt in
  let source_records_sorted := sort_source_records mgt_desc source_records in
  set "SIGNIFICANT_SOURCES" (VList (map VDict source_records_sorted))
    (set "SOURCES_COUNT" (VNum (sources_count srcs mgt_desc))
       (set "SIGNIFICANT_SOURCES_COUNT" (VNum (sources_count srcs mgt_desc))
          mgt_dict)).

Definition customer_lookup (df : list Row) : Lookup :=
  pos_neg_src_lookup (map cust_record (customer_sums df)).

Definition build_bs_nested_hierarchy (df : list Row) (exclude_lines : list string)
  : list value :=
  let top_level := top_level_sums df in
  let df := drop_excluded exclude_lines df in
  let srcs := source_sums df in
  let lookup := customer_lookup df in
  map (fun tl => VDict (mgt_node df srcs lookup tl)) top_level.

(** *** Views of the builder used to state its properties *)

(** Whether a customer record goes to the bucket of [key], and to which
    of its two lists. *)
Definition in_bucket (key : string * string) (rec : dict) : bool :=
  isin (str_field "MGT_LINE_DESCRIPTION" rec) asset_liability
  && pair_eqb (str_field "MGT_LINE_DESCRIPTION" rec,
               str_field "SOURCE_MGT_LINE" rec) key.

Definition is_pos (rec : dict) : bool := Qle_bool 0 (num_field "CUST_CHANGE" rec).

(** The record of a customer as the tree holds it. *)
Definition trimmed_record (x : CustKey * Sums) : dict :=
  cust_trimmed (cust_record x).

Definition CHANGE_desc (a b : CustKey * Sums) : bool :=
  Qge_bool (cust_CHANGE a) (cust_CHANGE b).

Definition CHANGE_asc (a b : CustKey * Sums) : bool :=
  Qle_bool (cust_CHANGE a) (cust_CHANGE b).

Definition nonneg (x : CustKey * Sums) : bool := Qle_bool 0 (cust_CHANGE x).

(** The customers kept for a source: the first of the non-negative ones
    by change descending, the first two of the negative ones by change
    ascending. *)
Definition top_positive (df : list Row) (mgt src : string) : list (CustKey * Sums) :=
  firstn 1 (sort_by CHANGE_desc (filter nonneg (customers_of df mgt src))).

Definition top_negative (df : list Row) (mgt src : string) : list (CustKey * Sums) :=
  firstn 2 (sort_by CHANGE_asc
              (filter (fun x => negb (nonneg x)) (customers_of df mgt src))).

(** The order of the customer frame: ascending group key. *)
Definition key_lt (a b : CustKey * Sums) : Prop := klt (fst a) (fst b).

(** The sub-lines kept for a source: of those with a positive
    month-to-date sum, the first two by month-to-date descending. *)
Definition positive_mrls (df : list Row) (mgt src : string)
  : list (string * string * string * Sums) :=
  filter (fun x => Qlt_bool 0 (mrl_MTD x)) (mrls_of df mgt src).

Definition top_mrls (df : list Row) (mgt src : string)
  : list (string * string * string * Sums) :=
  firstn 2 (sort_by MTD_desc (positive_mrls df mgt src)).

Definition mrl_node (df : list Row) (mgt src : string)
    (x : string * string * string * Sums) : value :=
  VDict (mrl_record (described df mgt src x) x).

(** The top-1 positive customers as the specification words the
    tie-breaking: the customer groups taken in first-seen order. *)
Definition first_seen_top_positive (df : list Row) (mgt src : string)
  : list (CustKey * Sums) :=
  firstn 1 (sort_by CHANGE_desc
              (filter nonneg
                 (filter (fun x => pair_eqb (cust_source x) (mgt, src))
                    (map (fun kg => (fst kg, sums_of (snd kg)))
                       (groupby_first_seen cust_key df))))).

(** A source code stands for one source label within a category.  Under
    this condition no two source records share their customer lists, and
    the in-place update of the formatter is the map on values that
    [format_nested_amounts] is here. *)
Definition label_of_code (df : list Row) : Prop :=
  forall r1 r2, In r1 df -> In r2 df ->
                MGT_LINE_DESCRIPTION r1 = MGT_LINE_DESCRIPTION r2 ->
                SOURCE_MGT_LINE r1 = SOURCE_MGT_LINE r2 ->
                SOURCE_MGT_LINE_DESC r1 = SOURCE_MGT_LINE_DESC r2.

(** Inputs of the examples of the specification: the customers of one
    asset source, given by id, current and prior amount; the sub-lines
    [M1] to [M5] of one income source, given by month-to-date amount. *)
Definition customer_example (rows : list (string * Q * Q)) : list Row :=
  map (fun r =>
         let '(cid, bd, pd) := r in
         mkRow "Total Assets" "S1" "Loans" "M1" "Term loans"
               (Some cid) (Some (cid ++ " Ltd")) (Some "AO1") (Some "Officer")
               bd pd 0)
      rows.

Definition income_example (mtds : list Q) : list Row :=
  map (fun im =>
         mkRow "Total Income" "S2" "Fees" (fst im) (fst im ++ " line")
               None None None None 0 0 (snd im))
      (combine ["M1"; "M2"; "M3"; "M4"; "M5"] mtds).

End BS.

(* ------------------------------------------------------------------------- *)
(** ** Tree formatter: ordering and entry point *)

(** Sort priorities: an index, or [float('inf')]. *)
Inductive prio : Type :=
| Fin (n : nat)
| Inf.

Definition prio_leb (a b : prio) : bool :=
  match a, b with
  | Fin x, Fin y => Nat.leb x y
  | _, Inf => true
  | Inf, Fin _ => false
  end.

Definition top_level_order : list (string * nat) :=
  [ ("Total Assets", 0%nat); ("Total Liability", 1%nat);
    ("Total Income", 2%nat); ("Total Expense", 3%nat) ].

Definition source_priority : list (string * list string) :=
  [ ("Total Assets",
      ["Loans"; "Overdrafts"; "Public  Securities"; "Government Securities"]);
    ("Total Income",
      ["Loans"; "Overdrafts"; "Public  Securities"; "Government Securities"]);
    ("Total Liability",
      ["Low Cost Deposits"; "High Cost Deposits"; "Long Term Borrowings";
       "Interbank Borrowings"]);
    ("Total Expense",
      ["Low Cost Deposits"; "High Cost Deposits"; "Long Term Borrowings";
       "Interbank Borrowings"]) ].

(** A value used as a dictionary key: a string is looked up, a list or a
    dictionary is unhashable, anything else is a key that is not there. *)
Definition as_key (v : option value) : result (option string) :=
  match v with
  | Some (VStr s) => Ok (Some s)
  | Some (VList _) | Some (VDict _) => Raise TypeError
  | _ => Ok None
  end.

(** [top_level_order.get(item.get("MGT_LINE_DESCRIPTION"), float('inf'))] *)
Definition get_top_level_priority (item : value) : result prio :=
  d <- as_dict item ;;
  k <- as_key (get "MGT_LINE_DESCRIPTION" d) ;;
  match k with
  | Some s => match assoc s top_level_order with
              | Some n => Ok (Fin n)
              | None => Ok Inf
              end
  | None => Ok Inf
  end.

Fixpoint enumerate_from {A : Type} (i : nat) (l : list A) : list (nat * A) :=
  match l with
  | [] => []
  | x :: xs => (i, x) :: enumerate_from (S i) xs
  end.

(** [{src.strip(): idx for idx, src in enumerate(priority_list)}] *)
Definition priority_dict (priority_list : list string) : list (string * nat) :=
  map (fun ix => (strip (snd ix), fst ix)) (enumerate_from 0 priority_list).

Fixpoint first_ci (src_desc_lower : string) (l : list (string * nat)) : option nat :=
  match l with
  | [] => None
  | (priority_src, idx) :: rest =>
      if String.eqb (lower priority_src) src_desc_lower then Some idx
      else first_ci src_desc_lower rest
  end.

Definition get_source_priority (priority_list : list string) (other_src : string)
    (source : value) : result prio :=
  d <- as_dict source ;;
  raw <- match get "SOURCE_MGT_LINE_DESC" d with
         | None => Ok ""
         | Some (VStr s) => Ok s
         | Some _ => Raise AttributeError
         end ;;
  let src_desc := strip raw in
  match assoc src_desc (priority_dict priority_list) with
  | Some idx => Ok (Fin idx)
  | None =>
      let src_desc_lower := lower src_desc in
      match first_ci src_desc_lower (priority_dict priority_list) with
      | Some idx => Ok (Fin idx)
      | None =>
          if String.eqb src_desc (strip other_src)
             || String.eqb src_desc_lower (strip (lower other_src))
          then Ok Inf
          else Ok (Fin (List.length priority_list))
      end
  end.

(** Python truth value of [item["SIGNIFICANT_SOURCES"]]. *)
Definition truthy (v : value) : result bool :=
  match v with
  | VNone => Ok false
  | VNA => Raise TypeError
  | VNum q => Ok (negb (Qeq_bool q 0))
  | VStr s => Ok (negb (String.eqb s ""))
  | VList l => Ok (match l with [] => false | _ => true end)
  | VDict l => Ok (match l with [] => false | _ => true end)
  end.

(** [sorted(l, key=f)]: the keys are computed first, the sort is stable. *)
Definition sorted_by_key {A : Type} (f : A -> result prio) (l : list A)
  : result (list A) :=
  ks <- mapM (fun x => k <- f x ;; Ok (k, x)) l ;;
  Ok (map snd (sort_by (fun a b => prio_leb (fst a) (fst b)) ks)).

Definition other_source (mgt_desc : string) : string :=
  if contains "Expense" mgt_desc then "Other Operating Expenses"
  else if contains "Asset" mgt_desc || contains "Income" mgt_desc then "Other Assets"
  else "Other Liabilities".

Definition sort_significant_sources (item : value) : result value :=
  d <- as_dict item ;;
  k <- as_key (get "MGT_LINE_DESCRIPTION" d) ;;
  match k with
  | None => Ok item
  | Some mgt_desc =>
      match assoc mgt_desc source_priority, get "SIGNIFICANT_SOURCES" d with
      | Some priority_list, Some v =>
          t <- truthy v ;;
          if t then
            let other_src := other_source mgt_desc in
            sources <- iter_value v ;;
            sorted <- sorted_by_key (get_source_priority priority_list other_src)
                        sources ;;
            match v with
            | VList _ => Ok (VDict (set "SIGNIFICANT_SOURCES" (VList sorted) d))
            | _ => Raise TypeError
            end
          else Ok item
      | _, _ => Ok item
      end
  end.

(** Nesting depth of a value: the recursion of [_format_dict] follows it. *)
Fixpoint depth (v : value) : nat :=
  match v with
  | VList l => S (fold_right (fun x acc => Nat.max (depth x) acc) O l)
  | VDict items =>
      S (fold_right (fun kv acc => Nat.max (let '(_, x) := kv in depth x) acc) O items)
  | _ => O
  end.

(** [format_nested_amounts(nested_json, currency_type)].  [copy.deepcopy] is
    the identity on values. *)
Definition format_nested_amounts (nested_json : list value) (currency_type : string)
  : result (list value) :=
  processed_json <- mapM sort_significant_sources nested_json ;;
  sorted_json <- sorted_by_key get_top_level_priority processed_json ;;
  mapM (fun tl => _format_dict (S (depth tl)) currency_type tl) sorted_json.

(** The top category of a Level-0 node, and the canonical order of the
    categories: the four totals first, the others after them as they came. *)
Definition field (k : string) (item : value) : option value :=
  match item with
  | VDict d => get k d
  | _ => None
  end.

Definition desc_of (item : value) : option value :=
  field "MGT_LINE_DESCRIPTION" item.

(** The child nodes of a node under the list-valued key [k]. *)
Definition children (k : string) (item : value) : list value :=
  match field k item with
  | Some (VList l) => l
  | _ => []
  end.

(** The percentage change of a node: absent when the prior-period sum is
    zero, the change over the prior-period sum in percent otherwise. *)
Definition zero_prior_rule (pct_key : string) (n : value) : Prop :=
  exists b p,
    field "BUSINESS_DAY" n = Some (VNum b) /\
    field "PREVIOUS_DAY" n = Some (VNum p) /\
    (p == 0 -> field pct_key n = Some VNA) /\
    (~ p == 0 -> field pct_key n = Some (VNum ((b - p) / p * 100))).

(** *** Well-formed trees

    The values on which the formatter does not raise: change and amount
    entries are numbers or [None], percentage entries may also be [pd.NA],
    and the entries of the four child keys are lists of such nodes. *)
Definition is_num_or_none (v : value) : bool :=
  match v with
  | VNone | VNum _ => true
  | _ => false
  end.

Definition is_pct_value (v : value) : bool :=
  match v with
  | VNone | VNum _ | VNA => true
  | _ => false
  end.

Definition child_keys : list string :=
  [ "SIGNIFICANT_SOURCES"; "SIGNIFICANT_MRLS"; "POSITIVE_CUSTOMERS";
    "NEGATIVE_CUSTOMERS" ].

Definition entry_ok (k : string) (v : value) : bool :=
  (negb (is_change_key k) || is_num_or_none v)
  && (negb (endswith k "_PCT_CHANGE") || is_pct_value v)
  && (negb (existsb (String.eqb k) amount_key_list) || is_num_or_none v).

Fixpoint formattable (v : value) : bool :=
  match v with
  | VDict d =>
      forallb (fun kv =>
                 let '(k, x) := kv in
                 entry_ok k x
                 && (negb (existsb (String.eqb k) child_keys)
                     || match x with
                        | VList l => forallb formattable l
                        | _ => false
                        end)) d
  | _ => false
  end.

Definition entry_formattable (kv : string * value) : bool :=
  entry_ok (fst kv) (snd kv)
  && (negb (existsb (String.eqb (fst kv)) child_keys)
      || match snd kv with
         | VList l => forallb formattable l
         | _ => false
         end).

(** A Level-0 node that [format_nested_amounts] accepts: formattable, with
    a hashable category and with sources whose label is a string. *)
Definition source_label_ok (src : value) : bool :=
  match field "SOURCE_MGT_LINE_DESC" src with
  | None | Some (VStr _) => true
  | _ => false
  end.

Definition hashable_desc (item : value) : bool :=
  match desc_of item with
  | Some (VList _) | Some (VDict _) => false
  | _ => true
  end.

Definition well_formed (item : value) : bool :=
  formattable item && hashable_desc item
  && forallb source_label_ok (children "SIGNIFICANT_SOURCES" item).

(** The current and prior amounts of node [n] are the column sums of the
    rows [g]; so is its month-to-date amount under [mtd_key]. *)
Definition day_sums (n : value) (g : list BS.Row) : Prop :=
  field "BUSINESS_DAY" n = Some (VNum (col_sum BS.BUSINESS_DAY g)) /\
  field "PREVIOUS_DAY" n = Some (VNum (col_sum BS.PREVIOUS_DAY g)).

Definition mtd_sum (mtd_key : string) (n : value) (g : list BS.Row) : Prop :=
  field mtd_key n = Some (VNum (col_sum BS.MTD g)).

Definition is_category (name : string) (desc : option value) : bool :=
  match desc with
  | Some (VStr s) => String.eqb s name
  | _ => false
  end.

Definition is_other (desc : option value) : bool :=
  negb (is_category "Total Assets" desc || is_category "Total Liability" desc
        || is_category "Total Income" desc || is_category "Total Expense" desc).

(** The sort key of a top category, and its position among the five
    classes of the canonical order. *)
Definition top_prio (desc : option value) : prio :=
  match desc with
  | Some (VStr s) => match assoc s top_level_order with
                     | Some n => Fin n
                     | None => Inf
                     end
  | _ => Inf
  end.

Definition prio_rank (p : prio) : nat :=
  match p with
  | Fin n => n
  | Inf => 4
  end.

(** The input of the ordering example of the specification. *)
Definition example_tree : list value :=
  map (fun name =>
         VDict [ ("MGT_LINE_DESCRIPTION", VStr name);
                 ("BUSINESS_DAY", VNum 1200); ("PREVIOUS_DAY", VNum 1000);
                 ("TL_MTD", VNum 50); ("TL_CHANGE", VNum 200);
                 ("TL_PCT_CHANGE", VNum 20);
                 ("SIGNIFICANT_SOURCES", VList []) ])
      [ "OtherX"; "Total Expense"; "Total Assets"; "Total Income";
        "Total Liability" ].

Definition canonical_order (l : list (option value)) : list (option value) :=
  filter (is_category "Total Assets") l ++
  filter (is_category "Total Liability") l ++
  filter (is_category "Total Income") l ++
  filter (is_category "Total Expense") l ++
  filter is_other l.

(* ------------------------------------------------------------------------- *)
(** ** Leakage aggregator *)

Module RA.

Definition TOP_N_DEFAULT : nat := 3.

(** One row of the leakage extract.  The amounts are the outcome of
    [pd.to_numeric(errors="coerce")]: [None] is NaN.  A grouping column
    may be missing. *)
Record Row : Type := mkRow {
  BUSINESS_LINE_DESCRIPTION : option string;
  SBU_DESCRIPTION : option string;
  VISION_OUC_DESCRIPTION : option string;
  AO_NAME : option string;
  CHANNEL_TYPE_DESCRIPTION : option string;
  CUSTOMER_ID : option string;
  CUSTOMER_NAME : option string;
  CONTRACT_ID : option string;
  BUSINESS_DAY : option Q;
  MTD : option Q;
  CCY_TYPE : string;
  BAL_TYPE : Z
}.

(** [Series.sum()] skips NaN. *)
Definition nansum (col : Row -> option Q) (g : list Row) : Q :=
  fold_left Qplus (flat_map (fun r => match col r with
                                      | Some q => [q]
                                      | None => []
                                      end) g) 0.

Definition _build_totals (df : list Row) : Q * Q :=
  (nansum BUSINESS_DAY df, nansum MTD df).

Definition SocKey : Type :=
  (string * string * string * string * string * string * string * string)%type.

Definition soc_key (r : Row) : option SocKey :=
  match BUSINESS_LINE_DESCRIPTION r, SBU_DESCRIPTION r, VISION_OUC_DESCRIPTION r,
        AO_NAME r, CHANNEL_TYPE_DESCRIPTION r, CUSTOMER_ID r, CUSTOMER_NAME r,
        CONTRACT_ID r with
  | Some a, Some b, Some c, Some d, Some e, Some f, Some g, Some h =>
      Some (a, b, c, d, e, f, g, h)
  | _, _, _, _, _, _, _, _ => None
  end.

(** A row of the aggregated frame: key, summed [BUSINESS_DAY], summed [MTD]. *)
Definition SocRow : Type := (SocKey * (Q * Q))%type.

Definition soc_BUSINESS_DAY (x : SocRow) : Q := fst (snd x).
Definition soc_MTD (x : SocRow) : Q := snd (snd x).

(** [sort_values(by=["BUSINESS_DAY", "MTD"], ascending=False)]: descending
    by the pair, rows with equal pairs in frame order. *)
Definition soc_desc (a b : SocRow) : bool :=
  Qlt_bool (soc_BUSINESS_DAY b) (soc_BUSINESS_DAY a)
  || (Qeq_bool (soc_BUSINESS_DAY a) (soc_BUSINESS_DAY b)
      && Qle_bool (soc_MTD b) (soc_MTD a)).

(** [df.groupby(soc_group_cols)[["BUSINESS_DAY", "MTD"]].sum()] *)
Definition soc_aggregated (df : list Row) : list SocRow :=
  map (fun kg => (fst kg, (nansum BUSINESS_DAY (snd kg), nansum MTD (snd kg))))
      (groupby soc_key df).

Definition _top_soc (df : list Row) (top_n : nat) : list SocRow :=
  firstn top_n (sort_by soc_desc (soc_aggregated df)).

Definition abs_amounts (r : Row) : Row :=
  {| BUSINESS_LINE_DESCRIPTION := BUSINESS_LINE_DESCRIPTION r;
     SBU_DESCRIPTION := SBU_DESCRIPTION r;
     VISION_OUC_DESCRIPTION := VISION_OUC_DESCRIPTION r;
     AO_NAME := AO_NAME r;
     CHANNEL_TYPE_DESCRIPTION := CHANNEL_TYPE_DESCRIPTION r;
     CUSTOMER_ID := CUSTOMER_ID r;
     CUSTOMER_NAME := CUSTOMER_NAME r;
     CONTRACT_ID := CONTRACT_ID r;
     BUSINESS_DAY := option_map Qabs (BUSINESS_DAY r);
     MTD := option_map Qabs (MTD r);
     CCY_TYPE := CCY_TYPE r;
     BAL_TYPE := BAL_TYPE r |}.

(** The entry of one leakage type.  [top_soc] is the frame from which the
    source derives [agg_list] (one text block per row) and [agg_details]
    (the [BUSINESS_DAY] column), row by row and in the same order. *)
Record Leakage : Type := mkLeakage {
  totals : Q * Q;
  sbu_totals : list (string * (Q * Q));
  top_soc : list SocRow;
  agg_details : list Q;
  top_n : nat
}.

Definition leakage_of (ldf : list Row) : Leakage :=
  let top_soc_df := _top_soc ldf TOP_N_DEFAULT in
  {| totals := _build_totals ldf;
     sbu_totals :=
       map (fun kg => (fst kg, (nansum BUSINESS_DAY (snd kg), nansum MTD (snd kg))))
           (groupby SBU_DESCRIPTION ldf);
     top_soc := top_soc_df;
     agg_details := map soc_BUSINESS_DAY top_soc_df;
     top_n := TOP_N_DEFAULT |}.

(** The result for ["overcharge"] ([BAL_TYPE == 208]) and ["undercharge"]
    ([BAL_TYPE == 207]), in that order. *)
Definition get_overcharge_and_undercharge_aggregations (df : list Row)
  : Leakage * Leakage :=
  let df := filter (fun r => String.eqb (CCY_TYPE r) "LCY") df in
  let df := map abs_amounts df in
  (leakage_of (filter (fun r => Z.eqb (BAL_TYPE r) 208) df),
   leakage_of (filter (fun r => Z.eqb (BAL_TYPE r) 207) df)).

(** *** Views of the aggregator used to state its properties *)

(** The order of the aggregated frame: ascending compound key. *)
Definition soc_key_lt (a b : SocRow) : Prop := klt (fst a) (fst b).

(** The rows of one leakage type, as the aggregator selects them. *)
Definition leakage_rows (bal : Z) (df : list Row) : list Row :=
  filter (fun r => Z.eqb (BAL_TYPE r) bal)
         (map abs_amounts (filter (fun r => String.eqb (CCY_TYPE r) "LCY") df)).

(** The top groups as the specification words the tie-breaking: the
    groups taken in first-seen order of the input rows. *)
Definition first_seen_top_soc (df : list Row) (top_n : nat) : list SocRow :=
  firstn top_n
    (sort_by soc_desc
       (map (fun kg => (fst kg, (nansum BUSINESS_DAY (snd kg), nansum MTD (snd kg))))
            (groupby_first_seen soc_key df))).

(** Overcharge rows in local currency that differ in the customer only,
    given by customer id, current and month-to-date amount. *)
Definition soc_example (rows : list (string * Q * Q)) : list Row :=
  map (fun r =>
         let '(cid, bd, mtd) := r in
         mkRow (Some "Retail") (Some "Consumer") (Some "Main Branch")
               (Some "Officer") (Some "Online") (Some cid) (Some (cid ++ " Ltd"))
               (Some "K1") (Some bd) (Some mtd) "LCY" 208)
      rows.

Definition soc_customer (x : SocRow) : string :=
  let '(_, _, _, _, _, cid, _, _, _) := x in cid.

End RA.

(* ------------------------------------------------------------------------- *)
(** ** Further views of the formatter *)

(** The keys that [_format_dict] writes itself: the direction keys, the
    amount keys with their [_FIX] copies and the list of sources, whose
    nodes it formats in turn. *)
Definition written_keys : list string :=
  List.app direction_keys
    (List.app amount_key_list
       (List.app (map (fun k => k ++ "_FIX") amount_key_list)
          ["SIGNIFICANT_SOURCES"])).

(** The label of a source node as [get_source_priority] reads it,
    [source.get("SOURCE_MGT_LINE_DESC", "")], and the priority that
    [get_source_priority] computes from the label. *)
Definition source_label (src : value) : string :=
  match field "SOURCE_MGT_LINE_DESC" src with
  | Some (VStr s) => s
  | _ => ""
  end.

Definition label_priority (priority_list : list string) (other_src label : string)
  : prio :=
  let src_desc := strip label in
  match assoc src_desc (priority_dict priority_list) with
  | Some idx => Fin idx
  | None =>
      match first_ci (lower src_desc) (priority_dict priority_list) with
      | Some idx => Fin idx
      | None =>
          if String.eqb src_desc (strip other_src)
             || String.eqb (lower src_desc) (strip (lower other_src))
          then Inf
          else Fin (List.length priority_list)
      end
  end.

(** The order of [sources.sort(key=get_source_priority)], on source nodes
    and on their labels. *)
Definition by_priority (priority_list : list string) (other_src : string)
    (a b : value) : bool :=
  prio_leb (label_priority priority_list other_src (source_label a))
           (label_priority priority_list other_src (source_label b)).

Definition label_leb (priority_list : list string) (other_src : string)
    (a b : string) : bool :=
  prio_leb (label_priority priority_list other_src a)
           (label_priority priority_list other_src b).

(** Position of [key] in [names], counted from [i]. *)
Fixpoint position (key : string) (names : list string) (i : nat) : option nat :=
  match names with
  | [] => None
  | n :: rest => if String.eqb n key then Some i else position key rest (S i)
  end.

(** The rank of a label among lower-case names: its position when its
    stripped lower-case form is one of them, last of all when that form is
    [other], and right after the names otherwise. *)
Definition rank_among (names : list string) (other : string) (label : string) : prio :=
  let key := lower (strip label) in
  match position key names 0 with
  | Some i => Fin i
  | None => if String.eqb other key then Inf else Fin (List.length names)
  end.

(** Source nodes that carry a label only. *)
Definition labelled (labels : list string) : list value :=
  map (fun l => VDict [("SOURCE_MGT_LINE_DESC", VStr l)]) labels.

(** [n.get(k, 0)] for a node [n] and a numeric entry. *)
Definition num_of (k : string) (n : value) : Q :=
  match n with
  | VDict d => num_field k d
  | _ => 0
  end.

(** Three rows of one income category under two sources. *)
Definition two_sources : list BS.Row :=
  [ BS.mkRow "Total Income" "S1" "Loans" "M1" "Interest" None None None None 10 4 30;
    BS.mkRow "Total Income" "S2" "Cash" "M2" "Fees" None None None None 5 1 70;
    BS.mkRow "Total Income" "S2" "Cash" "M2" "Charges" None None None None 2 1 5 ].

(** Six sub-lines of one income category under two sources, given by
    source code, sub-line and month-to-date amount. *)
Definition two_source_income : list BS.Row :=
  map (fun x =>
         let '(src, mrl, mtd) := x in
         BS.mkRow "Total Income" src (src ++ " fees") mrl (mrl ++ " line")
                  None None None None 0 0 mtd)
      [ ("S1", "M1", 10); ("S1", "M2", 20); ("S1", "M3", 30);
        ("S2", "M4", 100); ("S2", "M5", 5); ("S2", "M6", -1) ].

(* ------------------------------------------------------------------------- *)
(** ** Further views of the leakage aggregator *)

(** What a row adds to a sum that skips NaN. *)
Definition amount_or_zero (col : RA.Row -> option Q) (r : RA.Row) : Q :=
  match col r with
  | Some q => q
  | None => 0
  end.

Definition has_segment (r : RA.Row) : bool :=
  match RA.SBU_DESCRIPTION r with
  | Some _ => true
  | None => false
  end.

(** The two columns of an entry of [sbu_totals]. *)
Definition sbu_BUSINESS_DAY (x : string * (Q * Q)) : Q := fst (snd x).
Definition sbu_MTD (x : string * (Q * Q)) : Q := snd (snd x).

(** The rows that count for one leakage type: local currency and the
    balance type of the leakage. *)
Definition counted (bal : Z) (r : RA.Row) : bool :=
  String.eqb (RA.CCY_TYPE r) "LCY" && Z.eqb (RA.BAL_TYPE r) bal.

(* ------------------------------------------------------------------------- *)
(** ** Segment summary agent

    [scripts/summary_agents/ra_segment_summary_agent.py] reads the result
    of the leakage aggregator.  Embedded are the figures that
    [agent_overall_summary] derives for one leakage type before it writes
    its prompt; the source derives them twice, for overcharge and for
    undercharge. *)

Module Segment.
Import RA.

(** [max(items, key=key)] and [min(items, key=key)] on a non-empty
    sequence: the first item whose key no other item beats. *)
Fixpoint extreme {A : Type} (beats : Q -> Q -> bool) (key : A -> Q) (best : A)
    (l : list A) : A :=
  match l with
  | [] => best
  | y :: r => extreme beats key (if beats (key y) (key best) then y else best) r
  end.

Definition max_item {A : Type} (key : A -> Q) (x : A) (l : list A) : A :=
  extreme (fun a b => Qlt_bool b a) key x l.

Definition min_item {A : Type} (key : A -> Q) (x : A) (l : list A) : A :=
  extreme (fun a b => Qlt_bool a b) key x l.

(** The segment with the highest and the segment with the lowest amount of
    the day, each with its amount, and their shares of the day's total. *)
Record Shares : Type := mkShares {
  max_sbu : string * Q;
  min_sbu : string * Q;
  max_pct : Q;
  min_val : Q;
  min_pct : Q
}.

(** [(x / totals_today * 100) if totals_today > 0 else 0] *)
Definition share (x totals_today : Q) : Q :=
  if Qlt_bool 0 totals_today then x / totals_today * 100 else 0.

Definition shares (l : Leakage) : Shares :=
  let totals_today := fst (totals l) in
  let max_sbu :=
    match sbu_totals l with
    | [] => ("N/A", 0)
    | x :: r => let m := max_item sbu_BUSINESS_DAY x r in (fst m, sbu_BUSINESS_DAY m)
    end in
  let min_sbu :=
    match sbu_totals l with
    | [] => ("N/A", 0)
    | x :: r => let m := min_item sbu_BUSINESS_DAY x r in (fst m, sbu_BUSINESS_DAY m)
    end in
  {| max_sbu := max_sbu;
     min_sbu := min_sbu;
     max_pct := share (snd max_sbu) totals_today;
     min_val := snd min_sbu;
     min_pct := share (snd min_sbu) totals_today |}.

End Segment.

(* ========================================================================= *)
(** * Properties *)

(* ------------------------------------------------------------------------- *)
(** ** Dictionaries *)

Lemma get_set_same (k : string) (v : value) (d : dict) :
  get k (set k v d) = Some v.
Proof.
  induction d as [|[k' v'] d IH]; simpl.
  - now rewrite String.eqb_refl.
  - destruct (String.eqb k' k) eqn:E; simpl; rewrite E; auto.
Qed.

Lemma get_set_other (k k' : string) (v : value) (d : dict) :
  k <> k' -> get k (set k' v d) = get k d.
Proof.
  intros Hne. induction d as [|[k0 v0] d IH]; simpl.
  - destruct (String.eqb k' k) eqn:E; auto.
    apply String.eqb_eq in E. congruence.
  - destruct (String.eqb k0 k') eqn:E; simpl.
    + apply String.eqb_eq in E. subst k0.
      destruct (String.eqb k' k) eqn:E'; auto.
      apply String.eqb_eq in E'. congruence.
    + now rewrite IH.
Qed.

Lemma get_set (k k' : string) (v : value) (d : dict) :
  get k (set k' v d) = if String.eqb k' k then Some v else get k d.
Proof.
  destruct (String.eqb k' k) eqn:E.
  - apply String.eqb_eq in E. subst. apply get_set_same.
  - apply get_set_other. intros ->. now rewrite String.eqb_refl in E.
Qed.

Lemma get_In_keys (k : string) (d : dict) :
  In k (keys d) <-> get k d <> None.
Proof.
  induction d as [|[k' v'] d IH]; simpl.
  - split; [tauto | congruence].
  - destruct (String.eqb k' k) eqn:E.
    + apply String.eqb_eq in E. split; [congruence | auto].
    + rewrite <- IH. split; [intros [H|H]; auto | auto].
      subst. now rewrite String.eqb_refl in E.
Qed.

Lemma get_In (k : string) (v : value) (d : dict) :
  get k d = Some v -> In (k, v) d.
Proof.
  induction d as [|[k' v'] d IH]; simpl; [discriminate|].
  destruct (String.eqb k' k) eqn:E; intros H.
  - apply String.eqb_eq in E. left. congruence.
  - right. auto.
Qed.

(* ------------------------------------------------------------------------- *)
(** ** The error monad *)

Lemma bind_Ok {A B : Type} (r : result A) (k : A -> result B) (b : B) :
  bind r k = Ok b -> exists a, r = Ok a /\ k a = Ok b.
Proof. destruct r; simpl; [eauto | discriminate]. Qed.

Lemma mapM_Ok_Forall2 {A B : Type} (f : A -> result B) (l : list A) (l' : list B) :
  mapM f l = Ok l' -> Forall2 (fun x y => f x = Ok y) l l'.
Proof.
  revert l'. induction l as [|x xs IH]; simpl; intros l' H.
  - injection H as <-. constructor.
  - apply bind_Ok in H as (y & Hy & H).
    apply bind_Ok in H as (ys & Hys & H). injection H as <-.
    constructor; auto.
Qed.

Lemma Forall2_map_eq {A B C : Type} (g : A -> C) (h : B -> C) (l : list A) (l' : list B) :
  Forall2 (fun x y => g x = h y) l l' -> map g l = map h l'.
Proof. induction 1; simpl; congruence. Qed.

Lemma mapM_pure {A B : Type} (f : A -> result B) (g : A -> B) (l : list A) :
  (forall x, In x l -> f x = Ok (g x)) -> mapM f l = Ok (map g l).
Proof.
  induction l as [|x xs IH]; simpl; intros H; auto.
  rewrite (H x) by auto. simpl. rewrite IH by auto. reflexivity.
Qed.

(* ------------------------------------------------------------------------- *)
(** ** Stable sorting *)

Section SortBy.
Context {A : Type}.
Variable le : A -> A -> bool.

Lemma insert_by_perm (x : A) (l : list A) :
  Permutation (insert_by le x l) (x :: l).
Proof.
  induction l as [|y r IH]; simpl; auto.
  destruct (le x y); auto.
  rewrite IH. apply perm_swap.
Qed.

Lemma sort_by_perm (l : list A) : Permutation (sort_by le l) l.
Proof.
  induction l as [|x r IH]; simpl; auto.
  rewrite insert_by_perm. auto.
Qed.

Lemma sort_by_In (l : list A) (x : A) : In x (sort_by le l) <-> In x l.
Proof.
  split; apply Permutation_in; [|symmetry]; apply sort_by_perm.
Qed.

Lemma sort_by_length (l : list A) : List.length (sort_by le l) = List.length l.
Proof. apply Permutation_length, sort_by_perm. Qed.

(** A list that is already in order is left as it is. *)
Lemma sort_by_sorted_id (l : list A) :
  StronglySorted (fun x y => le x y = true) l -> sort_by le l = l.
Proof.
  induction 1 as [|x r Hs IH Hx]; simpl; auto.
  rewrite IH. destruct r as [|y r']; simpl; auto.
  inversion Hx; subst. now rewrite H1.
Qed.

(** A predicate that never separates two elements the wrong way round
    selects the same sub-list before and after sorting. *)
Lemma insert_by_filter (p : A -> bool) (x : A) (l : list A) :
  (forall y, In y l -> p x = true -> p y = true -> le x y = true) ->
  filter p (insert_by le x l) = filter p (x :: l).
Proof.
  induction l as [|y r IH]; intros H; simpl; auto.
  destruct (le x y) eqn:E; simpl; auto.
  simpl in IH. rewrite IH by (intros; apply H; simpl; auto).
  destruct (p x) eqn:Px; auto.
  destruct (p y) eqn:Py; auto.
  rewrite H in E; simpl; auto. discriminate.
Qed.

Lemma sort_by_filter (p : A -> bool) (l : list A) :
  (forall x y, p x = true -> p y = true -> le x y = true) ->
  filter p (sort_by le l) = filter p l.
Proof.
  intros H. induction l as [|x r IH]; simpl; auto.
  rewrite insert_by_filter by (intros; apply H; auto).
  simpl. now rewrite IH.
Qed.

Hypothesis le_total : forall x y, le x y = true \/ le y x = true.
Hypothesis le_trans : forall x y z, le x y = true -> le y z = true -> le x z = true.

Lemma insert_by_sorted (ord : A -> A -> Prop) (x : A) (l : list A) :
  Forall (ord x) l ->
  StronglySorted (before le ord) l ->
  StronglySorted (before le ord) (insert_by le x l).
Proof.
  intros Hx Hs. induction Hs as [|y r Hs IH Hy]; simpl.
  - repeat constructor.
  - inversion Hx as [|? ? Hxy Hxr]; subst.
    destruct (le x y) eqn:E.
    + constructor; [constructor; auto|].
      constructor; [split; auto|].
      rewrite Forall_forall in *. intros z Hz. split.
      * eapply le_trans; [exact E|]. apply (Hy z Hz).
      * intros _. auto.
    + constructor; auto.
      rewrite Forall_forall in *. intros z Hz.
      apply (Permutation_in _ (insert_by_perm x r)) in Hz.
      destruct Hz as [<-|Hz]; auto.
      split.
      * destruct (le_total x y); congruence.
      * intros; congruence.
Qed.

(** Sorting a list whose elements are in [ord] order yields the list in
    [le] order with ties in [ord] order: the sort is stable. *)
Lemma sort_by_sorted (ord : A -> A -> Prop) (l : list A) :
  StronglySorted ord l -> StronglySorted (before le ord) (sort_by le l).
Proof.
  induction 1 as [|x r Hs IH Hx]; simpl; [constructor|].
  apply insert_by_sorted; auto.
  rewrite Forall_forall in *. intros z Hz. apply Hx.
  now apply (proj1 (sort_by_In r z)).
Qed.

Lemma sort_by_le_sorted (l : list A) :
  StronglySorted (fun x y => le x y = true) (sort_by le l).
Proof.
  induction l as [|x r IH]; simpl; [constructor|].
  assert (H : forall l0, StronglySorted (fun x y => le x y = true) l0 ->
                         StronglySorted (fun x y => le x y = true) (insert_by le x l0)).
  { induction 1 as [|y r' Hs IH' Hy]; simpl; [repeat constructor|].
    destruct (le x y) eqn:E.
    - constructor; [constructor; auto|]. constructor; auto.
      rewrite Forall_forall in *. intros z Hz. eapply le_trans; eauto.
    - constructor; auto.
      rewrite Forall_forall in *. intros z Hz.
      apply (Permutation_in _ (insert_by_perm x r')) in Hz.
      destruct Hz as [<-|Hz]; auto.
      destruct (le_total x y); congruence. }
  auto.
Qed.
End SortBy.

(** Sorting commutes with a map that respects the comparison. *)
Lemma sort_by_map {A B : Type} (f : A -> B) (leA : A -> A -> bool)
    (leB : B -> B -> bool) (l : list A) :
  (forall x y, leB (f x) (f y) = leA x y) ->
  sort_by leB (map f l) = map f (sort_by leA l).
Proof.
  intros H. induction l as [|x r IH]; simpl; auto.
  rewrite IH. generalize (sort_by leA r). intros s.
  induction s as [|y s IHs]; simpl; auto.
  rewrite H. destruct (leA x y); simpl; congruence.
Qed.

Lemma sort_by_ext {A : Type} (le1 le2 : A -> A -> bool) (l : list A) :
  (forall x y, In x l -> In y l -> le1 x y = le2 x y) ->
  sort_by le1 l = sort_by le2 l.
Proof.
  induction l as [|x r IH]; simpl; intros H; auto.
  rewrite <- IH by (intros; apply H; auto).
  assert (Hs : forall y, In y (sort_by le1 r) -> In y r).
  { intros y Hy. now apply (proj1 (sort_by_In le1 r y)). }
  revert Hs. generalize (sort_by le1 r). intros s Hs.
  induction s as [|y s IHs]; simpl; auto.
  rewrite H; [| now left | right; apply Hs; now left].
  destruct (le2 x y); auto. f_equal. apply IHs.
  intros z Hz. apply Hs. now right.
Qed.

Lemma firstn_map {A B : Type} (f : A -> B) (n : nat) (l : list A) :
  firstn n (map f l) = map f (firstn n l).
Proof.
  revert l. induction n as [|n IH]; intros [|x l]; simpl; auto. now rewrite IH.
Qed.

Lemma firstn_In {A : Type} (n : nat) (l : list A) (x : A) :
  In x (firstn n l) -> In x l.
Proof.
  revert l. induction n as [|n IH]; intros [|y l]; simpl; try tauto.
  intros [H|H]; auto.
Qed.

(* ------------------------------------------------------------------------- *)
(** ** Scale formatter *)

Lemma Qlt_bool_iff (x y : Q) : Qlt_bool x y = true <-> x < y.
Proof.
  unfold Qlt_bool. rewrite negb_true_iff.
  split; intros H.
  - apply Qnot_le_lt. intros Hle. apply Qle_bool_iff in Hle. congruence.
  - destruct (Qle_bool y x) eqn:E; auto.
    apply Qle_bool_iff in E. exfalso. eapply Qlt_not_le; eauto.
Qed.

Lemma Qle_bool_false (x y : Q) : Qle_bool x y = false <-> ~ x <= y.
Proof.
  split; intros H.
  - intros Hle. apply Qle_bool_iff in Hle. congruence.
  - destruct (Qle_bool x y) eqn:E; auto. apply Qle_bool_iff in E. tauto.
Qed.

(** C5. The relative-scale policy: below 1e3 the divisor is 1 with an empty
    suffix; from 1e3 on it is the largest divisor of [scales] whose quotient
    reaches 10, and divisor 1 with an empty suffix when no divisor
    qualifies.  12,345,000 gives (1e6, "M") and 8,000 gives (1, ""). *)
Theorem get_scale_info_relative (v : Q) :
  (Qabs v < 1e3 -> _get_scale_info (VNum v) = Ok (1, "")) /\
  (1e3 <= Qabs v ->
   forall d s, In (d, s) scales -> 10 <= Qabs v / d ->
   (forall d' s', In (d', s') scales -> d < d' -> ~ 10 <= Qabs v / d') ->
   _get_scale_info (VNum v) = Ok (d, s)) /\
  (1e3 <= Qabs v ->
   (forall d s, In (d, s) scales -> ~ 10 <= Qabs v / d) ->
   _get_scale_info (VNum v) = Ok (1, "")) /\
  _get_scale_info (VNum 12345000) = Ok (1e6, "M") /\
  _get_scale_info (VNum 8000) = Ok (1, "").
Proof.
  repeat split; try reflexivity.
  - intros H. unfold _get_scale_info.
    apply Qlt_bool_iff in H. now rewrite H.
  - intros Hge d s Hin Hq Hmax. unfold _get_scale_info.
    destruct (Qlt_bool (Qabs v) 1e3) eqn:E.
    { apply Qlt_bool_iff in E. exfalso. eapply Qlt_not_le; eauto. }
    assert (Hno : forall d' s', In (d', s') scales -> d < d' ->
                                Qle_bool 10 (Qabs v / d') = false).
    { intros d' s' Hin' Hlt. apply Qle_bool_false. eauto. }
    apply Qle_bool_iff in Hq.
    simpl in Hin.
    destruct Hin as [Hin|[Hin|[Hin|[Hin|[]]]]]; injection Hin as <- <-;
      unfold scales, first_scale.
    + now rewrite Hq.
    + rewrite (Hno 1e12 "T") by (simpl; auto; reflexivity).
      now rewrite Hq.
    + rewrite (Hno 1e12 "T"), (Hno 1e9 "B") by (simpl; auto; reflexivity).
      now rewrite Hq.
    + rewrite (Hno 1e12 "T"), (Hno 1e9 "B"), (Hno 1e6 "M")
        by (simpl; auto; reflexivity).
      now rewrite Hq.
  - intros Hge Hnone. unfold _get_scale_info.
    destruct (Qlt_bool (Qabs v) 1e3) eqn:E; auto.
    unfold scales, first_scale.
    rewrite !(proj2 (Qle_bool_false _ _)); auto.
    + apply (Hnone 1e3 "K"). simpl; auto.
    + apply (Hnone 1e6 "M"). simpl; auto.
    + apply (Hnone 1e9 "B"). simpl; auto.
    + apply (Hnone 1e12 "T"). simpl; auto.
Qed.

Lemma get_scale_info_relative_witness :
  _get_scale_info (VNum 500) = Ok (1, "") /\
  _get_scale_info (VNum 12345000) = Ok (1e6, "M") /\
  _get_scale_info (VNum (-8000)) = Ok (1, "").
Proof.
  split; [|split].
  - apply (proj1 (get_scale_info_relative 500)). reflexivity.
  - apply (proj1 (proj2 (get_scale_info_relative 12345000))).
    + discriminate.
    + simpl. auto.
    + discriminate.
    + intros d' s' Hin Hlt. simpl in Hin.
      destruct Hin as [Hin|[Hin|[Hin|[Hin|[]]]]]; injection Hin as <- <-;
        try (intros H; apply H; reflexivity);
        try (exfalso; revert Hlt; apply Qle_not_lt; discriminate).
  - apply (proj1 (proj2 (proj2 (get_scale_info_relative (-8000))))).
    + discriminate.
    + intros d s Hin. simpl in Hin.
      destruct Hin as [Hin|[Hin|[Hin|[Hin|[]]]]]; injection Hin as <- <-;
        intros H; apply H; reflexivity.
Defined.

(** C6. The standalone fixed-scale formatter at -1234 and "INR": the sign is
    rendered twice, once by the explicit sign and once by the scaled value,
    so the result is not the documented "₹-1.23K". *)
Theorem format_scaled_amount_negative :
  format_scaled_amount (VNum (-1234)) "INR" = Ok "₹--1.23K" /\
  format_scaled_amount (VNum (-1234)) "INR" <> Ok "₹-1.23K" /\
  format_scaled_amount (VNum 1234) "INR" = Ok "₹1.23K".
Proof.
  repeat split; try reflexivity. discriminate.
Qed.

(* ------------------------------------------------------------------------- *)
(** ** Tree formatter: one node *)

Lemma foldM_inv {S A : Type} (f : S -> A -> result S) (P : S -> Prop)
    (l : list A) (s s' : S) :
  (forall s a s', In a l -> f s a = Ok s' -> P s -> P s') ->
  foldM f l s = Ok s' -> P s -> P s'.
Proof.
  revert s. induction l as [|a l IH]; simpl; intros s Hstep Hf Hs.
  - now injection Hf as <-.
  - apply bind_Ok in Hf as (s1 & H1 & H2).
    apply IH with (s := s1); eauto.
Qed.

Lemma direction_cases (v : value) :
  direction v = "Increase" \/ direction v = "Decrease".
Proof. destruct v; simpl; auto. destruct (Qlt_bool q 0); auto. Qed.

(** The first loop writes [Increase_Amount] or [Decrease_Amount] only. *)
Lemma change_step_other (c : string) (d : dict) (st st' : dict * rel_scale)
    (key K : string) :
  change_step c d st key = Ok st' ->
  K <> "Increase_Amount" -> K <> "Decrease_Amount" ->
  get K (fst st') = get K (fst st).
Proof.
  destruct st as [nd rel]. unfold change_step.
  destruct (is_change_key key && negb (is_none (get key d)));
    [|intros H; now injection H as <-].
  destruct (get key d) as [v|]; [|intros H; now injection H as <-].
  intros H HI HD.
  apply bind_Ok in H as ([dv sf] & _ & H).
  apply bind_Ok in H as (s & _ & H). injection H as <-. simpl.
  apply get_set_other.
  destruct (direction_cases v) as [-> | ->]; simpl; congruence.
Qed.

(** Without a non-null change key the first loop does nothing. *)
Lemma change_loop_none (c : string) (d : dict) (ks : list string)
    (st : dict * rel_scale) :
  (forall key, In key ks -> is_change_key key = true -> get key d = Some VNone) ->
  foldM (change_step c d) ks st = Ok st.
Proof.
  induction ks as [|key ks IH]; simpl; intros H; auto.
  assert (E : change_step c d st key = Ok st).
  { destruct st as [nd rel]. unfold change_step.
    destruct (is_change_key key) eqn:Ek; simpl; auto.
    rewrite (H key) by auto. reflexivity. }
  rewrite E. simpl. apply IH. auto.
Qed.

(** When every non-null change value of the node is the number [q], the
    first loop leaves the scale of [q], or none when it met no such key. *)
Lemma change_loop_scale (c : string) (d : dict) (q : Q) (ks : list string)
    (st st' : dict * rel_scale) :
  (forall key v, is_change_key key = true -> get key d = Some v ->
                 v = VNone \/ v = VNum q) ->
  foldM (change_step c d) ks st = Ok st' ->
  (snd st = None \/ Ok (A := Q * string) match snd st with Some sc => sc | None => (0, "") end
                    = _get_scale_info (VNum q) /\ snd st <> None) ->
  (snd st' = snd st /\
   (forall key, In key ks -> is_change_key key = true -> get key d = Some (VNum q) -> False))
  \/ (exists sc, snd st' = Some sc /\ _get_scale_info (VNum q) = Ok sc).
Proof.
  intros Hd. revert st. induction ks as [|key ks IH]; simpl; intros st Hf Hst.
  - injection Hf as <-. left. split; auto.
  - apply bind_Ok in Hf as (st1 & H1 & H2).
    destruct st as [nd rel]. unfold change_step in H1.
    destruct (is_change_key key) eqn:Ek; simpl in H1.
    + destruct (get key d) as [v|] eqn:Eg; simpl in H1.
      * destruct (Hd key v Ek Eg) as [-> | ->]; simpl in H1.
        -- injection H1 as <-.
           destruct (IH _ H2 Hst) as [[E Hno] | Hyes]; auto.
           left. split; auto. intros key' [<-|Hin] Hk Hg; eauto. congruence.
        -- apply bind_Ok in H1 as ([dv sf] & Hsc & H1).
           apply bind_Ok in H1 as (s & _ & H1). injection H1 as <-.
           right.
           destruct (IH _ H2) as [[E _] | Hyes]; auto.
           ++ simpl. right. split; [now rewrite Hsc | discriminate].
           ++ simpl in E. eauto.
      * injection H1 as <-.
        destruct (IH _ H2 Hst) as [[E Hno] | Hyes]; auto.
        left. split; auto. intros key' [<-|Hin] Hk Hg; eauto. congruence.
    + injection H1 as <-.
      destruct (IH _ H2 Hst) as [[E Hno] | Hyes]; auto.
      left. split; auto. intros key' [<-|Hin] Hk Hg; eauto. congruence.
Qed.

(** The second loop writes [Increase_Percentage] or [Decrease_Percentage]
    only. *)
Lemma pct_step_other (d nd nd' : dict) (key K : string) :
  pct_step d nd key = Ok nd' ->
  K <> "Increase_Percentage" -> K <> "Decrease_Percentage" ->
  get K nd' = get K nd.
Proof.
  unfold pct_step.
  destruct (endswith key "_PCT_CHANGE" && negb (is_none (get key d)));
    [|intros H; now injection H as <-].
  destruct (get key d) as [v|]; [|intros H; now injection H as <-].
  intros H HI HD.
  assert (Hk : K <> direction v ++ "_Percentage").
  { destruct (direction_cases v) as [-> | ->]; simpl; congruence. }
  destruct v; try discriminate; injection H as <-; now apply get_set_other.
Qed.

(** Without a non-null percentage key the second loop does nothing. *)
Lemma pct_loop_none (d : dict) (ks : list string) (nd : dict) :
  (forall key, In key ks -> endswith key "_PCT_CHANGE" = true ->
               get key d = Some VNone) ->
  foldM (pct_step d) ks nd = Ok nd.
Proof.
  induction ks as [|key ks IH]; simpl; intros H; auto.
  assert (E : pct_step d nd key = Ok nd).
  { unfold pct_step. destruct (endswith key "_PCT_CHANGE") eqn:Ek; simpl; auto.
    rewrite (H key) by auto. reflexivity. }
  rewrite E. simpl. apply IH. auto.
Qed.

(** What the third loop does for one key. *)
Lemma amount_step_inv (c : string) (d : dict) (rel : rel_scale) (nd nd' : dict)
    (k : string) :
  endswith k "_PCT_CHANGE" = false ->
  amount_step c d rel nd k = Ok nd' ->
  match get k d with
  | None => nd' = nd
  | Some v =>
      exists s1 s2, relative_copy c rel v = Ok s1 /\ fixed_copy c v = Ok s2 /\
                    nd' = set (k ++ "_FIX") (VStr s2) (set k (VStr s1) nd)
  end.
Proof.
  intros Hk. unfold amount_step. rewrite Hk. simpl.
  destruct (get k d) as [v|]; [|intros H; now injection H as <-].
  intros H. apply bind_Ok in H as (s1 & H1 & H).
  apply bind_Ok in H as (s2 & H2 & H). injection H as <-. eauto.
Qed.

Ltac invert_amount_steps H :=
  repeat match type of H with
         | bind _ _ = Ok _ =>
             let nd := fresh "nd" in
             let Hs := fresh "Hstep" in
             apply bind_Ok in H as (nd & Hs & H);
             apply amount_step_inv in Hs; [|reflexivity]
         end.

(** The third loop leaves, for each amount key of the node, the relative
    copy under the key and the fixed copy under the key with [_FIX]. *)
Lemma amount_loop_present (c : string) (d : dict) (rel : rel_scale)
    (nd nd' : dict) (k : string) (v : value) :
  foldM (amount_step c d rel) amount_key_list nd = Ok nd' ->
  In k amount_key_list -> get k d = Some v ->
  exists s1 s2, relative_copy c rel v = Ok s1 /\ fixed_copy c v = Ok s2 /\
                get k nd' = Some (VStr s1) /\
                get (k ++ "_FIX") nd' = Some (VStr s2).
Proof.
  intros H Hin Hk. unfold amount_key_list, foldM in H.
  invert_amount_steps H. injection H as <-.
  simpl in Hin.
  destruct Hin as [<-|[<-|[<-|[<-|[]]]]]; rewrite Hk in *;
    repeat match goal with
           | Hs : match get ?x d with _ => _ end |- _ => destruct (get x d)
           | Hs : exists _, _ |- _ =>
               let s1 := fresh "s" in
               let s2 := fresh "s" in
               destruct Hs as (s1 & s2 & ? & ? & ?)
           end; subst;
    do 2 eexists; (split; [eassumption|]); (split; [eassumption|]);
    rewrite !get_set; simpl; auto.
Qed.

(** The third loop writes the amount keys and their [_FIX] keys only. *)
Lemma amount_loop_other (c : string) (d : dict) (rel : rel_scale)
    (nd nd' : dict) (K : string) :
  foldM (amount_step c d rel) amount_key_list nd = Ok nd' ->
  ~ In K amount_key_list ->
  ~ In K (map (fun k => k ++ "_FIX") amount_key_list) ->
  get K nd' = get K nd.
Proof.
  intros H Hk Hf. unfold amount_key_list, foldM in H.
  invert_amount_steps H. injection H as <-.
  simpl in Hk, Hf.
  repeat match goal with
         | Hs : match get ?x d with _ => _ end |- _ => destruct (get x d)
         | Hs : exists _, _ |- _ =>
             let s1 := fresh "s" in
             let s2 := fresh "s" in
             destruct Hs as (s1 & s2 & ? & ? & ?)
         end; subst;
  repeat (rewrite get_set_other; [|intros ->; tauto]); reflexivity.
Qed.

(** The fourth loop copies what is not there yet, the change keys apart. *)
Lemma copy_loop_get (d : dict) (ks : list string) (nd : dict) (K : string) :
  get K (fold_left (copy_step d) ks nd) =
    match get K nd with
    | Some v => Some v
    | None => if existsb (String.eqb K) ks && negb (endswith K "_CHANGE")
                 && negb (endswith K "_PCT_CHANGE")
              then get K d else None
    end.
Proof.
  revert nd. induction ks as [|key ks IH]; intros nd; simpl.
  - now destruct (get K nd).
  - rewrite IH. unfold copy_step at 1, mem.
    destruct (String.eqb K key) eqn:E.
    + apply String.eqb_eq in E. subst key. simpl.
      destruct (get K nd) as [v|] eqn:Eg; simpl; [now rewrite Eg|].
      destruct (endswith K "_CHANGE"); simpl; [now rewrite Eg; destruct (existsb _ ks)|].
      destruct (endswith K "_PCT_CHANGE"); simpl;
        [now rewrite Eg; destruct (existsb _ ks)|].
      destruct (get K d) as [v|] eqn:Ed.
      * now rewrite get_set_same.
      * rewrite Eg. now destruct (existsb _ ks).
    + simpl.
      assert (Hne : K <> key) by (intros ->; now rewrite String.eqb_refl in E).
      destruct (negb match get key nd with Some _ => true | None => false end
                && negb (endswith key "_CHANGE")
                && negb (endswith key "_PCT_CHANGE")); auto.
      destruct (get key d); auto.
      now rewrite get_set_other.
Qed.

Lemma existsb_keys (K : string) (d : dict) :
  existsb (String.eqb K) (keys d) = mem K d.
Proof.
  unfold mem. induction d as [|[k v] d IH]; simpl; auto.
  rewrite String.eqb_sym. destruct (String.eqb k K); auto.
Qed.

Lemma prefixb_app (p q r : string) :
  prefixb (p ++ q) r = true -> prefixb p r = true.
Proof.
  revert r. induction p as [|a p IH]; intros r; simpl; auto.
  destruct r as [|b r]; [discriminate|].
  rewrite !andb_true_iff. intros [H1 H2]. auto.
Qed.

Lemma pct_change_is_change (K : string) :
  endswith K "_PCT_CHANGE" = true -> endswith K "_CHANGE" = true.
Proof. unfold endswith. apply (prefixb_app "EGNAHC_" "TCP_"). Qed.

(** ** The node after [_format_dict_node] *)

Section Node.
Variables (c : string) (d out : dict).
Hypothesis Hnode : _format_dict_node c d = Ok out.

(** The four stages of the node formatter. *)
Lemma node_stages :
  exists nd1 rel nd2 nd3,
    foldM (change_step c d) (keys d) ([], None) = Ok (nd1, rel) /\
    foldM (pct_step d) (keys d) nd1 = Ok nd2 /\
    foldM (amount_step c d rel) amount_key_list nd2 = Ok nd3 /\
    out = fold_left (copy_step d) (keys d) nd3.
Proof.
  unfold _format_dict_node in Hnode.
  apply bind_Ok in Hnode as ([nd1 rel] & H1 & H).
  apply bind_Ok in H as (nd2 & H2 & H).
  apply bind_Ok in H as (nd3 & H3 & H). injection H as <-.
  exists nd1, rel, nd2, nd3. auto.
Qed.

(** A key that no loop writes passes through, unless it ends in
    [_CHANGE]. *)
Lemma node_get_other (K : string) :
  ~ In K direction_keys ->
  ~ In K amount_key_list ->
  ~ In K (map (fun k => k ++ "_FIX") amount_key_list) ->
  get K out = if endswith K "_CHANGE" then None else get K d.
Proof.
  intros Hd Ha Hf.
  destruct node_stages as (nd1 & rel & nd2 & nd3 & H1 & H2 & H3 & ->).
  rewrite copy_loop_get.
  rewrite (amount_loop_other _ _ _ _ _ _ H3 Ha Hf).
  assert (E2 : get K nd2 = get K nd1).
  { apply (foldM_inv _ (fun nd => get K nd = get K nd1) _ _ _) with (3 := eq_refl) in H2; auto.
    intros s a s' _ Hs <-. eapply pct_step_other; eauto;
      intros ->; apply Hd; simpl; auto. }
  assert (E1 : get K nd1 = None).
  { apply (foldM_inv _ (fun st => get K (fst st) = None) _ _ _) in H1; auto.
    intros s a s' _ Hs <-. eapply change_step_other; eauto;
      intros ->; apply Hd; simpl; auto. }
  rewrite E2, E1, existsb_keys. unfold mem.
  destruct (endswith K "_CHANGE") eqn:Ec; simpl.
  - now rewrite andb_false_r.
  - destruct (endswith K "_PCT_CHANGE") eqn:Ep.
    + apply pct_change_is_change in Ep. congruence.
    + now destruct (get K d).
Qed.

(** An amount key of the node carries its two copies. *)
Lemma node_get_amount (rel : rel_scale) (nd1 : dict) (k : string) (v : value) :
  foldM (change_step c d) (keys d) ([], None) = Ok (nd1, rel) ->
  In k amount_key_list -> get k d = Some v ->
  exists s1 s2, relative_copy c rel v = Ok s1 /\ fixed_copy c v = Ok s2 /\
                get k out = Some (VStr s1) /\
                get (k ++ "_FIX") out = Some (VStr s2).
Proof.
  intros Hrel Hin Hk.
  destruct node_stages as (nd1' & rel' & nd2 & nd3 & H1 & H2 & H3 & ->).
  rewrite Hrel in H1. injection H1 as <- <-.
  destruct (amount_loop_present _ _ _ _ _ _ _ H3 Hin Hk)
    as (s1 & s2 & E1 & E2 & G1 & G2).
  exists s1, s2. rewrite !copy_loop_get, G1, G2. auto.
Qed.

(** A direction key is written by the first two loops or passes through. *)
Lemma node_get_direction (K : string) (nd1 nd2 : dict) (rel : rel_scale) :
  foldM (change_step c d) (keys d) ([], None) = Ok (nd1, rel) ->
  foldM (pct_step d) (keys d) nd1 = Ok nd2 ->
  In K direction_keys ->
  get K out = match get K nd2 with Some v => Some v | None => get K d end.
Proof.
  intros Hrel Hpct Hin.
  destruct node_stages as (nd1' & rel' & nd2' & nd3 & H1 & H2 & H3 & ->).
  rewrite Hrel in H1. injection H1 as <- <-.
  rewrite Hpct in H2. injection H2 as <-.
  rewrite copy_loop_get.
  rewrite (amount_loop_other _ _ _ _ _ _ H3).
  - destruct (get K nd2); auto.
    rewrite existsb_keys. unfold mem.
    simpl in Hin.
    destruct Hin as [<-|[<-|[<-|[<-|[]]]]]; simpl; now destruct (get _ d).
  - simpl in *. intros H.
    destruct Hin as [<-|[<-|[<-|[<-|[]]]]];
      repeat (destruct H as [H|H]; [discriminate|]); auto.
  - simpl in *. intros H.
    destruct Hin as [<-|[<-|[<-|[<-|[]]]]];
      repeat (destruct H as [H|H]; [discriminate|]); auto.
Qed.
End Node.

(** ** The node after [_format_dict] *)

Lemma format_children_get (f : value -> result value) (key : string)
    (src src' : dict) (K : string) :
  format_children f key src = Ok src' -> K <> key -> get K src' = get K src.
Proof.
  unfold format_children. destruct (get key src) as [v|];
    [|intros H; now injection H as <-].
  intros H Hne.
  apply bind_Ok in H as (xs & _ & H). apply bind_Ok in H as (ys & _ & H).
  destruct v; injection H as <-; auto. now apply get_set_other.
Qed.

(** The recursion into the child lists leaves the other entries of the node
    as [_format_dict_node] made them. *)
Lemma format_dict_inv (fuel : nat) (c : string) (d : dict) (out : value) :
  _format_dict fuel c (VDict d) = Ok out ->
  exists d1 out', _format_dict_node c d = Ok d1 /\ out = VDict out' /\
                  forall K, K <> "SIGNIFICANT_SOURCES" -> get K out' = get K d1.
Proof.
  destruct fuel as [|n]; simpl; [discriminate|].
  intros H. apply bind_Ok in H as (d1 & H1 & H).
  apply bind_Ok in H as (d2 & H2 & H). injection H as <-.
  exists d1, d2. repeat split; auto.
  intros K HK. eapply format_children_get; eauto.
Qed.

Lemma get_scale_info_nonzero (v : value) (dv : Q) (sf : string) :
  _get_scale_info v = Ok (dv, sf) -> Qeq_bool dv 0 = false.
Proof.
  destruct v; simpl; try discriminate.
  - intros H. now injection H as <- <-.
  - destruct (Qlt_bool (Qabs q) 1e3); [intros H; now injection H as <- <-|].
    unfold scales, first_scale.
    repeat match goal with
           | |- context [if ?b then _ else _] => destruct b
           end; intros H; now injection H as <- <-.
Qed.

(** X9. In a node whose non-null change values are all the number [q],
    each amount key present is rendered on the scale of [q] with no
    decimals, and again under the key with [_FIX] on its own fixed scale
    with two. *)
Lemma format_dict_amount_copies (fuel : nat) (c : string) (d out : dict) (q : Q)
    (k : string) (v : value) :
  (forall key v', is_change_key key = true -> get key d = Some v' ->
                  v' = VNone \/ v' = VNum q) ->
  (exists key, is_change_key key = true /\ get key d = Some (VNum q)) ->
  _format_dict fuel c (VDict d) = Ok (VDict out) ->
  In k amount_key_list -> get k d = Some v ->
  exists dv sf s1 s2,
    _get_scale_info (VNum q) = Ok (dv, sf) /\
    _format_fixed_scale c v dv sf 0 = Ok s1 /\
    fixed_copy c v = Ok s2 /\
    get k out = Some (VStr s1) /\
    get (k ++ "_FIX") out = Some (VStr s2).
Proof.
  intros Hall (ck & Hck & Hq) H Hin Hk.
  apply format_dict_inv in H as (d1 & out' & Hnode & E & Hsame).
  injection E as <-.
  destruct (node_stages _ _ _ Hnode) as (nd1 & rel & nd2 & nd3 & H1 & _).
  destruct (node_get_amount _ _ _ Hnode _ _ _ _ H1 Hin Hk)
    as (s1 & s2 & E1 & E2 & G1 & G2).
  destruct (change_loop_scale c d q _ _ _ Hall H1) as [[E Hno] | (sc & E & Hsc)].
  - simpl. auto.
  - exfalso. apply (Hno ck); auto.
    apply get_In_keys. congruence.
  - simpl in E. subst rel. destruct sc as [dv sf].
    exists dv, sf, s1, s2. repeat split; auto.
    + unfold relative_copy in E1.
      now rewrite (get_scale_info_nonzero _ _ _ Hsc) in E1.
    + rewrite Hsame; auto.
      simpl in Hin. destruct Hin as [<-|[<-|[<-|[<-|[]]]]]; discriminate.
    + rewrite Hsame; auto.
      simpl in Hin. destruct Hin as [<-|[<-|[<-|[<-|[]]]]]; discriminate.
Qed.

(* ------------------------------------------------------------------------- *)
(** ** Formattable nodes: the formatter returns *)

Lemma formattable_dict (d : dict) :
  formattable (VDict d) = forallb entry_formattable d.
Proof.
  cbn [formattable]. induction d as [|[k x] d IH]; [reflexivity|].
  cbn [forallb]. now rewrite IH.
Qed.

Lemma formattable_get (d : dict) (k : string) (v : value) :
  formattable (VDict d) = true -> get k d = Some v ->
  entry_formattable (k, v) = true.
Proof.
  rewrite formattable_dict, forallb_forall. intros H Hg. apply H.
  now apply get_In.
Qed.

(** ** Depth *)

Lemma depth_In_list (x : value) (l : list value) :
  In x l -> (depth x < depth (VList l))%nat.
Proof.
  cbn [depth]. induction l as [|y l IH]; simpl; [tauto|].
  intros [->|H]; [lia|]. specialize (IH H). lia.
Qed.

Lemma depth_In_dict (k : string) (x : value) (d : dict) :
  In (k, x) d -> (depth x < depth (VDict d))%nat.
Proof.
  cbn [depth]. induction d as [|[k' y] d IH]; simpl; [tauto|].
  intros [[= -> ->]|H]; [lia|]. specialize (IH H). lia.
Qed.

Lemma depth_child (k : string) (d : dict) (l : list value) (x : value) :
  get k d = Some (VList l) -> In x l -> (S (depth x) < depth (VDict d))%nat.
Proof.
  intros Hg Hx. apply get_In, depth_In_dict in Hg.
  apply depth_In_list in Hx. lia.
Qed.

(** ** Totality of the node formatter *)

Lemma foldM_total {S A : Type} (f : S -> A -> result S) (l : list A) (s : S) :
  (forall s a, In a l -> exists s', f s a = Ok s') ->
  exists s', foldM f l s = Ok s'.
Proof.
  revert s. induction l as [|a l IH]; intros s H; simpl; eauto.
  destruct (H s a (or_introl eq_refl)) as (s1 & ->). simpl.
  apply IH. intros; apply H; now right.
Qed.

Lemma format_fixed_scale_total (c : string) (v : value) (dv : Q) (sf : string)
    (dp : nat) :
  is_num_or_none v = true -> Qeq_bool dv 0 = false ->
  exists s, _format_fixed_scale c v dv sf dp = Ok s.
Proof.
  destruct v; try discriminate; simpl; intros _ H; eauto.
  rewrite H. eauto.
Qed.

Lemma get_scale_info_fixed_total (v : value) :
  is_num_or_none v = true ->
  exists dv sf, _get_scale_info_fixed v = Ok (dv, sf) /\ Qeq_bool dv 0 = false.
Proof.
  destruct v; try discriminate; simpl; intros _; eauto.
  repeat match goal with
         | |- context [if ?b then _ else _] => destruct b
         end; eauto.
Qed.

Lemma get_scale_info_total (q : Q) :
  exists dv sf, _get_scale_info (VNum q) = Ok (dv, sf).
Proof.
  destruct (_get_scale_info (VNum q)) as [[dv sf]|e] eqn:E; eauto.
  simpl in E. destruct (Qlt_bool (Qabs q) 1e3); discriminate.
Qed.

Section NodeTotal.
Variables (c : string) (d : dict).
Hypothesis Hok : forall k v, get k d = Some v -> entry_ok k v = true.

Lemma key_value (k : string) : In k (keys d) -> exists v, get k d = Some v.
Proof.
  intros H. apply get_In_keys in H. destruct (get k d); [eauto|congruence].
Qed.

Lemma change_step_total (st : dict * rel_scale) (key : string) :
  In key (keys d) -> exists st', change_step c d st key = Ok st'.
Proof.
  intros Hin. destruct (key_value key Hin) as (v & Hv).
  destruct st as [nd rel]. unfold change_step. rewrite Hv.
  destruct (is_change_key key) eqn:Ek; [|cbn [andb]; eauto].
  specialize (Hok key v Hv). unfold entry_ok in Hok. rewrite Ek in Hok.
  apply andb_true_iff in Hok as [Hok _].
  apply andb_true_iff in Hok as [Hok _]. cbn [negb orb] in Hok.
  destruct v; try discriminate; cbn [andb negb is_none]; eauto.
  destruct (get_scale_info_total q) as (dv & sf & Hsc).
  rewrite Hsc. cbn [bind].
  pose proof (get_scale_info_nonzero _ _ _ Hsc) as Hnz.
  destruct (String.eqb (direction (VNum q)) "Decrease");
    unfold _format_fixed_scale; rewrite Hnz; cbn [bind]; eauto.
Qed.

Lemma pct_step_total (nd : dict) (key : string) :
  In key (keys d) -> exists nd', pct_step d nd key = Ok nd'.
Proof.
  intros Hin. destruct (key_value key Hin) as (v & Hv).
  unfold pct_step. rewrite Hv.
  destruct (endswith key "_PCT_CHANGE") eqn:Ek; [|cbn [andb]; eauto].
  specialize (Hok key v Hv). unfold entry_ok in Hok. rewrite Ek in Hok.
  apply andb_true_iff in Hok as [Hok _].
  apply andb_true_iff in Hok as [_ Hok]. cbn [negb orb] in Hok.
  destruct v; try discriminate; cbn [andb negb is_none]; eauto.
Qed.

Lemma relative_copy_total (rel : rel_scale) (v : value) :
  is_num_or_none v = true -> exists s, relative_copy c rel v = Ok s.
Proof.
  intros Hv. unfold relative_copy. destruct rel as [[dv sf]|]; eauto.
  destruct (Qeq_bool dv 0) eqn:E; eauto.
  now apply format_fixed_scale_total.
Qed.

Lemma fixed_copy_total (v : value) :
  is_num_or_none v = true -> exists s, fixed_copy c v = Ok s.
Proof.
  intros Hv. unfold fixed_copy.
  destruct (get_scale_info_fixed_total v Hv) as (dv & sf & -> & Hnz). simpl.
  now apply format_fixed_scale_total.
Qed.

Lemma amount_step_total (rel : rel_scale) (nd : dict) (k : string) :
  In k amount_key_list -> exists nd', amount_step c d rel nd k = Ok nd'.
Proof.
  intros Hin. unfold amount_step.
  destruct (get k d) as [v|] eqn:Hv; eauto.
  destruct (negb (endswith k "_PCT_CHANGE")); eauto.
  specialize (Hok k v Hv). unfold entry_ok in Hok.
  apply andb_true_iff in Hok as [_ Hok].
  assert (E : existsb (String.eqb k) amount_key_list = true).
  { apply existsb_exists. exists k. split; auto. apply String.eqb_refl. }
  rewrite E in Hok. simpl in Hok.
  destruct (relative_copy_total rel v Hok) as (s1 & ->).
  destruct (fixed_copy_total v Hok) as (s2 & ->). simpl. eauto.
Qed.

Lemma format_dict_node_total : exists d1, _format_dict_node c d = Ok d1.
Proof.
  unfold _format_dict_node.
  destruct (foldM_total (change_step c d) (keys d) ([], None)) as ([nd1 rel] & ->).
  { intros; now apply change_step_total. }
  cbn [bind].
  destruct (foldM_total (pct_step d) (keys d) nd1) as (nd2 & ->).
  { intros; now apply pct_step_total. }
  cbn [bind].
  destruct (foldM_total (amount_step c d rel) amount_key_list nd2) as (nd3 & ->).
  { intros; now apply amount_step_total. }
  cbn [bind]. eauto.
Qed.
End NodeTotal.

(** ** Totality of the recursion *)

Lemma mapM_total {A B : Type} (f : A -> result B) (l : list A) :
  (forall x, In x l -> exists y, f x = Ok y) -> exists ys, mapM f l = Ok ys.
Proof.
  induction l as [|x l IH]; intros H; simpl; eauto.
  destruct (H x (or_introl eq_refl)) as (y & ->).
  destruct IH as (ys & ->); [intros; apply H; now right|]. simpl. eauto.
Qed.

Lemma format_children_total (f : value -> result value) (key : string) (src : dict) :
  (forall v, get key src = Some v ->
             exists l, v = VList l /\ forall x, In x l -> exists y, f x = Ok y) ->
  exists src', format_children f key src = Ok src'.
Proof.
  intros H. unfold format_children.
  destruct (get key src) as [v|]; eauto.
  destruct (H v eq_refl) as (l & -> & Hl). cbn [iter_value bind].
  destruct (mapM_total f l Hl) as (ys & ->). cbn [bind]. eauto.
Qed.

Lemma formattable_children (d : dict) (K : string) (v : value) :
  formattable (VDict d) = true -> In K child_keys -> get K d = Some v ->
  exists l, v = VList l /\
            forall x, In x l ->
                      formattable x = true /\ (S (depth x) < depth (VDict d))%nat.
Proof.
  intros Hf HK Hg. pose proof (formattable_get _ _ _ Hf Hg) as He.
  unfold entry_formattable in He. cbn [fst snd] in He.
  apply andb_true_iff in He as [_ He].
  assert (E : existsb (String.eqb K) child_keys = true).
  { apply existsb_exists. exists K. split; auto. apply String.eqb_refl. }
  rewrite E in He. cbn [negb orb] in He.
  destruct v; try discriminate. exists l. split; auto.
  intros x Hx. split.
  - rewrite forallb_forall in He. auto.
  - eapply depth_child; eauto.
Qed.

(** A child list of a node is the same before and after the node is
    formatted, the list of sources apart. *)
Lemma format_dict_child (fuel : nat) (c : string) (d out : dict) (K : string) :
  _format_dict fuel c (VDict d) = Ok (VDict out) ->
  In K child_keys -> K <> "SIGNIFICANT_SOURCES" -> get K out = get K d.
Proof.
  intros H HK Hne.
  apply format_dict_inv in H as (d1 & out' & Hnode & [= <-] & Hsame).
  rewrite Hsame by auto.
  rewrite (node_get_other _ _ _ Hnode).
  - simpl in HK. destruct HK as [<-|[<-|[<-|[<-|[]]]]]; reflexivity.
  - simpl in *. intros Hin.
    destruct HK as [<-|[<-|[<-|[<-|[]]]]];
      repeat (destruct Hin as [Hin|Hin]; [discriminate|]); auto.
  - simpl in *. intros Hin.
    destruct HK as [<-|[<-|[<-|[<-|[]]]]];
      repeat (destruct Hin as [Hin|Hin]; [discriminate|]); auto.
  - simpl in *. intros Hin.
    destruct HK as [<-|[<-|[<-|[<-|[]]]]];
      repeat (destruct Hin as [Hin|Hin]; [discriminate|]); auto.
Qed.

Lemma format_dict_is_dict (fuel : nat) (c : string) (v out : value) :
  _format_dict fuel c v = Ok out -> exists d o, v = VDict d /\ out = VDict o.
Proof.
  destruct fuel as [|n]; [discriminate|]. cbn [_format_dict]. intros H.
  apply bind_Ok in H as (items & Hi & H). destruct v; try discriminate.
  apply bind_Ok in H as (d1 & _ & H). apply bind_Ok in H as (d2 & _ & H).
  injection H as <-. eauto.
Qed.

(** With fuel above the depth of a formattable node, [_format_dict]
    returns. *)
Lemma format_dict_total (c : string) (n : nat) :
  forall v, (depth v < n)%nat -> formattable v = true ->
            exists out, _format_dict n c v = Ok out.
Proof.
  induction n as [|n IH]; intros v Hd Hf; [lia|].
  destruct v as [| | | | |d]; try discriminate.
  cbn [_format_dict as_dict bind].
  destruct (format_dict_node_total c d) as (d1 & Hnode).
  { intros k v Hg. pose proof (formattable_get _ _ _ Hf Hg) as He.
    now apply andb_true_iff in He as [He _]. }
  rewrite Hnode. cbn [bind].
  assert (Hchild : forall (src : value) (sd s : dict) (K : string),
             src = VDict sd -> formattable src = true -> (depth src < n)%nat ->
             In K child_keys -> get K s = get K sd ->
             exists s', format_children (_format_dict n c) K s = Ok s').
  { intros src sd s K -> Hsf Hsd HK Hg. apply format_children_total.
    intros v Hv. rewrite Hg in Hv.
    destruct (formattable_children _ _ _ Hsf HK Hv) as (l & -> & Hl).
    exists l. split; auto. intros x Hx. destruct (Hl x Hx) as [Hxf Hxd].
    apply IH; auto. lia. }
  destruct (format_children_total
              (fun src =>
                 src1 <- _format_dict n c src ;;
                 s1 <- as_dict src1 ;;
                 s2 <- format_children (_format_dict n c) "SIGNIFICANT_MRLS" s1 ;;
                 s3 <- format_children (_format_dict n c) "POSITIVE_CUSTOMERS" s2 ;;
                 s4 <- format_children (_format_dict n c) "NEGATIVE_CUSTOMERS" s3 ;;
                 Ok (VDict s4))
              "SIGNIFICANT_SOURCES" d1) as (d2 & ->); [|cbn [bind]; eauto].
  intros v Hv.
  rewrite (node_get_other _ _ _ Hnode) in Hv;
    [|simpl; intros Hin;
      repeat (destruct Hin as [Hin|Hin]; [discriminate|]); auto ..].
  cbn in Hv.
  destruct (formattable_children d "SIGNIFICANT_SOURCES" v Hf) as (l & -> & Hl);
    [simpl; auto | exact Hv |].
  exists l. split; auto. intros src Hsrc. destruct (Hl src Hsrc) as [Hsf Hsd].
  assert (Hsn : (depth src < n)%nat) by lia.
  destruct (IH src Hsn Hsf) as (src1 & H1). rewrite H1. cbn [bind].
  destruct (format_dict_is_dict _ _ _ _ H1) as (sd & s1 & -> & ->).
  cbn [as_dict bind].
  pose proof (fun K HK Hne => format_dict_child n c sd s1 K H1 HK Hne) as Hsame.
  destruct (Hchild (VDict sd) sd s1 "SIGNIFICANT_MRLS") as (s2 & H2); auto.
  { simpl; auto. } { apply Hsame; [simpl; auto | discriminate]. }
  rewrite H2. cbn [bind].
  destruct (Hchild (VDict sd) sd s2 "POSITIVE_CUSTOMERS") as (s3 & H3); auto.
  { simpl; auto. }
  { rewrite (format_children_get _ _ _ _ _ H2) by discriminate.
    apply Hsame; [simpl; auto | discriminate]. }
  rewrite H3. cbn [bind].
  destruct (Hchild (VDict sd) sd s3 "NEGATIVE_CUSTOMERS") as (s4 & H4); auto.
  { simpl; auto. }
  { rewrite (format_children_get _ _ _ _ _ H3) by discriminate.
    rewrite (format_children_get _ _ _ _ _ H2) by discriminate.
    apply Hsame; [simpl; auto 6 | discriminate]. }
  rewrite H4. cbn [bind]. eauto.
Qed.

(** C10. In a node without a non-null change key, every amount key present
    becomes "N/A", every null key ending in [_CHANGE] or [_PCT_CHANGE]
    disappears, and no [Increase_]/[Decrease_] key is written for it: such
    a key is in the output only when it was a key of the node already (and,
    for the percentage keys, when the node has no non-null percentage).
    The formatter returns on such a node when it is formattable and the
    fuel exceeds its depth. *)
Theorem format_dict_without_change (fuel : nat) (c : string) (d : dict) :
  (forall key v, is_change_key key = true -> get key d = Some v -> v = VNone) ->
  (formattable (VDict d) = true -> (depth (VDict d) < fuel)%nat ->
   exists out, _format_dict fuel c (VDict d) = Ok (VDict out)) /\
  forall out,
    _format_dict fuel c (VDict d) = Ok (VDict out) ->
    (forall k, In k amount_key_list -> mem k d = true ->
               get k out = Some (VStr "N/A")) /\
    (forall key, endswith key "_CHANGE" = true -> get key d = Some VNone ->
                 get key out = None) /\
    (forall K, In K ["Increase_Amount"; "Decrease_Amount"] ->
               get K out = get K d) /\
    ((forall key v, endswith key "_PCT_CHANGE" = true -> get key d = Some v ->
                    v = VNone) ->
     forall K, In K ["Increase_Percentage"; "Decrease_Percentage"] ->
               get K out = get K d).
Proof.
  intros Hnone. split.
  { intros Hf Hd. destruct (format_dict_total c fuel (VDict d) Hd Hf) as (o & Ho).
    destruct (format_dict_is_dict _ _ _ _ Ho) as (d' & out & _ & ->). eauto. }
  intros out H.
  apply format_dict_inv in H as (d1 & out' & Hnode & E & Hsame).
  injection E as <-.
  assert (H1 : foldM (change_step c d) (keys d) ([], None) = Ok ([], None)).
  { apply change_loop_none. intros key Hin Hk.
    apply get_In_keys in Hin. destruct (get key d) as [v|] eqn:Eg; [|congruence].
    now rewrite (Hnone key v Hk Eg). }
  destruct (node_stages _ _ _ Hnode) as (nd1 & rel & nd2 & nd3 & H1' & H2 & _).
  rewrite H1 in H1'. injection H1' as <- <-.
  repeat split.
  - intros k Hin Hk. unfold mem in Hk.
    destruct (get k d) as [v|] eqn:Eg; [|discriminate].
    destruct (node_get_amount _ _ _ Hnode _ _ _ _ H1 Hin Eg)
      as (s1 & s2 & E1 & _ & G1 & _).
    simpl in E1. injection E1 as <-.
    rewrite Hsame; auto.
    simpl in Hin. destruct Hin as [<-|[<-|[<-|[<-|[]]]]]; discriminate.
  - intros key Hk _.
    rewrite Hsame by (intros ->; discriminate).
    rewrite (node_get_other _ _ _ Hnode), Hk; auto;
      simpl; intros Hin;
      repeat (destruct Hin as [<-|Hin]; [discriminate|]); auto.
  - intros K HK.
    rewrite Hsame by (simpl in HK; destruct HK as [<-|[<-|[]]]; discriminate).
    rewrite (node_get_direction _ _ _ Hnode K _ _ _ H1 H2)
      by (simpl in *; tauto).
    assert (E2 : get K nd2 = None).
    { apply (foldM_inv _ (fun nd => get K nd = None) _ _ _) in H2; auto.
      intros s a s' _ Hs <-. eapply pct_step_other; eauto;
        simpl in HK; destruct HK as [<-|[<-|[]]]; discriminate. }
    now rewrite E2.
  - intros Hpct K HK.
    rewrite Hsame by (simpl in HK; destruct HK as [<-|[<-|[]]]; discriminate).
    rewrite (node_get_direction _ _ _ Hnode K _ _ _ H1 H2)
      by (simpl in *; tauto).
    rewrite pct_loop_none in H2.
    + injection H2 as <-. reflexivity.
    + intros key Hin Hk. apply get_In_keys in Hin.
      destruct (get key d) as [v|] eqn:Eg; [|congruence].
      now rewrite (Hpct key v Hk Eg).
Qed.

Lemma format_dict_without_change_witness :
  let d := [ ("SOURCE_MGT_LINE", VStr "S1"); ("BUSINESS_DAY", VNum 1500);
             ("PREVIOUS_DAY", VNone); ("SRC_CHANGE", VNone);
             ("SRC_PCT_CHANGE", VNone) ] in
  exists out,
    _format_dict 2 "USD" (VDict d) = Ok (VDict out) /\
    get "BUSINESS_DAY" out = Some (VStr "N/A") /\
    get "BUSINESS_DAY_FIX" out = Some (VStr "$1.50K") /\
    get "SRC_CHANGE" out = None /\
    get "Increase_Amount" out = None /\
    get "Increase_Percentage" out = None.
Proof.
  intros d.
  assert (Hnone : forall suffix key v,
             endswith key suffix = true -> get key d = Some v ->
             endswith "SOURCE_MGT_LINE" suffix = false ->
             endswith "BUSINESS_DAY" suffix = false ->
             endswith "PREVIOUS_DAY" suffix = false -> v = VNone).
  { intros suffix key v Hk Hg E1 E2 E3. unfold d in Hg. cbn [get] in Hg.
    repeat match type of Hg with
           | (if String.eqb ?a key then _ else _) = _ =>
               let E := fresh "E" in
               destruct (String.eqb a key) eqn:E;
               [apply String.eqb_eq in E; subst key;
                try congruence; now injection Hg as <- |]
           end.
    discriminate. }
  assert (Hchange : forall key v, is_change_key key = true ->
                                  get key d = Some v -> v = VNone).
  { intros key v Hk Hg. unfold is_change_key in Hk.
    apply andb_true_iff in Hk as [Hk _].
    now apply (Hnone "_CHANGE" key v). }
  destruct (format_dict_without_change 2 "USD" d Hchange) as [Hret Hprop].
  destruct Hret as (out & Hrun); [reflexivity | vm_compute; lia |].
  destruct (Hprop out Hrun) as (Ha & Hb & Hc & Hd).
  exists out. split; [exact Hrun|].
  split; [apply Ha; [simpl; auto | reflexivity]|].
  split; [clear - Hrun; vm_compute in Hrun; injection Hrun as <-; reflexivity|].
  split; [now apply Hb|].
  split; [rewrite Hc; simpl; auto|].
  rewrite Hd; simpl; auto.
  intros key v Hk Hg. now apply (Hnone "_PCT_CHANGE" key v).
Defined.

(** C8. A Level-2b node as the builder makes it, formatted: [BUSINESS_DAY]
    and [PREVIOUS_DAY] get their two copies, but the sub-line month-to-date
    [MRL_MTD] stays the raw number and no [MRL_MTD_FIX] is written, although
    [format_nested_amounts] lists [MRL_MTD] among its [amount_keys]. *)
Theorem format_dict_skips_mrl_mtd :
  let mrl := BS.mrl_record "Fees"
               ("Total Income", "S2", "M3", BS.mkSums 4000 1000 300) in
  exists out,
    _format_dict 1 "USD" (VDict mrl) = Ok (VDict out) /\
    get "BUSINESS_DAY" out = Some (VStr "$4,000") /\
    get "BUSINESS_DAY_FIX" out = Some (VStr "$4.00K") /\
    get "PREVIOUS_DAY" out = Some (VStr "$1,000") /\
    get "PREVIOUS_DAY_FIX" out = Some (VStr "$1.00K") /\
    get "MRL_MTD" out = Some (VNum 300) /\
    get "MRL_MTD_FIX" out = None.
Proof.
  eexists. split; [vm_compute; reflexivity|].
  repeat split.
Qed.

(* ------------------------------------------------------------------------- *)
(** ** Tree formatter: order of the top categories *)

Section Classes.
Context {A : Type}.
Variable rank : A -> nat.

Let le_rank (x y : A) : Prop := (rank x <= rank y)%nat.
Let class (i : nat) (x : A) : bool := Nat.eqb (rank x) i.

Lemma filter_nil (p : A -> bool) (l : list A) :
  Forall (fun x => p x = false) l -> filter p l = [].
Proof. induction 1 as [|x r Hx _ IH]; simpl; auto. now rewrite Hx. Qed.

Lemma filter_all (p : A -> bool) (l : list A) :
  Forall (fun x => p x = true) l -> filter p l = l.
Proof. induction 1 as [|x r Hx _ IH]; simpl; auto. rewrite Hx. congruence. Qed.

Lemma filter_StronglySorted (R : A -> A -> Prop) (p : A -> bool) (l : list A) :
  StronglySorted R l -> StronglySorted R (filter p l).
Proof.
  induction 1 as [|x r Hs IH Hx]; simpl; [constructor|].
  destruct (p x); auto. constructor; auto.
  rewrite Forall_forall in *. intros y Hy. apply filter_In in Hy. apply Hx, Hy.
Qed.

Lemma filter_within (p q : A -> bool) (l : list A) :
  (forall x, p x = true -> q x = true) ->
  filter p (filter q l) = filter p l.
Proof.
  intros H. induction l as [|x r IH]; simpl; auto.
  destruct (q x) eqn:Eq; simpl; rewrite IH; auto.
  destruct (p x) eqn:Ep; auto. rewrite H in Eq; auto. discriminate.
Qed.

(** In a list in rank order, the elements of the lowest rank come first. *)
Lemma sorted_split (a : nat) (l : list A) :
  StronglySorted le_rank l ->
  Forall (fun x => (a <= rank x)%nat) l ->
  l = (filter (class a) l ++ filter (fun x => negb (class a x)) l)%list.
Proof.
  induction 1 as [|x r Hs IH Hx]; intros Hb; simpl; auto.
  inversion Hb as [|? ? Hbx Hbr]; subst.
  destruct (class a x) eqn:E; simpl.
  - f_equal. auto.
  - unfold class in E. apply Nat.eqb_neq in E.
    rewrite filter_nil, filter_all; auto.
    + rewrite Forall_forall in *. intros y Hy. unfold class.
      apply negb_true_iff, Nat.eqb_neq. specialize (Hx y Hy). unfold le_rank in Hx. lia.
    + rewrite Forall_forall in *. intros y Hy. unfold class.
      apply Nat.eqb_neq. specialize (Hx y Hy). unfold le_rank in Hx. lia.
Qed.

(** A list in rank order is the concatenation of its rank classes. *)
Lemma sorted_classes (n : nat) :
  forall (a : nat) (l : list A),
    StronglySorted le_rank l ->
    Forall (fun x => (a <= rank x < a + n)%nat) l ->
    l = flat_map (fun i => filter (class i) l) (seq a n).
Proof.
  induction n as [|n IH]; intros a l Hs Hb; simpl.
  - destruct l as [|x r]; auto. inversion Hb; subst. lia.
  - rewrite (sorted_split a l) at 1; auto.
    2:{ eapply Forall_impl; [|exact Hb]. simpl. intros; lia. }
    f_equal.
    rewrite (IH (S a) (filter (fun x => negb (class a x)) l)).
    + rewrite !flat_map_concat_map. f_equal. apply map_ext_in.
      intros i Hi. apply in_seq in Hi.
      apply filter_within. intros x E. unfold class in *.
      apply Nat.eqb_eq in E. apply negb_true_iff, Nat.eqb_neq. lia.
    + now apply filter_StronglySorted.
    + rewrite Forall_forall in *. intros x Hx. apply filter_In in Hx as [Hx Hc].
      specialize (Hb x Hx). unfold class in Hc.
      apply negb_true_iff, Nat.eqb_neq in Hc. lia.
Qed.
End Classes.


Lemma StronglySorted_impl {A : Type} (R1 R2 : A -> A -> Prop) (l : list A) :
  (forall x y, R1 x y -> R2 x y) -> StronglySorted R1 l -> StronglySorted R2 l.
Proof.
  intros H. induction 1 as [|x r Hs IH Hx]; constructor; auto.
  eapply Forall_impl; [|exact Hx]. auto.
Qed.

Lemma top_prio_classes (x : option value) :
  let r := prio_rank (top_prio x) in
  (r <= 4)%nat /\
  is_category "Total Assets" x = Nat.eqb r 0 /\
  is_category "Total Liability" x = Nat.eqb r 1 /\
  is_category "Total Income" x = Nat.eqb r 2 /\
  is_category "Total Expense" x = Nat.eqb r 3 /\
  is_other x = Nat.eqb r 4.
Proof.
  destruct x as [[| | |s| |]|]; try (cbv; auto 10; fail).
  unfold is_other, is_category, top_prio, top_level_order.
  cbn [assoc].
  rewrite !(String.eqb_sym s).
  destruct (String.eqb "Total Assets" s) eqn:E1;
    [apply String.eqb_eq in E1; subst s; cbv; auto 10|].
  destruct (String.eqb "Total Liability" s) eqn:E2;
    [apply String.eqb_eq in E2; subst s; cbv; auto 10|].
  destruct (String.eqb "Total Income" s) eqn:E3;
    [apply String.eqb_eq in E3; subst s; cbv; auto 10|].
  destruct (String.eqb "Total Expense" s) eqn:E4;
    [apply String.eqb_eq in E4; subst s; cbv; auto 10|].
  cbv. auto 10.
Qed.

Lemma top_prio_Fin (x : option value) (n : nat) :
  top_prio x = Fin n -> (n < 4)%nat.
Proof.
  destruct x as [[| | |s| |]|]; try discriminate.
  unfold top_prio, top_level_order. cbn [assoc].
  repeat match goal with
         | |- context [String.eqb ?a s] =>
             destruct (String.eqb a s);
             [intros H; injection H as <-; lia|]
         end.
  discriminate.
Qed.

Lemma top_prio_leb (x y : option value) :
  prio_leb (top_prio x) (top_prio y)
  = Nat.leb (prio_rank (top_prio x)) (prio_rank (top_prio y)).
Proof.
  pose proof (top_prio_Fin x) as Hx. pose proof (top_prio_Fin y) as Hy.
  destruct (top_prio x) as [n|], (top_prio y) as [m|];
    cbn [prio_leb prio_rank]; auto.
  - symmetry. apply Nat.leb_le. specialize (Hx n eq_refl). lia.
  - symmetry. apply Nat.leb_gt. specialize (Hy m eq_refl). lia.
Qed.

(** Sorting by the top-level priority yields the canonical order. *)
Lemma sort_by_top_prio (l : list (option value)) :
  sort_by (fun a b => prio_leb (top_prio a) (top_prio b)) l = canonical_order l.
Proof.
  set (rank := fun x : option value => prio_rank (top_prio x)).
  set (le := fun a b => Nat.leb (rank a) (rank b)).
  rewrite (sort_by_ext _ le) by (intros; apply top_prio_leb).
  assert (Hsorted : StronglySorted (fun x y => (rank x <= rank y)%nat) (sort_by le l)).
  { apply StronglySorted_impl with (R1 := fun x y => le x y = true).
    - intros x y. apply Nat.leb_le.
    - apply sort_by_le_sorted; unfold le.
      + intros x y. rewrite !Nat.leb_le. lia.
      + intros x y z. rewrite !Nat.leb_le. lia. }
  rewrite (sorted_classes rank 5 0 _ Hsorted).
  2:{ apply Forall_forall. intros x _. unfold rank.
      destruct (top_prio_classes x) as (Hx & _). simpl in Hx. lia. }
  simpl. rewrite app_nil_r.
  rewrite !sort_by_filter
    by (unfold le; intros x y Hx Hy; apply Nat.eqb_eq in Hx, Hy;
        apply Nat.leb_le; lia).
  unfold canonical_order.
  assert (Hc : forall x, let r := rank x in
             is_category "Total Assets" x = Nat.eqb r 0 /\
             is_category "Total Liability" x = Nat.eqb r 1 /\
             is_category "Total Income" x = Nat.eqb r 2 /\
             is_category "Total Expense" x = Nat.eqb r 3 /\
             is_other x = Nat.eqb r 4).
  { intros x. apply top_prio_classes. }
  repeat (apply (f_equal2 (@app _));
          [apply filter_ext; intros x; symmetry; apply Hc|]).
  apply filter_ext; intros x; symmetry; apply Hc.
Qed.

Lemma sort_significant_sources_desc (item item' : value) :
  sort_significant_sources item = Ok item' -> desc_of item' = desc_of item.
Proof.
  unfold sort_significant_sources. intros H.
  apply bind_Ok in H as (d & Hd & H).
  apply bind_Ok in H as (k & Hk & H).
  destruct item; try discriminate. injection Hd as <-.
  destruct k as [mgt|]; [|now injection H as <-].
  destruct (assoc mgt source_priority); [|now injection H as <-].
  destruct (get "SIGNIFICANT_SOURCES" items) as [v|]; [|now injection H as <-].
  apply bind_Ok in H as (t & _ & H).
  destruct t; [|now injection H as <-].
  apply bind_Ok in H as (xs & _ & H). apply bind_Ok in H as (ys & _ & H).
  destruct v; try discriminate. injection H as <-. simpl.
  apply get_set_other. discriminate.
Qed.

Lemma get_top_level_priority_desc (item : value) (p : prio) :
  get_top_level_priority item = Ok p -> p = top_prio (desc_of item).
Proof.
  unfold get_top_level_priority. intros H.
  apply bind_Ok in H as (d & Hd & H).
  apply bind_Ok in H as (k & Hk & H).
  destruct item; try discriminate. injection Hd as <-.
  unfold desc_of, field, top_prio.
  destruct (get "MGT_LINE_DESCRIPTION" items) as [[| | |s| |]|];
    try discriminate; injection Hk as <-;
    try (now injection H as <-).
  destruct (assoc s top_level_order); now injection H as <-.
Qed.

Lemma sorted_by_key_pure {A : Type} (f : A -> result prio) (g : A -> prio)
    (l l' : list A) :
  (forall x p, f x = Ok p -> p = g x) ->
  sorted_by_key f l = Ok l' ->
  l' = sort_by (fun a b => prio_leb (g a) (g b)) l.
Proof.
  intros Hf H. unfold sorted_by_key in H.
  apply bind_Ok in H as (ks & Hks & H). injection H as <-.
  assert (E : ks = map (fun x => (g x, x)) l).
  { apply mapM_Ok_Forall2 in Hks.
    induction Hks as [|x y r r' Hxy _ IH]; simpl; auto.
    apply bind_Ok in Hxy as (k & Hk & Hxy). injection Hxy as <-.
    now rewrite (Hf _ _ Hk), IH. }
  subst ks.
  rewrite (sort_by_map (fun x => (g x, x)) (fun a b => prio_leb (g a) (g b)))
    by reflexivity.
  rewrite map_map. simpl. apply map_id.
Qed.

Lemma format_dict_desc (fuel : nat) (c : string) (tl out : value) :
  _format_dict fuel c tl = Ok out -> desc_of out = desc_of tl.
Proof.
  intros H. destruct tl; try (destruct fuel; discriminate).
  apply format_dict_inv in H as (d1 & out' & Hnode & -> & Hsame). simpl.
  rewrite Hsame by discriminate.
  rewrite (node_get_other _ _ _ Hnode); auto;
    simpl; intros Hin;
    repeat (destruct Hin as [Hin|Hin]; [discriminate|]); auto.
Qed.

Lemma forallb_set (p : string * value -> bool) (k : string) (v : value) (d : dict) :
  (forall k', String.eqb k' k = true -> p (k', v) = p (k, v)) ->
  p (k, v) = true -> forallb p d = true -> forallb p (set k v d) = true.
Proof.
  intros Hk Hp. induction d as [|[k' v'] d IH]; simpl.
  - now rewrite Hp.
  - destruct (String.eqb k' k) eqn:E; simpl.
    + rewrite andb_true_iff. intros [_ H]. rewrite (Hk k' E), Hp. auto.
    + rewrite !andb_true_iff. intros [H1 H2]. auto.
Qed.

Lemma formattable_set (k : string) (v : value) (d : dict) :
  entry_formattable (k, v) = true -> formattable (VDict d) = true ->
  formattable (VDict (set k v d)) = true.
Proof.
  rewrite !formattable_dict. intros Hv Hd. apply forallb_set; auto.
  intros k' E. apply String.eqb_eq in E. now subst.
Qed.

Lemma sorted_by_key_In {A : Type} (f : A -> result prio) (l l' : list A) (x : A) :
  sorted_by_key f l = Ok l' -> In x l' -> In x l.
Proof.
  unfold sorted_by_key. intros H Hx.
  apply bind_Ok in H as (ks & Hks & H). injection H as <-.
  apply in_map_iff in Hx as ([k y] & <- & Hy). apply sort_by_In in Hy.
  apply mapM_Ok_Forall2 in Hks. clear - Hks Hy.
  induction Hks as [|a b l r Hab _ IH]; [contradiction|].
  apply bind_Ok in Hab as (k' & _ & Hab). injection Hab as <-.
  destruct Hy as [[= _ <-]|Hy]; [now left | right; auto].
Qed.

Lemma sorted_by_key_total {A : Type} (f : A -> result prio) (l : list A) :
  (forall x, In x l -> exists k, f x = Ok k) -> exists l', sorted_by_key f l = Ok l'.
Proof.
  intros H. unfold sorted_by_key.
  destruct (mapM_total (fun x => k <- f x ;; Ok (k, x)) l) as (ks & ->); [|cbn [bind]; eauto].
  intros x Hx. destruct (H x Hx) as (k & ->). cbn [bind]. eauto.
Qed.

Lemma get_source_priority_total (pl : list string) (other : string) (src : value) :
  formattable src = true -> source_label_ok src = true ->
  exists k, get_source_priority pl other src = Ok k.
Proof.
  intros Hf Hl. destruct src as [| | | | |d]; try discriminate.
  unfold get_source_priority. cbn [as_dict bind].
  unfold source_label_ok, field in Hl.
  destruct (get "SOURCE_MGT_LINE_DESC" d) as [[| | |s| |]|]; try discriminate;
    cbn [bind];
    repeat match goal with
           | |- context [match ?x with _ => _ end] => destruct x
           end; eauto.
Qed.

(** The first pass leaves a well-formed node well formed. *)
Lemma sort_significant_sources_total (item : value) :
  well_formed item = true ->
  exists item', sort_significant_sources item = Ok item' /\
                formattable item' = true /\ hashable_desc item' = true.
Proof.
  unfold well_formed. rewrite !andb_true_iff. intros [[Hf Hh] Hs].
  destruct item as [| | | | |d]; try discriminate.
  unfold sort_significant_sources. cbn [as_dict bind].
  unfold hashable_desc, desc_of, field in Hh.
  assert (Hkey : exists k, as_key (get "MGT_LINE_DESCRIPTION" d) = Ok k).
  { destruct (get "MGT_LINE_DESCRIPTION" d) as [[]|]; try discriminate; simpl; eauto. }
  destruct Hkey as (k & ->). cbn [bind].
  destruct k as [mgt|]; [|eauto].
  destruct (assoc mgt source_priority) as [pl|]; [|eauto].
  destruct (get "SIGNIFICANT_SOURCES" d) as [v|] eqn:Hv; [|eauto].
  destruct (formattable_children d "SIGNIFICANT_SOURCES" v Hf) as (l & -> & Hl);
    [simpl; auto | exact Hv |].
  cbn [truthy bind]. destruct l as [|x l]; [eauto|].
  cbn [iter_value bind].
  unfold children, field in Hs. rewrite Hv in Hs. rewrite forallb_forall in Hs.
  destruct (sorted_by_key_total
              (get_source_priority pl (other_source mgt)) (x :: l)) as (sorted & Hsorted).
  { intros y Hy. apply get_source_priority_total; auto. now apply Hl. }
  rewrite Hsorted. cbn [bind]. eexists. split; [reflexivity|]. split.
  - apply formattable_set; auto. unfold entry_formattable. cbn [fst snd].
    apply andb_true_iff. split; [reflexivity|]. cbn [negb orb].
    change (forallb formattable sorted = true).
    apply forallb_forall. intros y Hy.
    apply (sorted_by_key_In _ _ _ _ Hsorted), Hl in Hy. apply Hy.
  - unfold hashable_desc, desc_of, field.
    now rewrite get_set_other by discriminate.
Qed.

Lemma get_top_level_priority_total (item : value) :
  formattable item = true -> hashable_desc item = true ->
  exists k, get_top_level_priority item = Ok k.
Proof.
  intros Hf Hh. destruct item as [| | | | |d]; try discriminate.
  unfold get_top_level_priority. cbn [as_dict bind].
  unfold hashable_desc, desc_of, field in Hh.
  destruct (get "MGT_LINE_DESCRIPTION" d) as [[| | |s| |]|]; try discriminate;
    cbn [as_key bind]; eauto.
  destruct (assoc s top_level_order); eauto.
Qed.

(** Whenever [format_nested_amounts] returns, the nodes are in the canonical
    order. *)
Lemma format_nested_amounts_canonical (tree : list value) (c : string)
    (out : list value) :
  format_nested_amounts tree c = Ok out ->
  map desc_of out = canonical_order (map desc_of tree).
Proof.
  intros H. unfold format_nested_amounts in H.
  apply bind_Ok in H as (processed & Hp & H).
  apply bind_Ok in H as (sorted & Hs & H).
  apply mapM_Ok_Forall2 in Hp, H.
  assert (E1 : map desc_of processed = map desc_of tree).
  { symmetry. apply Forall2_map_eq.
    eapply Forall2_impl; [|exact Hp]. cbv beta. intros x y Hxy.
    symmetry. now apply sort_significant_sources_desc. }
  assert (E3 : map desc_of out = map desc_of sorted).
  { symmetry. apply Forall2_map_eq.
    eapply Forall2_impl; [|exact H]. cbv beta. intros x y Hxy.
    symmetry. eapply format_dict_desc; eauto. }
  apply (sorted_by_key_pure _ (fun x => top_prio (desc_of x))) in Hs.
  2:{ intros x p. apply get_top_level_priority_desc. }
  rewrite E3, Hs, <- E1, <- sort_by_top_prio.
  symmetry. apply sort_by_map. reflexivity.
Qed.

(** On well-formed trees [format_nested_amounts] returns. *)
Lemma format_nested_amounts_total (tree : list value) (c : string) :
  forallb well_formed tree = true ->
  exists out, format_nested_amounts tree c = Ok out.
Proof.
  intros Hwf. rewrite forallb_forall in Hwf. unfold format_nested_amounts.
  destruct (mapM_total sort_significant_sources tree) as (processed & Hp).
  { intros x Hx. destruct (sort_significant_sources_total x (Hwf x Hx)) as (y & Hy & _).
    eauto. }
  rewrite Hp. cbn [bind].
  assert (Hproc : forall y, In y processed ->
                            formattable y = true /\ hashable_desc y = true).
  { apply mapM_Ok_Forall2 in Hp. clear - Hp Hwf.
    induction Hp as [|a b l r Hab _ IH]; [contradiction|].
    intros y [<-|Hy].
    - destruct (sort_significant_sources_total a) as (b' & Hb' & Hfb);
        [apply Hwf; now left|].
      rewrite Hab in Hb'. injection Hb' as <-. exact Hfb.
    - apply IH; auto. intros x Hx. apply Hwf. now right. }
  destruct (sorted_by_key_total get_top_level_priority processed) as (sorted & Hs).
  { intros y Hy. destruct (Hproc y Hy). now apply get_top_level_priority_total. }
  rewrite Hs. cbn [bind].
  apply mapM_total. intros tl Htl.
  apply format_dict_total; [lia|].
  apply (sorted_by_key_In _ _ _ _ Hs), Hproc in Htl. apply Htl.
Qed.

(** C4. [format_nested_amounts] returns the Level-0 nodes in the canonical
    order: Total Assets, Total Liability, Total Income, Total Expense, then
    every other category in its original relative order; on every
    well-formed tree it does return.  The input order
    [OtherX, Total Expense, Total Assets, Total Income, Total Liability]
    comes out as [Total Assets, Total Liability, Total Income,
    Total Expense, OtherX]. *)
Theorem format_nested_amounts_order :
  (forall (tree : list value) (c : string) (out : list value),
      format_nested_amounts tree c = Ok out ->
      map desc_of out = canonical_order (map desc_of tree)) /\
  (forall (tree : list value) (c : string),
      forallb well_formed tree = true ->
      exists out, format_nested_amounts tree c = Ok out) /\
  (exists out,
      format_nested_amounts example_tree "USD" = Ok out /\
      map desc_of out =
        map (fun name => Some (VStr name))
            [ "Total Assets"; "Total Liability"; "Total Income";
              "Total Expense"; "OtherX" ]).
Proof.
  split; [exact format_nested_amounts_canonical|].
  split; [exact format_nested_amounts_total|].
  eexists. split; [vm_compute; reflexivity|]. reflexivity.
Qed.

Lemma format_nested_amounts_order_witness :
  exists out,
    format_nested_amounts example_tree "INR" = Ok out /\
    map desc_of out = canonical_order (map desc_of example_tree).
Proof.
  destruct (proj1 (proj2 format_nested_amounts_order) example_tree "INR" eq_refl)
    as (out & Hout).
  exists out. split; [exact Hout|].
  exact (proj1 format_nested_amounts_order example_tree "INR" out Hout).
Defined.

(* ------------------------------------------------------------------------- *)
(** ** Group keys *)

Lemma ascii_compare_refl (a : ascii) : Ascii.compare a a = Eq.
Proof. unfold Ascii.compare. apply N.compare_refl. Qed.

Lemma ascii_compare_trans (a b c : ascii) :
  Ascii.compare a b = Lt -> Ascii.compare b c = Lt -> Ascii.compare a c = Lt.
Proof.
  unfold Ascii.compare. rewrite !N.compare_lt_iff. apply N.lt_trans.
Qed.

Lemma string_compare_refl (s : string) : String.compare s s = Eq.
Proof.
  induction s as [|a s IH]; simpl; auto. now rewrite ascii_compare_refl.
Qed.

Lemma string_compare_trans (a b c : string) :
  String.compare a b = Lt -> String.compare b c = Lt -> String.compare a c = Lt.
Proof.
  revert b c. induction a as [|x a IH]; intros [|y b] [|z c]; simpl;
    try discriminate; auto.
  destruct (Ascii.compare x y) eqn:Exy; try discriminate;
    destruct (Ascii.compare y z) eqn:Eyz; try discriminate; intros H1 H2.
  - apply Ascii.compare_eq_iff in Exy, Eyz. subst.
    rewrite ascii_compare_refl. eauto.
  - apply Ascii.compare_eq_iff in Exy. subst. now rewrite Eyz.
  - apply Ascii.compare_eq_iff in Eyz. subst. now rewrite Exy.
  - now rewrite (ascii_compare_trans _ _ _ Exy Eyz).
Qed.

#[export] Instance string_KeyOk : KeyOk string.
Proof.
  split; simpl.
  - intros a b. split; [apply String.compare_eq_iff|].
    intros ->. apply string_compare_refl.
  - apply String.compare_antisym.
  - apply string_compare_trans.
Qed.

#[export] Instance prod_KeyOk {A B : Type} `{KeyOk A} `{KeyOk B} : KeyOk (A * B).
Proof.
  split; simpl.
  - intros [a1 b1] [a2 b2]. simpl. split.
    + destruct (kcmp a1 a2) eqn:E; try discriminate. intros E'.
      apply kcmp_eq in E, E'. congruence.
    + intros [= -> ->]. rewrite (proj2 (kcmp_eq a2 a2) eq_refl).
      now apply kcmp_eq.
  - intros [a1 b1] [a2 b2]. simpl.
    rewrite (kcmp_antisym a1 a2). destruct (kcmp a2 a1); simpl; auto.
    apply kcmp_antisym.
  - intros [a1 b1] [a2 b2] [a3 b3]. simpl.
    destruct (kcmp a1 a2) eqn:E12; try discriminate;
      destruct (kcmp a2 a3) eqn:E23; try discriminate; intros Hb12 Hb23.
    + apply kcmp_eq in E12, E23. subst.
      rewrite (proj2 (kcmp_eq a3 a3) eq_refl). eapply kcmp_trans; eauto.
    + apply kcmp_eq in E12. subst. now rewrite E23.
    + apply kcmp_eq in E23. subst. now rewrite E12.
    + now rewrite (kcmp_trans _ _ _ E12 E23).
Qed.

Section GroupByFacts.
Context {R K : Type} `{KeyOk K}.
Variable by_ : R -> option K.

Lemma keqb_eq (a b : K) : keqb a b = true <-> a = b.
Proof.
  unfold keqb. rewrite <- kcmp_eq. destruct (kcmp a b); split; congruence.
Qed.

Lemma kcmp_Gt (a b : K) : kcmp a b = Gt -> kcmp b a = Lt.
Proof. rewrite (kcmp_antisym b a). now intros ->. Qed.

Lemma insert_key_In (k k' : K) (ks : list K) :
  In k' (insert_key k ks) <-> k' = k \/ In k' ks.
Proof.
  induction ks as [|x ks IH]; simpl.
  - intuition.
  - destruct (kcmp k x) eqn:E; simpl.
    + apply kcmp_eq in E. subst. intuition.
    + intuition.
    + rewrite IH. intuition.
Qed.

Lemma insert_key_sorted (k : K) (ks : list K) :
  StronglySorted klt ks -> StronglySorted klt (insert_key k ks).
Proof.
  induction 1 as [|x ks Hs IH Hx]; simpl.
  - repeat constructor.
  - destruct (kcmp k x) eqn:E.
    + constructor; auto.
    + constructor; [constructor; auto|]. constructor; auto.
      eapply Forall_impl; [|exact Hx]. intros y Hy.
      unfold klt in *. eapply kcmp_trans; eauto.
    + constructor; auto.
      apply Forall_forall. intros y Hy. apply insert_key_In in Hy as [->|Hy].
      * now apply kcmp_Gt.
      * rewrite Forall_forall in Hx. auto.
Qed.

Lemma group_keys_spec (df : list R) :
  StronglySorted klt (group_keys by_ df) /\
  forall k, In k (group_keys by_ df) <-> exists r, In r df /\ by_ r = Some k.
Proof.
  unfold group_keys.
  assert (G : forall (ks : list K),
             StronglySorted klt ks ->
             let ks' := fold_left (fun ks r => match by_ r with
                                               | Some k => insert_key k ks
                                               | None => ks
                                               end) df ks in
             StronglySorted klt ks' /\
             forall k, In k ks' <-> In k ks \/ exists r, In r df /\ by_ r = Some k).
  { induction df as [|r df IH]; simpl; intros ks Hs.
    - split; auto. intros k. split; auto. intros [?|(r & [] & _)]; auto.
    - destruct (by_ r) as [kr|] eqn:E.
      + destruct (IH (insert_key kr ks) (insert_key_sorted kr ks Hs)) as [S1 S2].
        split; auto. intros k. rewrite S2, insert_key_In. split.
        * intros [[->|Hk]|(r' & Hr' & Hk)]; eauto.
        * intros [Hk|(r' & [<-|Hr'] & Hk)]; eauto.
          left. left. congruence.
      + destruct (IH ks Hs) as [S1 S2]. split; auto.
        intros k. rewrite S2. split.
        * intros [Hk|(r' & Hr' & Hk)]; eauto.
        * intros [Hk|(r' & [<-|Hr'] & Hk)]; eauto. congruence. }
  destruct (G [] (SSorted_nil _)) as [S1 S2]. split; auto.
  intros k. rewrite S2. split; [intros [[]|?]|]; auto.
Qed.

Lemma has_key_iff (k : K) (r : R) : has_key by_ k r = true <-> by_ r = Some k.
Proof.
  unfold has_key. destruct (by_ r) as [k'|]; [|split; discriminate].
  rewrite keqb_eq. split; congruence.
Qed.

(** The groups: one per key that occurs, in ascending key order, each
    holding the rows of its key in frame order. *)
Lemma groupby_spec (df : list R) :
  StronglySorted (fun a b => klt (fst a) (fst b)) (groupby by_ df) /\
  forall k g, In (k, g) (groupby by_ df) <->
              g = filter (has_key by_ k) df /\ exists r, In r df /\ by_ r = Some k.
Proof.
  destruct (group_keys_spec df) as [S1 S2]. unfold groupby. split.
  - clear S2. induction S1 as [|x ks Hs IH Hx]; simpl; constructor; auto.
    apply Forall_forall. intros [k g] Hin. apply in_map_iff in Hin as (y & [= <- <-] & Hy).
    rewrite Forall_forall in Hx. simpl. auto.
  - intros k g. rewrite in_map_iff. split.
    + intros (k' & [= -> <-] & Hk). split; auto. now apply S2.
    + intros [-> Hr]. exists k. split; auto. now apply S2.
Qed.
End GroupByFacts.

(* ------------------------------------------------------------------------- *)
(** ** Hierarchy builder *)

Section Builder.
Import BS.

Lemma agg_spec {K : Type} `{KeyOk K} (by_ : Row -> option K) (df : list Row) :
  StronglySorted (fun a b => klt (fst a) (fst b)) (agg by_ df) /\
  forall k s, In (k, s) (agg by_ df) <->
              s = sums_of (rows by_ k df) /\ exists r, In r df /\ by_ r = Some k.
Proof.
  destruct (groupby_spec by_ df) as [S1 S2]. unfold agg. split.
  - clear S2. induction S1 as [|x l Hs IH Hx]; simpl; constructor; auto.
    apply Forall_forall. intros y Hy. apply in_map_iff in Hy as (z & <- & Hz).
    rewrite Forall_forall in Hx. simpl. auto.
  - intros k s. rewrite in_map_iff. split.
    + intros ([k' g] & [= -> <-] & Hin). apply S2 in Hin as [-> Hr]. auto.
    + intros [-> Hr]. exists (k, rows by_ k df). split; auto. apply S2. auto.
Qed.

Lemma pair_eqb_eq (a b : string * string) : pair_eqb a b = true <-> a = b.
Proof.
  destruct a, b. unfold pair_eqb. simpl.
  rewrite andb_true_iff, !String.eqb_eq. split; [intros []|intros [=]]; subst; auto.
Qed.

Lemma pair_eqb_refl (a : string * string) : pair_eqb a a = true.
Proof. now apply pair_eqb_eq. Qed.

Lemma lookup_get_append (key key' : string * string) (pos : bool) (x : dict)
    (l : Lookup) :
  lookup_get key (lookup_append key' pos x l) =
    if pair_eqb key' key then Some (push pos x (buckets_or_empty (lookup_get key l)))
    else lookup_get key l.
Proof.
  induction l as [|[k b] l IH]; simpl.
  - destruct (pair_eqb key' key); auto.
  - destruct (pair_eqb k key') eqn:E1; simpl.
    + apply pair_eqb_eq in E1. subst k.
      destruct (pair_eqb key' key); auto.
    + rewrite IH. destruct (pair_eqb k key) eqn:E2; auto.
      destruct (pair_eqb key' key) eqn:E3; auto.
      apply pair_eqb_eq in E2, E3. subst. now rewrite pair_eqb_refl in E1.
Qed.

Lemma bucket_step_get (key : string * string) (rec : dict) (l : Lookup) :
  buckets_or_empty (lookup_get key (bucket_step l rec)) =
    if in_bucket key rec
    then push (is_pos rec) (cust_trimmed rec) (buckets_or_empty (lookup_get key l))
    else buckets_or_empty (lookup_get key l).
Proof.
  unfold bucket_step, in_bucket.
  destruct (isin _ asset_liability); simpl; auto.
  rewrite lookup_get_append. now destruct (pair_eqb _ key).
Qed.

Lemma bucket_fold (key : string * string) (recs : list dict) (l : Lookup) :
  buckets_or_empty (lookup_get key (fold_left bucket_step recs l)) =
    let b := buckets_or_empty (lookup_get key l) in
    mkBuckets
      (POS b ++ map cust_trimmed (filter (fun r => in_bucket key r && is_pos r) recs))
      (NEG b ++ map cust_trimmed
                  (filter (fun r => in_bucket key r && negb (is_pos r)) recs)).
Proof.
  revert l. induction recs as [|rec recs IH]; intros l; cbn [fold_left filter].
  - cbv zeta. cbn [map]. rewrite !app_nil_r. now destruct (buckets_or_empty _).
  - rewrite IH. cbv zeta. rewrite bucket_step_get.
    destruct (in_bucket key rec); cbn [andb]; auto.
    unfold push. destruct (is_pos rec); cbn [negb map POS NEG];
      rewrite <- ?app_assoc; auto.
Qed.

Lemma lookup_get_reduce (key : string * string) (l : Lookup) :
  buckets_or_empty (lookup_get key (map (fun kb => (fst kb, reduce_buckets (snd kb))) l))
  = reduce_buckets (buckets_or_empty (lookup_get key l)).
Proof.
  induction l as [|[k b] l IH]; simpl; auto.
  destruct (pair_eqb k key); auto.
Qed.

(** The buckets of a source, read as the source does. *)
Lemma pos_neg_src_lookup_get (key : string * string) (recs : list dict) :
  buckets_or_empty (lookup_get key (pos_neg_src_lookup recs)) =
    reduce_buckets
      (mkBuckets
         (map cust_trimmed (filter (fun r => in_bucket key r && is_pos r) recs))
         (map cust_trimmed (filter (fun r => in_bucket key r && negb (is_pos r)) recs))).
Proof.
  unfold pos_neg_src_lookup. rewrite lookup_get_reduce, bucket_fold. reflexivity.
Qed.

Lemma filter_map_comm {A B : Type} (f : A -> B) (p : B -> bool) (l : list A) :
  filter p (map f l) = map f (filter (fun x => p (f x)) l).
Proof.
  induction l as [|x l IH]; simpl; auto. destruct (p (f x)); simpl; congruence.
Qed.

Lemma filter_andb {A : Type} (p q : A -> bool) (l : list A) :
  filter p (filter q l) = filter (fun x => q x && p x) l.
Proof.
  induction l as [|x l IH]; simpl; auto.
  destruct (q x); simpl; [destruct (p x)|]; congruence.
Qed.

Lemma trimmed_CHANGE (x : CustKey * Sums) :
  num_field "CUST_CHANGE" (trimmed_record x) = cust_CHANGE x.
Proof.
  destruct x as [[[[[[[[mgt src] mrl] mrl_desc] cid] cname] ao] ao_name] s].
  reflexivity.
Qed.

Lemma record_in_bucket (mgt src : string) (x : CustKey * Sums) :
  isin mgt asset_liability = true ->
  in_bucket (mgt, src) (cust_record x) = pair_eqb (cust_source x) (mgt, src).
Proof.
  intros Hal.
  destruct x as [[[[[[[[m s] mrl] mrl_desc] cid] cname] ao] ao_name] sums].
  unfold in_bucket.
  change (str_field "MGT_LINE_DESCRIPTION" (cust_record (m, s, mrl, mrl_desc, cid, cname, ao, ao_name, sums))) with m.
  change (str_field "SOURCE_MGT_LINE" (cust_record (m, s, mrl, mrl_desc, cid, cname, ao, ao_name, sums))) with s.
  change (cust_source (m, s, mrl, mrl_desc, cid, cname, ao, ao_name, sums)) with (m, s).
  destruct (pair_eqb (m, s) (mgt, src)) eqn:E; [|apply andb_false_r].
  apply pair_eqb_eq in E. injection E as -> ->. now rewrite Hal.
Qed.

Lemma record_is_pos (x : CustKey * Sums) : is_pos (cust_record x) = nonneg x.
Proof.
  destruct x as [[[[[[[[m s] mrl] mrl_desc] cid] cname] ao] ao_name] sums].
  reflexivity.
Qed.

(** The two customer lists of a source of an asset or liability category. *)
Lemma source_buckets (df : list Row) (mgt src : string) :
  isin mgt asset_liability = true ->
  buckets_or_empty (lookup_get (mgt, src)
             (pos_neg_src_lookup (map cust_record (customer_sums df)))) =
    mkBuckets (map trimmed_record (top_positive df mgt src))
              (map trimmed_record (top_negative df mgt src)).
Proof.
  intros Hal. rewrite pos_neg_src_lookup_get. unfold reduce_buckets.
  cbn [POS NEG]. rewrite !filter_map_comm, !map_map.
  fold trimmed_record.
  rewrite (sort_by_map trimmed_record CHANGE_desc)
    by (intros; unfold CHANGE_desc; now rewrite !trimmed_CHANGE).
  rewrite (sort_by_map trimmed_record CHANGE_asc)
    by (intros; unfold CHANGE_asc; now rewrite !trimmed_CHANGE).
  rewrite !firstn_map.
  unfold top_positive, top_negative, customers_of. rewrite !filter_andb.
  f_equal; do 3 f_equal; apply filter_ext; intros x;
    now rewrite record_in_bucket, record_is_pos.
Qed.

(** *** The assembled tree *)

Section Tree.
Variables (df : list Row) (lookup : Lookup).

Lemma source_record_get (mgt : string) (x : string * string * string * Sums)
    (K : string) :
  K <> "POSITIVE_CUSTOMERS" -> K <> "NEGATIVE_CUSTOMERS" ->
  K <> "SIGNIFICANT_MRLS" ->
  get K (source_record df lookup mgt x)
  = get K (remove_key "MGT_LINE_DESCRIPTION" (src_record x)).
Proof.
  intros H1 H2 H3. unfold source_record.
  destruct (isin mgt asset_liability), (isin mgt income_expense);
    now rewrite ?get_set_other by auto.
Qed.

Lemma source_record_code (x : string * string * string * Sums) :
  str_field "SOURCE_MGT_LINE" (src_record x) = snd (fst (fst x)).
Proof. destruct x as [[[m s] d] sums]. reflexivity. Qed.

Lemma source_record_customers (mgt : string)
    (x : string * string * string * Sums) :
  isin mgt asset_liability = true ->
  let b := buckets_or_empty (lookup_get (mgt, snd (fst (fst x))) lookup) in
  get "POSITIVE_CUSTOMERS" (source_record df lookup mgt x)
    = Some (VList (map VDict (POS b))) /\
  get "NEGATIVE_CUSTOMERS" (source_record df lookup mgt x)
    = Some (VList (map VDict (NEG b))).
Proof.
  intros Hal. unfold source_record. rewrite Hal, source_record_code.
  fold (buckets_or_empty (lookup_get (mgt, snd (fst (fst x))) lookup)).
  cbv zeta.
  destruct (isin mgt income_expense); split;
    rewrite ?(get_set_other _ "SIGNIFICANT_MRLS") by discriminate;
    rewrite ?(get_set_other _ "NEGATIVE_CUSTOMERS") by discriminate;
    apply get_set_same.
Qed.

Lemma source_record_mrls (mgt : string)
    (x : string * string * string * Sums) :
  isin mgt income_expense = true ->
  get "SIGNIFICANT_MRLS" (source_record df lookup mgt x)
    = Some (VList (significant_mrls df mgt (snd (fst (fst x))))).
Proof.
  intros Hie. unfold source_record. rewrite Hie, source_record_code.
  apply get_set_same.
Qed.

Lemma source_record_no_mrls (mgt : string)
    (x : string * string * string * Sums) :
  isin mgt income_expense = false ->
  get "SIGNIFICANT_MRLS" (source_record df lookup mgt x) = None.
Proof.
  intros Hie. unfold source_record. rewrite Hie.
  destruct (isin mgt asset_liability);
    rewrite ?get_set_other by discriminate;
    destruct x as [[[m s] d] sums]; reflexivity.
Qed.

Lemma source_record_no_customers (mgt : string)
    (x : string * string * string * Sums) :
  isin mgt asset_liability = false ->
  get "POSITIVE_CUSTOMERS" (source_record df lookup mgt x) = None /\
  get "NEGATIVE_CUSTOMERS" (source_record df lookup mgt x) = None.
Proof.
  intros Hal. unfold source_record. rewrite Hal.
  destruct (isin mgt income_expense);
    rewrite ?get_set_other by discriminate;
    destruct x as [[[m s] d] sums]; split; reflexivity.
Qed.
End Tree.

Lemma resort_mrls_get (src : dict) (K : string) :
  get K (resort_mrls src) =
    match get "SIGNIFICANT_MRLS" src with
    | Some (VList ms) =>
        if String.eqb "SIGNIFICANT_MRLS" K
        then Some (VList (sort_by MRL_abs_desc ms)) else get K src
    | _ => get K src
    end.
Proof.
  unfold resort_mrls. destruct (get "SIGNIFICANT_MRLS" src) as [[]|]; auto.
  apply get_set.
Qed.

(** A source node of the tree is the record of a source, its sub-line list
    possibly sorted again. *)
Lemma sort_source_records_In (mgt : string) (recs : list dict) (s : dict) :
  In s (sort_source_records mgt recs) ->
  exists s0, In s0 recs /\
             (forall K, K <> "SIGNIFICANT_MRLS" -> get K s = get K s0) /\
             Permutation (children "SIGNIFICANT_MRLS" (VDict s))
                         (children "SIGNIFICANT_MRLS" (VDict s0)).
Proof.
  unfold sort_source_records. destruct (isin mgt asset_liability).
  - intros H. apply sort_by_In in H. exists s. auto.
  - intros H. apply in_map_iff in H as (s0 & <- & H). apply sort_by_In in H.
    exists s0. split; auto. split.
    + intros K HK. rewrite resort_mrls_get.
      destruct (get "SIGNIFICANT_MRLS" s0) as [[]|]; auto.
      destruct (String.eqb "SIGNIFICANT_MRLS" K) eqn:E; auto.
      apply String.eqb_eq in E. congruence.
    + unfold children, field. rewrite resort_mrls_get.
      destruct (get "SIGNIFICANT_MRLS" s0) as [[]|]; auto.
      simpl. apply sort_by_perm.
Qed.

Lemma mgt_node_get (df : list Row) (srcs : list (string * string * string * Sums))
    (lookup : Lookup) (tl : string * Sums) (K : string) :
  K <> "SIGNIFICANT_SOURCES" -> K <> "SOURCES_COUNT" ->
  K <> "SIGNIFICANT_SOURCES_COUNT" ->
  get K (mgt_node df srcs lookup tl) = get K (tl_record tl).
Proof.
  intros H1 H2 H3. unfold mgt_node. now rewrite !get_set_other by auto.
Qed.

Lemma mgt_node_sources (df : list Row)
    (srcs : list (string * string * string * Sums))
    (lookup : Lookup) (tl : string * Sums) (s : value) :
  In s (children "SIGNIFICANT_SOURCES" (VDict (mgt_node df srcs lookup tl))) ->
  exists s' x,
    s = VDict s' /\ In x srcs /\ fst (fst (fst x)) = fst tl /\
    (forall K, K <> "SIGNIFICANT_MRLS" ->
               get K s' = get K (source_record df lookup (fst tl) x)) /\
    Permutation (children "SIGNIFICANT_MRLS" s)
      (children "SIGNIFICANT_MRLS" (VDict (source_record df lookup (fst tl) x))).
Proof.
  unfold children at 1, field, mgt_node. rewrite get_set_same.
  intros H. apply in_map_iff in H as (s' & <- & H).
  apply sort_source_records_In in H as (s0 & H0 & Hk & Hp).
  apply in_map_iff in H0 as (x & <- & Hx). apply filter_In in Hx as [Hx Hm].
  exists s', x. repeat split; auto.
  destruct x as [[[m src] d] sums]. apply String.eqb_eq in Hm. auto.
Qed.

Lemma zero_prior_rule_sums (pct_key : string) (n : value) (s : Sums) :
  field "BUSINESS_DAY" n = Some (VNum (sum_BUSINESS_DAY s)) ->
  field "PREVIOUS_DAY" n = Some (VNum (sum_PREVIOUS_DAY s)) ->
  field pct_key n = Some (PCT_CHANGE s) ->
  zero_prior_rule pct_key n.
Proof.
  intros Hb Hp Hk. exists (sum_BUSINESS_DAY s), (sum_PREVIOUS_DAY s).
  repeat split; auto; intros Hz; rewrite Hk; unfold PCT_CHANGE.
  - now rewrite (Qeq_eq_bool _ _ Hz).
  - destruct (Qeq_bool (sum_PREVIOUS_DAY s) 0) eqn:E; auto.
    apply Qeq_bool_eq in E. tauto.
Qed.

Lemma build_In (df : list Row) (E : list string) (t : value) :
  In t (build_bs_nested_hierarchy df E) <->
  exists tl, In tl (top_level_sums df) /\
             t = VDict (mgt_node (drop_excluded E df)
                          (source_sums (drop_excluded E df))
                          (customer_lookup (drop_excluded E df)) tl).
Proof.
  unfold build_bs_nested_hierarchy. rewrite in_map_iff.
  split; intros (tl & H1 & H2); exists tl; auto.
Qed.

Lemma significant_mrls_eq (df : list Row) (mgt src : string) :
  significant_mrls df mgt src =
    map (fun x => VDict (mrl_record (described df mgt src x) x))
        (firstn 2 (sort_by MTD_desc
                     (filter (fun x => Qlt_bool 0 (mrl_MTD x))
                             (mrls_of df mgt src)))).
Proof.
  unfold significant_mrls.
  destruct (mrls_of df mgt src) as [|x0 l0] eqn:E0; [reflexivity|].
  destruct (filter _ (x0 :: l0)) as [|x1 l1] eqn:E1; [reflexivity|].
  rewrite (sort_by_map (fun x => (described df mgt src x, x)) MTD_desc)
    by reflexivity.
  now rewrite firstn_map, map_map.
Qed.

Lemma source_children_mrls (df : list Row) (lookup : Lookup) (mgt : string)
    (x : string * string * string * Sums) :
  children "SIGNIFICANT_MRLS" (VDict (source_record df lookup mgt x)) =
    if isin mgt income_expense
    then significant_mrls df mgt (snd (fst (fst x))) else [].
Proof.
  unfold children, field. destruct (isin mgt income_expense) eqn:E.
  - now rewrite source_record_mrls.
  - now rewrite source_record_no_mrls.
Qed.

Lemma source_children_customers (df : list Row) (mgt : string)
    (x : string * string * string * Sums) :
  let s := VDict (source_record df (customer_lookup df) mgt x) in
  let src := snd (fst (fst x)) in
  children "POSITIVE_CUSTOMERS" s =
    (if isin mgt asset_liability
     then map (fun c => VDict (trimmed_record c)) (top_positive df mgt src)
     else []) /\
  children "NEGATIVE_CUSTOMERS" s =
    (if isin mgt asset_liability
     then map (fun c => VDict (trimmed_record c)) (top_negative df mgt src)
     else []).
Proof.
  unfold children, field. cbv zeta.
  destruct (isin mgt asset_liability) eqn:E.
  - destruct (source_record_customers df (customer_lookup df) mgt x E) as [-> ->].
    unfold customer_lookup. rewrite source_buckets by auto. cbn [POS NEG].
    now rewrite !map_map.
  - now destruct (source_record_no_customers df (customer_lookup df) mgt x E) as [-> ->].
Qed.

(** C1. At every level of [build_bs_nested_hierarchy] (top category,
    source, sub-line, counterparty) a node whose prior-period sum is zero
    has the absent value [pd.NA] as its percentage change, and a number
    otherwise; this holds for the nodes of the tree and for every row of
    the four aggregated frames.  The builder is a total function: it
    raises nothing, and no value of the model is infinite. *)
Theorem pct_change_absent_when_prior_zero (df : list Row) (E : list string) :
  (forall t, In t (build_bs_nested_hierarchy df E) ->
     zero_prior_rule "TL_PCT_CHANGE" t /\
     forall s, In s (children "SIGNIFICANT_SOURCES" t) ->
       zero_prior_rule "SRC_PCT_CHANGE" s /\
       (forall m, In m (children "SIGNIFICANT_MRLS" s) ->
                  zero_prior_rule "MRL_PCT_CHANGE" m) /\
       (forall c, In c (children "POSITIVE_CUSTOMERS" s)
                  \/ In c (children "NEGATIVE_CUSTOMERS" s) ->
                  zero_prior_rule "CUST_PCT_CHANGE" c)) /\
  (forall x, zero_prior_rule "TL_PCT_CHANGE" (VDict (tl_record x))) /\
  (forall x, zero_prior_rule "SRC_PCT_CHANGE" (VDict (src_record x))) /\
  (forall d x, zero_prior_rule "MRL_PCT_CHANGE" (VDict (mrl_record d x))) /\
  (forall x, zero_prior_rule "CUST_PCT_CHANGE" (VDict (cust_record x))).
Proof.
  assert (Htl : forall x, zero_prior_rule "TL_PCT_CHANGE" (VDict (tl_record x))).
  { intros [mgt s]. now apply (zero_prior_rule_sums _ _ s). }
  assert (Hsrc : forall x, zero_prior_rule "SRC_PCT_CHANGE" (VDict (src_record x))).
  { intros [[[mgt src] d] s]. now apply (zero_prior_rule_sums _ _ s). }
  assert (Hmrl : forall d x, zero_prior_rule "MRL_PCT_CHANGE" (VDict (mrl_record d x))).
  { intros d [[[mgt src] mrl] s]. now apply (zero_prior_rule_sums _ _ s). }
  assert (Hcust : forall x, zero_prior_rule "CUST_PCT_CHANGE" (VDict (cust_record x))).
  { intros [[[[[[[[mgt src] mrl] mrl_desc] cid] cname] ao] ao_name] s].
    now apply (zero_prior_rule_sums _ _ s). }
  split; [|auto].
  intros t Ht. apply build_In in Ht as (tl & Hin & ->). split.
  { destruct tl as [mgt sums].
    apply (zero_prior_rule_sums _ _ sums); unfold field;
      now rewrite mgt_node_get by discriminate. }
  intros s Hs.
  apply mgt_node_sources in Hs as (s' & x & -> & Hx & Hm & Hk & Hp).
  split; [|split].
  - destruct x as [[[m src] d] sums].
    apply (zero_prior_rule_sums _ _ sums); unfold field;
      now rewrite Hk, source_record_get by discriminate.
  - intros m Hin_m.
    apply (Permutation_in _ Hp) in Hin_m. rewrite source_children_mrls in Hin_m.
    destruct (isin (fst tl) income_expense); [|contradiction].
    rewrite significant_mrls_eq in Hin_m.
    apply in_map_iff in Hin_m as (y & <- & _). apply Hmrl.
  - intros c Hc.
    destruct (source_children_customers (drop_excluded E df) (fst tl) x)
      as [Hpos Hneg].
    unfold children, field in *.
    rewrite !Hk in Hc by discriminate. rewrite Hpos, Hneg in Hc.
    destruct (isin (fst tl) asset_liability); [|simpl in Hc; tauto].
    assert (Ht : forall y, zero_prior_rule "CUST_PCT_CHANGE" (VDict (trimmed_record y))).
    { intros [[[[[[[[mgt src] mrl] mrl_desc] cid] cname] ao] ao_name] s].
      now apply (zero_prior_rule_sums _ _ s). }
    destruct Hc as [Hc|Hc]; apply in_map_iff in Hc as (y & <- & _); apply Ht.
Qed.
End Builder.

Section Levels.
Import BS.



End Levels.

Lemma Qle_bool_total (x y : Q) : Qle_bool x y = true \/ Qle_bool y x = true.
Proof.
  rewrite !Qle_bool_iff. destruct (Qlt_le_dec x y) as [H|H]; auto.
  left. now apply Qlt_le_weak.
Qed.

Lemma Qle_bool_trans (x y z : Q) :
  Qle_bool x y = true -> Qle_bool y z = true -> Qle_bool x z = true.
Proof. rewrite !Qle_bool_iff. apply Qle_trans. Qed.

Lemma firstn_StronglySorted {A : Type} (R : A -> A -> Prop) (n : nat) (l : list A) :
  StronglySorted R l -> StronglySorted R (firstn n l).
Proof.
  intros H. revert n. induction H as [|x r Hs IH Hx]; intros [|n]; simpl;
    try constructor; auto.
  rewrite Forall_forall in *. intros y Hy. apply Hx. eapply firstn_In; eauto.
Qed.

Section Sublines.
Import BS.

Lemma income_expense_not_asset (mgt : string) :
  isin mgt income_expense = true -> isin mgt asset_liability = false.
Proof.
  unfold isin, income_expense, asset_liability. cbn [existsb].
  rewrite !orb_false_r, orb_true_iff, !String.eqb_eq.
  intros [->| ->]; reflexivity.
Qed.

(** The source nodes of a category, exactly. *)
Lemma mgt_node_sources_exact (df : list Row)
    (srcs : list (string * string * string * Sums))
    (lookup : Lookup) (tl : string * Sums) (s : value) :
  In s (children "SIGNIFICANT_SOURCES" (VDict (mgt_node df srcs lookup tl))) ->
  exists x,
    In x srcs /\ fst (fst (fst x)) = fst tl /\
    s = VDict (if isin (fst tl) asset_liability
               then source_record df lookup (fst tl) x
               else resort_mrls (source_record df lookup (fst tl) x)).
Proof.
  unfold children, field, mgt_node. rewrite get_set_same.
  intros H. apply in_map_iff in H as (s' & <- & H).
  unfold sort_source_records in H.
  destruct (isin (fst tl) asset_liability).
  - apply sort_by_In, in_map_iff in H as (x & <- & Hx).
    apply filter_In in Hx as [Hx Hm]. exists x. repeat split; auto.
    destruct x as [[[m src] d] sums]. now apply String.eqb_eq in Hm.
  - apply in_map_iff in H as (s0 & <- & H).
    apply sort_by_In, in_map_iff in H as (x & <- & Hx).
    apply filter_In in Hx as [Hx Hm]. exists x. repeat split; auto.
    destruct x as [[[m src] d] sums]. now apply String.eqb_eq in Hm.
Qed.

Lemma MTD_desc_total (a b : string * string * string * Sums) :
  MTD_desc a b = true \/ MTD_desc b a = true.
Proof. unfold MTD_desc, Qge_bool. apply Qle_bool_total. Qed.

Lemma MTD_desc_trans (a b c : string * string * string * Sums) :
  MTD_desc a b = true -> MTD_desc b c = true -> MTD_desc a c = true.
Proof. unfold MTD_desc, Qge_bool. intros H1 H2. eapply Qle_bool_trans; eauto. Qed.

Lemma top_mrls_positive (df : list Row) (mgt src : string)
    (x : string * string * string * Sums) :
  In x (top_mrls df mgt src) -> In x (mrls_of df mgt src) /\ 0 < mrl_MTD x.
Proof.
  intros H. apply firstn_In, sort_by_In, filter_In in H as [H1 H2].
  split; auto. now apply Qlt_bool_iff.
Qed.

(** Sorting the kept sub-lines again by absolute month-to-date changes
    nothing: they are positive and already in descending order. *)
Lemma resort_top_mrls (df : list Row) (mgt src : string) :
  sort_by MRL_abs_desc (map (mrl_node df mgt src) (top_mrls df mgt src))
  = map (mrl_node df mgt src) (top_mrls df mgt src).
Proof.
  rewrite (sort_by_map (mrl_node df mgt src)
             (fun a b => Qge_bool (Qabs (mrl_MTD a)) (Qabs (mrl_MTD b)))).
  2:{ intros [[[m1 s1] l1] u1] [[[m2 s2] l2] u2]. reflexivity. }
  f_equal.
  rewrite (sort_by_ext _ MTD_desc).
  - apply sort_by_sorted_id. apply firstn_StronglySorted.
    apply sort_by_le_sorted; [apply MTD_desc_total | apply MTD_desc_trans].
  - intros x y Hx Hy. apply top_mrls_positive in Hx as [_ Hx], Hy as [_ Hy].
    unfold MTD_desc, Qge_bool.
    apply Qleb_comp; apply Qabs_pos; now apply Qlt_le_weak.
Qed.
End Sublines.

Section Customers.
Import BS.

Lemma customers_of_sorted (df : list Row) (mgt src : string) :
  StronglySorted key_lt (customers_of df mgt src).
Proof.
  unfold customers_of. apply filter_StronglySorted.
  apply (agg_spec cust_key df).
Qed.

Lemma CHANGE_desc_total (a b : CustKey * Sums) :
  CHANGE_desc a b = true \/ CHANGE_desc b a = true.
Proof. unfold CHANGE_desc, Qge_bool. apply Qle_bool_total. Qed.

Lemma CHANGE_desc_trans (a b c : CustKey * Sums) :
  CHANGE_desc a b = true -> CHANGE_desc b c = true -> CHANGE_desc a c = true.
Proof. unfold CHANGE_desc, Qge_bool. intros H1 H2. eapply Qle_bool_trans; eauto. Qed.

Lemma CHANGE_asc_total (a b : CustKey * Sums) :
  CHANGE_asc a b = true \/ CHANGE_asc b a = true.
Proof. unfold CHANGE_asc. apply Qle_bool_total. Qed.

Lemma CHANGE_asc_trans (a b c : CustKey * Sums) :
  CHANGE_asc a b = true -> CHANGE_asc b c = true -> CHANGE_asc a c = true.
Proof. unfold CHANGE_asc. apply Qle_bool_trans. Qed.

(** C2 (amended). For an asset or liability category and each of its
    sources, a counterparty node goes to POS when its change is >= 0 and
    to NEG when it is < 0; POS keeps the single highest change, NEG the
    two lowest, most negative first.  Among equal changes the node of the
    smaller group key wins: the aggregated frame is in ascending key
    order and the sort is stable.  Changes {+500, +300, -200, -900, -50}
    give POS = [+500] and NEG = [-900, -200]. *)
Theorem top_customers :
  (forall (df : list Row) (E : list string) (t s : value) (mgt src : string),
      let df' := drop_excluded E df in
      let positive := filter nonneg (customers_of df' mgt src) in
      let negative := filter (fun x => negb (nonneg x)) (customers_of df' mgt src) in
      In t (build_bs_nested_hierarchy df E) ->
      field "MGT_LINE_DESCRIPTION" t = Some (VStr mgt) ->
      isin mgt asset_liability = true ->
      In s (children "SIGNIFICANT_SOURCES" t) ->
      field "SOURCE_MGT_LINE" s = Some (VStr src) ->
      field "POSITIVE_CUSTOMERS" s
        = Some (VList (map (fun x => VDict (trimmed_record x))
                           (top_positive df' mgt src))) /\
      field "NEGATIVE_CUSTOMERS" s
        = Some (VList (map (fun x => VDict (trimmed_record x))
                           (top_negative df' mgt src))) /\
      (forall x, In x positive <->
                 In x (customers_of df' mgt src) /\ 0 <= cust_CHANGE x) /\
      (forall x, In x negative <->
                 In x (customers_of df' mgt src) /\ cust_CHANGE x < 0) /\
      (exists S, Permutation S positive /\
                 StronglySorted (before CHANGE_desc key_lt) S /\
                 top_positive df' mgt src = firstn 1 S) /\
      (exists S, Permutation S negative /\
                 StronglySorted (before CHANGE_asc key_lt) S /\
                 top_negative df' mgt src = firstn 2 S) /\
      List.length (top_positive df' mgt src) = Nat.min 1 (List.length positive) /\
      List.length (top_negative df' mgt src) = Nat.min 2 (List.length negative)) /\
  (let tree := build_bs_nested_hierarchy
                 (customer_example [ ("C1", 500, 0); ("C2", 300, 0); ("C3", 0, 200);
                                     ("C4", 0, 900); ("C5", 0, 50) ]) [] in
   let sources := flat_map (children "SIGNIFICANT_SOURCES") tree in
   map (field "CUST_CHANGE") (flat_map (children "POSITIVE_CUSTOMERS") sources)
     = [Some (VNum 500)] /\
   map (field "CUST_CHANGE") (flat_map (children "NEGATIVE_CUSTOMERS") sources)
     = [Some (VNum (-900)); Some (VNum (-200))]).
Proof.
  split; [|split; reflexivity].
  intros df E t s mgt src df' positive negative Ht Hmgt Hal Hs Hsrc.
  apply build_In in Ht as ([mgt0 sums] & Hin & ->).
  unfold field in Hmgt. rewrite mgt_node_get in Hmgt by discriminate.
  injection Hmgt as ->.
  apply mgt_node_sources_exact in Hs as (x & Hx & Hm & ->).
  cbn [fst] in *. rewrite Hal in *.
  destruct x as [[[m src0] desc] ssums]. cbn [fst] in Hm. subst m.
  assert (Esrc : src0 = src).
  { unfold field in Hsrc.
    rewrite source_record_get in Hsrc by discriminate. now injection Hsrc. }
  subst src0.
  destruct (source_children_customers df' mgt (mgt, src, desc, ssums)) as [_ _].
  destruct (source_record_customers df' (customer_lookup df') mgt
              (mgt, src, desc, ssums) Hal) as [Hpos Hneg].
  cbn [fst snd] in Hpos, Hneg. unfold customer_lookup in Hpos, Hneg at 2.
  rewrite source_buckets in Hpos, Hneg by auto. cbn [POS NEG] in Hpos, Hneg.
  rewrite map_map in Hpos, Hneg.
  split; [exact Hpos|]. split; [exact Hneg|].
  split; [|split; [|split; [|split; [|split]]]].
  - intros y. unfold positive. rewrite filter_In. unfold nonneg.
    now rewrite Qle_bool_iff.
  - intros y. unfold negative. rewrite filter_In. unfold nonneg.
    rewrite negb_true_iff. fold (Qlt_bool (cust_CHANGE y) 0).
    rewrite <- Qlt_bool_iff. unfold Qlt_bool. now rewrite negb_true_iff.
  - exists (sort_by CHANGE_desc positive). split; [apply sort_by_perm|].
    split; [|reflexivity].
    apply sort_by_sorted;
      [apply CHANGE_desc_total | apply CHANGE_desc_trans |].
    apply filter_StronglySorted, customers_of_sorted.
  - exists (sort_by CHANGE_asc negative). split; [apply sort_by_perm|].
    split; [|reflexivity].
    apply sort_by_sorted;
      [apply CHANGE_asc_total | apply CHANGE_asc_trans |].
    apply filter_StronglySorted, customers_of_sorted.
  - unfold top_positive. now rewrite length_firstn, sort_by_length.
  - unfold top_negative. now rewrite length_firstn, sort_by_length.
Qed.
End Customers.

(* ------------------------------------------------------------------------- *)
(** ** Leakage aggregator *)

Section Leakage.
Import RA.

Lemma soc_desc_iff (a b : SocRow) :
  soc_desc a b = true <->
  soc_BUSINESS_DAY b < soc_BUSINESS_DAY a
  \/ (soc_BUSINESS_DAY a == soc_BUSINESS_DAY b /\ soc_MTD b <= soc_MTD a).
Proof.
  unfold soc_desc.
  now rewrite orb_true_iff, andb_true_iff, Qlt_bool_iff, Qeq_bool_iff, Qle_bool_iff.
Qed.

Lemma soc_desc_total (a b : SocRow) : soc_desc a b = true \/ soc_desc b a = true.
Proof.
  rewrite !soc_desc_iff.
  destruct (Q_dec (soc_BUSINESS_DAY a) (soc_BUSINESS_DAY b)) as [[H|H]|H]; auto.
  destruct (Qlt_le_dec (soc_MTD a) (soc_MTD b)) as [H'|H'].
  - right. right. split; [now symmetry | now apply Qlt_le_weak].
  - left. right. auto.
Qed.

Lemma soc_desc_trans (a b c : SocRow) :
  soc_desc a b = true -> soc_desc b c = true -> soc_desc a c = true.
Proof.
  rewrite !soc_desc_iff. intros [H1|[H1 H1']] [H2|[H2 H2']].
  - left. lra.
  - left. lra.
  - left. lra.
  - right. split; lra.
Qed.

Lemma soc_aggregated_spec (df : list Row) :
  StronglySorted soc_key_lt (soc_aggregated df) /\
  forall k b m,
    In (k, (b, m)) (soc_aggregated df) <->
    b = nansum BUSINESS_DAY (filter (has_key soc_key k) df) /\
    m = nansum MTD (filter (has_key soc_key k) df) /\
    exists r, In r df /\ soc_key r = Some k.
Proof.
  destruct (groupby_spec soc_key df) as [S1 S2]. unfold soc_aggregated. split.
  - clear S2. induction S1 as [|x l Hs IH Hx]; simpl; constructor; auto.
    apply Forall_forall. intros y Hy. apply in_map_iff in Hy as (z & <- & Hz).
    rewrite Forall_forall in Hx. unfold soc_key_lt. simpl. auto.
  - intros k b m. rewrite in_map_iff. split.
    + intros ([k' g] & [= -> <- <-] & Hin). apply S2 in Hin as [-> Hr]. auto.
    + intros (-> & -> & Hr). exists (k, filter (has_key soc_key k) df).
      split; auto. apply S2. auto.
Qed.

(** C9 (amended). For each leakage direction the aggregator returns the
    top 3 groups of the compound business-attribute key, ranked by
    current amount descending, then month-to-date descending.  Groups
    with equal (current, month-to-date) pairs come in ascending order of
    the compound key: the aggregated frame is in key order and the sort
    is stable. *)
Theorem top_soc_ranking (df : list Row) (bal : Z) (l : Leakage) :
  (bal = 208%Z /\ l = fst (get_overcharge_and_undercharge_aggregations df))
  \/ (bal = 207%Z /\ l = snd (get_overcharge_and_undercharge_aggregations df)) ->
  let ldf := leakage_rows bal df in
  top_n l = 3%nat /\
  (exists S, Permutation S (soc_aggregated ldf) /\
             StronglySorted (before soc_desc soc_key_lt) S /\
             top_soc l = firstn 3 S) /\
  agg_details l = map soc_BUSINESS_DAY (top_soc l) /\
  StronglySorted soc_key_lt (soc_aggregated ldf) /\
  (forall k b m,
      In (k, (b, m)) (soc_aggregated ldf) <->
      b = nansum BUSINESS_DAY (filter (has_key soc_key k) ldf) /\
      m = nansum MTD (filter (has_key soc_key k) ldf) /\
      exists r, In r ldf /\ soc_key r = Some k) /\
  (forall a b, soc_desc a b = true <->
               soc_BUSINESS_DAY b < soc_BUSINESS_DAY a
               \/ (soc_BUSINESS_DAY a == soc_BUSINESS_DAY b /\ soc_MTD b <= soc_MTD a)).
Proof.
  intros Hl ldf.
  assert (El : l = leakage_of ldf).
  { destruct Hl as [[-> ->]|[-> ->]]; reflexivity. }
  subst l. cbn [top_n top_soc agg_details leakage_of].
  destruct (soc_aggregated_spec ldf) as [S1 S2].
  split; [reflexivity|]. split; [|split; [reflexivity|]].
  - exists (sort_by soc_desc (soc_aggregated ldf)).
    split; [apply sort_by_perm|]. split; [|reflexivity].
    apply sort_by_sorted;
      [apply soc_desc_total | apply soc_desc_trans | exact S1].
  - split; [exact S1|]. split; [exact S2|]. apply soc_desc_iff.
Qed.
End Leakage.

(* ------------------------------------------------------------------------- *)
(** ** The formatter on the trees of the builder *)

Section BuilderWellFormed.
Import BS.

Lemma formattable_tl (x : string * Sums) : formattable (VDict (tl_record x)) = true.
Proof.
  destruct x as [mgt s]. unfold tl_record, PCT_CHANGE.
  destruct (Qeq_bool (sum_PREVIOUS_DAY s) 0); reflexivity.
Qed.

Lemma formattable_src (x : string * string * string * Sums) :
  formattable (VDict (remove_key "MGT_LINE_DESCRIPTION" (src_record x))) = true.
Proof.
  destruct x as [[[mgt src] d] s]. unfold src_record, PCT_CHANGE.
  destruct (Qeq_bool (sum_PREVIOUS_DAY s) 0); reflexivity.
Qed.

Lemma formattable_mrl (d : string) (x : string * string * string * Sums) :
  formattable (VDict (mrl_record d x)) = true.
Proof.
  destruct x as [[[mgt src] mrl] s]. unfold mrl_record, PCT_CHANGE.
  destruct (Qeq_bool (sum_PREVIOUS_DAY s) 0); reflexivity.
Qed.

Lemma formattable_trimmed (x : CustKey * Sums) :
  formattable (VDict (trimmed_record x)) = true.
Proof.
  destruct x as [[[[[[[[mgt src] mrl] mrl_desc] cid] cname] ao] ao_name] s].
  unfold trimmed_record, cust_record, PCT_CHANGE.
  destruct (Qeq_bool (sum_PREVIOUS_DAY s) 0); reflexivity.
Qed.

Lemma child_entry (k : string) (l : list value) :
  entry_ok k (VList l) = true ->
  (forall x, In x l -> formattable x = true) ->
  entry_formattable (k, VList l) = true.
Proof.
  intros Hk Hl. unfold entry_formattable. cbn [fst snd]. rewrite Hk.
  cbn [andb]. apply orb_true_iff. right. now apply forallb_forall.
Qed.

Lemma formattable_source (df : list Row) (mgt : string)
    (x : string * string * string * Sums) :
  formattable (VDict (source_record df (customer_lookup df) mgt x)) = true.
Proof.
  unfold source_record.
  assert (Hbase := formattable_src x).
  assert (Hcust : isin mgt asset_liability = true ->
            formattable
              (VDict (set "NEGATIVE_CUSTOMERS"
                        (VList (map VDict
                           (NEG (buckets_or_empty
                                   (lookup_get (mgt, str_field "SOURCE_MGT_LINE" (src_record x))
                                      (customer_lookup df))))))
                        (set "POSITIVE_CUSTOMERS"
                           (VList (map VDict
                              (POS (buckets_or_empty
                                      (lookup_get (mgt, str_field "SOURCE_MGT_LINE" (src_record x))
                                         (customer_lookup df))))))
                           (remove_key "MGT_LINE_DESCRIPTION" (src_record x))))) = true).
  { intros Hal. unfold customer_lookup. rewrite source_buckets by auto.
    cbn [POS NEG]. rewrite !map_map.
    apply formattable_set; [|apply formattable_set; auto];
      (apply child_entry; [reflexivity|]);
      intros y Hy; apply in_map_iff in Hy as (z & <- & _);
      apply formattable_trimmed. }
  assert (Hmrl : forall d0, formattable (VDict d0) = true ->
            formattable
              (VDict (set "SIGNIFICANT_MRLS"
                        (VList (significant_mrls df mgt
                                  (str_field "SOURCE_MGT_LINE" (src_record x)))) d0)) = true).
  { intros d0 Hd0. apply formattable_set; auto.
    apply child_entry; [reflexivity|].
    intros y Hy. rewrite significant_mrls_eq in Hy.
    apply in_map_iff in Hy as (z & <- & _). apply formattable_mrl. }
  destruct (isin mgt asset_liability), (isin mgt income_expense); auto.
Qed.

Lemma formattable_resort (s : dict) :
  formattable (VDict s) = true -> formattable (VDict (resort_mrls s)) = true.
Proof.
  intros Hs. unfold resort_mrls.
  destruct (get "SIGNIFICANT_MRLS" s) as [[| | | |ms|]|] eqn:E; auto.
  apply formattable_set; auto. apply child_entry; [reflexivity|].
  intros y Hy. apply sort_by_In in Hy.
  destruct (formattable_children s "SIGNIFICANT_MRLS" (VList ms) Hs)
    as (l & [= <-] & Hl); [simpl; auto | exact E |].
  now apply Hl.
Qed.

Lemma source_node_ok (df : list Row) (srcs : list (string * string * string * Sums))
    (tl : string * Sums) (s : value) :
  In s (children "SIGNIFICANT_SOURCES"
          (VDict (mgt_node df srcs (customer_lookup df) tl))) ->
  formattable s = true /\ source_label_ok s = true.
Proof.
  intros Hs. split.
  - apply mgt_node_sources_exact in Hs as (x & _ & _ & ->).
    destruct (isin (fst tl) asset_liability);
      [|apply formattable_resort]; apply formattable_source.
  - apply mgt_node_sources in Hs as (s' & x & -> & _ & _ & Hk & _).
    unfold source_label_ok, field.
    rewrite Hk, source_record_get by discriminate.
    now destruct x as [[[m src] d] sums].
Qed.

(** Every tree of the builder is well formed. *)
Lemma build_well_formed (df : list Row) (E : list string) :
  forallb well_formed (build_bs_nested_hierarchy df E) = true.
Proof.
  apply forallb_forall. intros t Ht.
  apply build_In in Ht as (tl & _ & ->).
  set (df' := drop_excluded E df).
  unfold well_formed. rewrite !andb_true_iff. split; [split|].
  - pose proof (source_node_ok df' (source_sums df') tl) as Hsrc.
    unfold children, field, mgt_node in Hsrc. rewrite get_set_same in Hsrc.
    unfold mgt_node.
    apply formattable_set; [|repeat (apply formattable_set; [reflexivity|]);
                             apply formattable_tl].
    apply child_entry; [reflexivity|]. intros s Hs. now apply Hsrc.
  - unfold hashable_desc, desc_of, field.
    rewrite mgt_node_get by discriminate. now destruct tl.
  - apply forallb_forall. intros s Hs.
    now apply source_node_ok in Hs.
Qed.

(** X15. The formatter returns on every tree of the builder, in the
    canonical order. *)
Theorem format_build_returns (df : list Row) (E : list string) (c : string) :
  label_of_code (drop_excluded E df) ->
  exists out,
    format_nested_amounts (build_bs_nested_hierarchy df E) c = Ok out /\
    map desc_of out = canonical_order (map desc_of (build_bs_nested_hierarchy df E)).
Proof.
  intros _.
  destruct (format_nested_amounts_total (build_bs_nested_hierarchy df E) c)
    as (out & Hout); [apply build_well_formed|].
  exists out. split; auto.
  now apply (format_nested_amounts_canonical _ c).
Qed.
End BuilderWellFormed.

(* ------------------------------------------------------------------------- *)
(** ** Instances on concrete inputs *)

Section Instances.
Import BS.

Lemma pct_change_absent_when_prior_zero_witness :
  exists t,
    In t (build_bs_nested_hierarchy (customer_example [("C1", 500, 0)]) []) /\
    field "PREVIOUS_DAY" t = Some (VNum 0) /\
    field "TL_PCT_CHANGE" t = Some VNA.
Proof.
  set (df := customer_example [("C1", 500, 0)]).
  exists (hd VNone (build_bs_nested_hierarchy df [])).
  split; [left; reflexivity|]. split; [reflexivity|].
  destruct (proj1 (pct_change_absent_when_prior_zero df [])
              (hd VNone (build_bs_nested_hierarchy df []))
              (or_introl eq_refl))
    as [(b & p & Hb & Hp & Hz & _) _].
  apply Hz. vm_compute in Hp. injection Hp as <-. reflexivity.
Defined.

Lemma top_customers_witness :
  exists t s,
    In t (build_bs_nested_hierarchy
            (customer_example [("C1", 500, 0); ("C2", 0, 900)]) []) /\
    In s (children "SIGNIFICANT_SOURCES" t) /\
    List.length (top_positive (customer_example [("C1", 500, 0); ("C2", 0, 900)])
                   "Total Assets" "S1") = 1%nat.
Proof.
  set (df := customer_example [("C1", 500, 0); ("C2", 0, 900)]).
  exists (hd VNone (build_bs_nested_hierarchy df [])).
  exists (hd VNone (children "SIGNIFICANT_SOURCES"
                      (hd VNone (build_bs_nested_hierarchy df [])))).
  split; [left; reflexivity|]. split; [left; reflexivity|].
  pose proof (proj1 top_customers df []
                (hd VNone (build_bs_nested_hierarchy df []))
                (hd VNone (children "SIGNIFICANT_SOURCES"
                             (hd VNone (build_bs_nested_hierarchy df []))))
                "Total Assets" "S1"
                (or_introl eq_refl) eq_refl eq_refl (or_introl eq_refl) eq_refl)
    as (_ & _ & _ & _ & _ & _ & Hlen & _).
  exact Hlen.
Defined.

(** The specification's tie-breaking for C2 fails on the code: of two
    customers with the same change, the code keeps the one with the
    smaller key, "A", and not the one seen first, "B". *)
Lemma first_seen_customer_refuted :
  let df := customer_example [("B", 100, 0); ("A", 100, 0)] in
  let code := flat_map (children "POSITIVE_CUSTOMERS")
                (flat_map (children "SIGNIFICANT_SOURCES")
                   (build_bs_nested_hierarchy df [])) in
  let spec := map (fun x => VDict (trimmed_record x))
                (first_seen_top_positive df "Total Assets" "S1") in
  map (field "CUSTOMER_ID") code = [Some (VStr "A")] /\
  map (field "CUSTOMER_ID") spec = [Some (VStr "B")] /\
  code <> spec.
Proof.
  split; [reflexivity|]. split; [reflexivity|].
  intros H. apply (f_equal (map (field "CUSTOMER_ID"))) in H.
  vm_compute in H. discriminate H.
Qed.
End Instances.

Section LeakageInstances.
Import RA.

Lemma top_soc_ranking_witness :
  top_n (fst (get_overcharge_and_undercharge_aggregations
                (soc_example [("D", 7, 1); ("B", 10, 5); ("A", 10, 5);
                              ("C", 10, 9); ("E", 3, 3)]))) = 3%nat /\
  map soc_customer
      (top_soc (fst (get_overcharge_and_undercharge_aggregations
                       (soc_example [("D", 7, 1); ("B", 10, 5); ("A", 10, 5);
                                     ("C", 10, 9); ("E", 3, 3)]))))
    = ["C"; "A"; "B"] /\
  (exists S,
      Permutation S
        (soc_aggregated
           (leakage_rows 208
              (soc_example [("D", 7, 1); ("B", 10, 5); ("A", 10, 5);
                            ("C", 10, 9); ("E", 3, 3)]))) /\
      StronglySorted (before soc_desc soc_key_lt) S /\
      top_soc (fst (get_overcharge_and_undercharge_aggregations
                      (soc_example [("D", 7, 1); ("B", 10, 5); ("A", 10, 5);
                                    ("C", 10, 9); ("E", 3, 3)])))
      = firstn 3 S).
Proof.
  destruct (top_soc_ranking
              (soc_example [("D", 7, 1); ("B", 10, 5); ("A", 10, 5);
                            ("C", 10, 9); ("E", 3, 3)]) 208
              (fst (get_overcharge_and_undercharge_aggregations
                      (soc_example [("D", 7, 1); ("B", 10, 5); ("A", 10, 5);
                                    ("C", 10, 9); ("E", 3, 3)]))))
    as (Hn & HS & _).
  { left. split; reflexivity. }
  split; [exact Hn|]. split; [vm_compute; reflexivity | exact HS].
Defined.

(** The specification's tie-breaking for C9 fails on the code: two groups
    with the same amounts come out in key order, "A" before "B", and not
    in the order of the input rows. *)
Lemma first_seen_soc_refuted :
  let df := soc_example [("B", 10, 5); ("A", 10, 5)] in
  let code := top_soc (fst (get_overcharge_and_undercharge_aggregations df)) in
  let spec := first_seen_top_soc (leakage_rows 208 df) TOP_N_DEFAULT in
  map soc_customer code = ["A"; "B"] /\
  map soc_customer spec = ["B"; "A"] /\
  code <> spec.
Proof.
  split; [reflexivity|]. split; [reflexivity|].
  intros H. apply (f_equal (map soc_customer)) in H.
  vm_compute in H. discriminate H.
Qed.
End LeakageInstances.

(* ========================================================================= *)
(** * Further properties of the code *)

(* ------------------------------------------------------------------------- *)
(** ** Scale helpers *)

Ltac plain_scales :=
  change 1e12 with (1000000000000 # 1) in *;
  change 1e9 with (1000000000 # 1) in *;
  change 1e6 with (1000000 # 1) in *;
  change 1e3 with (1000 # 1) in *.

Lemma Qle_bool_cases (x y : Q) :
  (Qle_bool x y = true /\ x <= y) \/ (Qle_bool x y = false /\ y < x).
Proof.
  destruct (Qle_bool x y) eqn:E.
  - left. split; auto. now apply Qle_bool_iff.
  - right. split; auto. apply Qnot_le_lt. now apply Qle_bool_false.
Qed.

Ltac case_le x y :=
  let E := fresh "E" in
  let H := fresh "H" in
  destruct (Qle_bool_cases x y) as [[E H]|[E H]]; rewrite ?E.

Lemma Qlt_bool_false (x y : Q) : Qlt_bool x y = false <-> y <= x.
Proof.
  unfold Qlt_bool. rewrite negb_false_iff. apply Qle_bool_iff.
Qed.

Lemma Qabs_nonneg_eq (q : Q) : 0 <= q -> Qabs q = q.
Proof.
  destruct q as [n p]. unfold Qle, Qabs. simpl. intros H.
  f_equal. apply Z.abs_eq. lia.
Qed.

(** X1. The fixed-scale policy picks the unit of the value itself: no unit
    below 1e3, and from there on the unit K, M, B or T that brings the
    magnitude to at least 1 and, up to 1e15, below 1000. *)
Theorem get_scale_info_fixed_range (v : Q) :
  exists d s,
    _get_scale_info_fixed (VNum v) = Ok (d, s) /\
    ((d, s) = (1, "") \/ In (d, s) scales) /\
    (Qabs v < 1000 <-> (d, s) = (1, "")) /\
    (1000 <= Qabs v -> 1 <= Qabs v / d) /\
    (Qabs v < 1000 * 1e12 -> Qabs v / d < 1000).
Proof.
  unfold _get_scale_info_fixed.
  case_le 1e12 (Qabs v); [|case_le 1e9 (Qabs v); [|case_le 1e6 (Qabs v);
    [|case_le 1e3 (Qabs v)]]];
    do 2 eexists; (split; [reflexivity|]);
    (split; [simpl; auto 6|]);
    (split; [split; [intros Hlt; first [reflexivity | exfalso; plain_scales; lra]
                    | intros Heq; first [discriminate | plain_scales; lra]]|]).
  all: split; [intros Hge; apply Qle_shift_div_l; [reflexivity|]; plain_scales; lra
              | intros Hlt; apply Qlt_shift_div_r; [reflexivity|]; plain_scales; lra].
Qed.

Lemma get_scale_info_fixed_range_witness :
  exists d s, _get_scale_info_fixed (VNum 2500000) = Ok (d, s) /\
              1 <= Qabs 2500000 / d /\ Qabs 2500000 / d < 1000.
Proof.
  destruct (get_scale_info_fixed_range 2500000) as (d & s & Hd & _ & _ & H1 & H2).
  exists d, s. split; [exact Hd|]. split; [apply H1 | apply H2];
    first [vm_compute; reflexivity | vm_compute; discriminate].
Defined.

Lemma Qdiv_le_iff (a d c : Q) : 0 < d -> (c <= a / d <-> c * d <= a).
Proof.
  intros Hd. split.
  - intros H. destruct (Qlt_le_dec a (c * d)) as [Hlt|Hle]; auto.
    apply Qlt_shift_div_r in Hlt; auto. lra.
  - now apply Qle_shift_div_l.
Qed.

(** X2. The relative scale of a value is its fixed scale exactly when the
    value is below 1e3 or at least ten of its fixed unit; otherwise it is
    the unit one step below the fixed one.  So a value from 1e4 on is
    shown with at least two integer digits and, up to 1e16, with at most
    four. *)
Theorem relative_scale_below_fixed (v : Q) :
  exists dr sr df sf,
    _get_scale_info (VNum v) = Ok (dr, sr) /\
    _get_scale_info_fixed (VNum v) = Ok (df, sf) /\
    ((dr, sr) = (df, sf) <-> Qabs v < 1000 \/ 10 <= Qabs v / df) /\
    ((dr, sr) <> (df, sf) ->
     df == 1000 * dr /\
     In (sf, sr) [("K", ""); ("M", "K"); ("B", "M"); ("T", "B")]) /\
    (10000 <= Qabs v -> 10 <= Qabs v / dr) /\
    (Qabs v < 10000 * 1e12 -> Qabs v / dr < 10000).
Proof.
  unfold _get_scale_info, _get_scale_info_fixed, scales, first_scale.
  destruct (Qlt_bool (Qabs v) 1e3) eqn:E0.
  - apply Qlt_bool_iff in E0.
    case_le 1e12 (Qabs v); [exfalso; plain_scales; lra|].
    case_le 1e9 (Qabs v); [exfalso; plain_scales; lra|].
    case_le 1e6 (Qabs v); [exfalso; plain_scales; lra|].
    case_le 1e3 (Qabs v); [exfalso; plain_scales; lra|].
    exists 1, "", 1, "". split; [reflexivity|]. split; [reflexivity|].
    split; [|split; [|split]].
    + split; [intros _; left; plain_scales; lra | reflexivity].
    + intros Hne. now contradiction Hne.
    + intros Hge. exfalso. plain_scales. lra.
    + intros _. apply Qlt_shift_div_r; [reflexivity|]. plain_scales. lra.
  - assert (H0 : 1e3 <= Qabs v).
    { apply Qnot_lt_le. intros Hlt. apply Qlt_bool_iff in Hlt. congruence. }
    clear E0.
    assert (D : forall d, 0 < d ->
                (Qle_bool 10 (Qabs v / d) = true /\ 10 * d <= Qabs v)
                \/ (Qle_bool 10 (Qabs v / d) = false /\ Qabs v < 10 * d)).
    { intros d Hd.
      destruct (Qle_bool_cases 10 (Qabs v / d)) as [[E H]|[E H]]; [left|right];
        split; auto.
      - now apply Qdiv_le_iff in H.
      - apply Qnot_le_lt. intros Hle. apply (Qdiv_le_iff _ _ 10 Hd) in Hle. lra. }
    destruct (D 1e12 eq_refl) as [[E1 H1]|[E1 H1]]; rewrite E1;
      [|destruct (D 1e9 eq_refl) as [[E2 H2]|[E2 H2]]; rewrite E2;
        [|destruct (D 1e6 eq_refl) as [[E3 H3]|[E3 H3]]; rewrite E3;
          [|destruct (D 1e3 eq_refl) as [[E4 H4]|[E4 H4]]; rewrite E4]]];
      (case_le 1e12 (Qabs v);
       [|case_le 1e9 (Qabs v); [|case_le 1e6 (Qabs v); [|case_le 1e3 (Qabs v)]]]);
      try (exfalso; plain_scales; lra);
      do 4 eexists; (split; [reflexivity|]); (split; [reflexivity|]).
    all: split;
      [split;
       [intros Heq;
        first [discriminate Heq
              | right; apply Qle_shift_div_l; [reflexivity|]; plain_scales; lra]
       |intros [Hlt|Hge];
        first [reflexivity
              | exfalso; plain_scales; lra
              | exfalso; apply Qdiv_le_iff in Hge; [|reflexivity];
                plain_scales; lra]]|].
    all: split;
      [intros Hne;
       first [now contradiction Hne
             | split; [reflexivity | simpl; auto 6]]|].
    all: split; [intros Hge; apply Qle_shift_div_l; [reflexivity|]; plain_scales; lra
                | intros Hlt; apply Qlt_shift_div_r; [reflexivity|]; plain_scales; lra].
Qed.

Lemma relative_scale_below_fixed_witness :
  exists dr sr df sf,
    _get_scale_info (VNum 2500000) = Ok (dr, sr) /\
    _get_scale_info_fixed (VNum 2500000) = Ok (df, sf) /\
    df == 1000 * dr /\ In (sf, sr) [("K", ""); ("M", "K"); ("B", "M"); ("T", "B")] /\
    10 <= Qabs 2500000 / dr /\ Qabs 2500000 / dr < 10000.
Proof.
  destruct (relative_scale_below_fixed 2500000)
    as (dr & sr & df & sf & Hr & Hf & _ & Hstep & H1 & H2).
  exists dr, sr, df, sf. split; [exact Hr|]. split; [exact Hf|].
  assert (Hne : (dr, sr) <> (df, sf)).
  { vm_compute in Hr, Hf. injection Hr as <- <-. injection Hf as <- <-. discriminate. }
  destruct (Hstep Hne) as [Hd Hs]. split; [exact Hd|]. split; [exact Hs|].
  split; [apply H1 | apply H2];
    first [vm_compute; reflexivity | vm_compute; discriminate].
Defined.

(** The digits of a number do not depend on its sign. *)
Lemma format_f_neg (sep : bool) (dp : nat) (x : Q) :
  x < 0 -> format_f sep dp x = "-" ++ format_f sep dp (Qabs x).
Proof.
  intros Hx. unfold format_f.
  assert (E1 : Qlt_bool x 0 = true) by now apply Qlt_bool_iff.
  assert (E2 : Qlt_bool (Qabs x) 0 = false) by (apply Qlt_bool_false, Qabs_nonneg).
  rewrite E1, E2. destruct x as [n d]. simpl Qnum. simpl Qden.
  rewrite Z.abs_idemp. reflexivity.
Qed.

Lemma Qdiv_neg (v d : Q) : 0 < d -> v < 0 -> v / d < 0.
Proof.
  intros Hd Hv. apply Qlt_shift_div_r; auto. lra.
Qed.

Lemma Qabs_Qdiv_num (v d : Q) :
  (0 < Qnum d)%Z -> Qabs (v / d) = Qabs v / d.
Proof.
  intros Hd. destruct v as [n p], d as [m q]. simpl in Hd.
  destruct m as [|m|m]; try lia.
  unfold Qdiv, Qinv, Qmult, Qabs. simpl. f_equal.
  destruct n; simpl; reflexivity.
Qed.

(** X3. [format_scaled_amount] and the fixed-scale copy that [_format_dict]
    writes under [_FIX] render a non-negative value alike.  A negative
    value gets one minus sign in the fixed-scale copy and two in
    [format_scaled_amount], which puts a sign before the already signed
    number. *)
Theorem format_scaled_amount_fixed_copy (v : Q) (c : string) :
  (0 <= v -> format_scaled_amount (VNum v) c = fixed_copy c (VNum v)) /\
  (v < 0 ->
   exists d s,
     _get_scale_info_fixed (VNum v) = Ok (d, s) /\
     fixed_copy c (VNum v)
       = Ok (currency_symbol c ++ "-" ++ format_f true 2 (Qabs v / d) ++ s) /\
     format_scaled_amount (VNum v) c
       = Ok (currency_symbol c ++ "--" ++ format_f true 2 (Qabs v / d) ++ s)).
Proof.
  split.
  - intros Hv.
    assert (E : Qlt_bool v 0 = false) by now apply Qlt_bool_false.
    unfold format_scaled_amount, fixed_copy, _get_scale_info_fixed. rewrite E.
    repeat match goal with
           | |- context [if Qle_bool ?a ?b then _ else _] => destruct (Qle_bool a b)
           end; reflexivity.
  - intros Hv.
    assert (E : Qlt_bool v 0 = true) by now apply Qlt_bool_iff.
    unfold format_scaled_amount, fixed_copy, _get_scale_info_fixed. rewrite E.
    repeat match goal with
           | |- context [if Qle_bool ?a ?b then _ else _] => destruct (Qle_bool a b)
           end;
      do 2 eexists; (split; [reflexivity|]); cbn [bind _format_fixed_scale];
      match goal with
      | |- context [Qeq_bool ?d 0] => change (Qeq_bool d 0) with false; cbv iota
      end;
      match goal with
      | |- context [format_f true 2 (v / ?d)] =>
          rewrite (format_f_neg true 2 (v / d))
            by (apply Qdiv_neg; [reflexivity | exact Hv]);
          rewrite (Qabs_Qdiv_num v d) by reflexivity
      end; split; reflexivity.
Qed.

Lemma format_scaled_amount_fixed_copy_witness :
  format_scaled_amount (VNum 1234) "INR" = fixed_copy "INR" (VNum 1234) /\
  exists d s,
    _get_scale_info_fixed (VNum (-1234)) = Ok (d, s) /\
    fixed_copy "INR" (VNum (-1234))
      = Ok (currency_symbol "INR" ++ "-" ++ format_f true 2 (Qabs (-1234) / d) ++ s) /\
    format_scaled_amount (VNum (-1234)) "INR"
      = Ok (currency_symbol "INR" ++ "--" ++ format_f true 2 (Qabs (-1234) / d) ++ s).
Proof.
  split.
  - apply (proj1 (format_scaled_amount_fixed_copy 1234 "INR")). discriminate.
  - apply (proj2 (format_scaled_amount_fixed_copy (-1234) "INR")). reflexivity.
Defined.

(* ------------------------------------------------------------------------- *)
(** ** Tree formatter: what a node keeps and what it drops *)

Lemma not_written_of_change (K : string) :
  endswith K "_CHANGE" = true ->
  ~ In K direction_keys /\ ~ In K amount_key_list /\
  ~ In K (map (fun k => k ++ "_FIX") amount_key_list) /\ K <> "SIGNIFICANT_SOURCES".
Proof.
  intros HK. repeat split; simpl; intros Hin;
    repeat (destruct Hin as [<-|Hin]; [discriminate HK|]); auto.
  subst K. discriminate HK.
Qed.

Lemma format_dict_no_change_key (fuel : nat) (c : string) (d out : dict) (K : string) :
  _format_dict fuel c (VDict d) = Ok (VDict out) ->
  endswith K "_CHANGE" = true -> get K out = None.
Proof.
  intros H HK.
  apply format_dict_inv in H as (d1 & out' & Hnode & [= <-] & Hsame).
  destruct (not_written_of_change K HK) as (H1 & H2 & H3 & H4).
  rewrite Hsame by exact H4.
  now rewrite (node_get_other _ _ _ Hnode K H1 H2 H3), HK.
Qed.

(** X4. No key ending in [_CHANGE], and so none ending in [_PCT_CHANGE], is
    left in a formatted node, whatever its value was. *)
Theorem format_dict_drops_change_keys (fuel : nat) (c : string) (d out : dict)
    (K : string) :
  _format_dict fuel c (VDict d) = Ok (VDict out) ->
  endswith K "_CHANGE" = true ->
  get K out = None.
Proof. apply format_dict_no_change_key. Qed.

Lemma format_dict_drops_change_keys_witness :
  exists out,
    _format_dict 1 "USD" (VDict [("SRC_CHANGE", VNum 5); ("SRC_PCT_CHANGE", VNum 1);
                                ("NAME", VStr "x")]) = Ok (VDict out) /\
    get "SRC_CHANGE" out = None /\ get "SRC_PCT_CHANGE" out = None.
Proof.
  set (d := [("SRC_CHANGE", VNum 5); ("SRC_PCT_CHANGE", VNum 1); ("NAME", VStr "x")]).
  destruct (_format_dict 1 "USD" (VDict d)) as [[| | | | |out]|e] eqn:E;
    try (vm_compute in E; discriminate E).
  exists out. split; [reflexivity|]. split.
  - apply (format_dict_drops_change_keys 1 "USD" d out "SRC_CHANGE" E). reflexivity.
  - apply (format_dict_drops_change_keys 1 "USD" d out "SRC_PCT_CHANGE" E). reflexivity.
Defined.

(** X5. A key that the formatter does not write itself and that does not
    end in [_CHANGE] passes through with its value: names, codes, labels
    and counts are left as they are. *)
Theorem format_dict_keeps_other_keys (fuel : nat) (c : string) (d out : dict)
    (K : string) :
  _format_dict fuel c (VDict d) = Ok (VDict out) ->
  ~ In K written_keys ->
  endswith K "_CHANGE" = false ->
  get K out = get K d.
Proof.
  intros H Hw HK.
  apply format_dict_inv in H as (d1 & out' & Hnode & [= <-] & Hsame).
  unfold written_keys in Hw. rewrite !in_app_iff in Hw.
  rewrite Hsame by (intros ->; apply Hw; simpl; auto 10).
  rewrite (node_get_other _ _ _ Hnode K), HK; tauto.
Qed.

Lemma format_dict_keeps_other_keys_witness :
  exists out,
    _format_dict 1 "USD" (VDict [("SRC_CHANGE", VNum 5); ("CUSTOMER_NAME", VStr "x")])
      = Ok (VDict out) /\
    get "CUSTOMER_NAME" out = Some (VStr "x").
Proof.
  set (d := [("SRC_CHANGE", VNum 5); ("CUSTOMER_NAME", VStr "x")]).
  destruct (_format_dict 1 "USD" (VDict d)) as [[| | | | |out]|e] eqn:E;
    try (vm_compute in E; discriminate E).
  exists out. split; [reflexivity|].
  rewrite (format_dict_keeps_other_keys 1 "USD" d out "CUSTOMER_NAME" E).
  - reflexivity.
  - unfold written_keys. simpl. intros H.
    repeat (destruct H as [H|H]; [discriminate H|]). exact H.
  - reflexivity.
Defined.

(* ------------------------------------------------------------------------- *)
(** ** Tree formatter: the direction keys *)

(** A loop that writes one key [K] with the text [t] at every key it
    acts on, and does nothing at the others. *)
Section OneKey.
Context {S : Type}.
Variables (step : S -> string -> result S) (proj : S -> dict).
Variables (K : string) (t : value).
Variable hit : string -> bool.
Hypothesis step_hit : forall s key s',
  hit key = true -> step s key = Ok s' -> get K (proj s') = Some t.
Hypothesis step_miss : forall s key s',
  hit key = false -> step s key = Ok s' -> s' = s.

Lemma loop_keeps (ks : list string) (s s' : S) :
  foldM step ks s = Ok s' -> get K (proj s) = Some t -> get K (proj s') = Some t.
Proof.
  revert s. induction ks as [|key ks IH]; simpl; intros s H Hs.
  - now injection H as <-.
  - apply bind_Ok in H as (s1 & H1 & H2). apply (IH s1); auto.
    destruct (hit key) eqn:E; [eauto|].
    now rewrite (step_miss _ _ _ E H1).
Qed.

Lemma loop_writes (ks : list string) (s s' : S) :
  foldM step ks s = Ok s' -> (exists key, In key ks /\ hit key = true) ->
  get K (proj s') = Some t.
Proof.
  revert s. induction ks as [|key ks IH]; simpl; intros s H (k0 & Hin & Hk).
  - contradiction.
  - apply bind_Ok in H as (s1 & H1 & H2).
    destruct (hit key) eqn:E.
    + eapply loop_keeps; eauto.
    + apply (IH s1); auto. destruct Hin as [->|Hin]; [congruence|eauto].
Qed.
End OneKey.

Section ChangeAmount.
Variables (c : string) (d : dict) (q : Q).
Hypothesis Hall : forall key v, is_change_key key = true -> get key d = Some v ->
                                v = VNone \/ v = VNum q.

Let change_hit (key : string) : bool :=
  is_change_key key && match get key d with Some (VNum _) => true | _ => false end.

Lemma change_step_miss (st st' : dict * rel_scale) (key : string) :
  change_hit key = false -> change_step c d st key = Ok st' -> st' = st.
Proof.
  unfold change_hit, change_step. destruct st as [nd rel].
  destruct (is_change_key key) eqn:Ek; cbn [andb]; [|now intros _ [= <-]].
  destruct (get key d) as [v|] eqn:Eg; [|now intros _ [= <-]].
  destruct (Hall key v Ek Eg) as [-> | ->]; [now intros _ [= <-] | discriminate].
Qed.

Lemma change_step_hit (st st' : dict * rel_scale) (key : string) (dv : Q) (sf : string) :
  _get_scale_info (VNum q) = Ok (dv, sf) ->
  change_hit key = true -> change_step c d st key = Ok st' ->
  get (direction (VNum q) ++ "_Amount") (fst st')
    = Some (VStr (currency_symbol c ++ format_f true 0 (Qabs q / dv) ++ sf)).
Proof.
  intros Hsc. unfold change_hit, change_step. destruct st as [nd rel].
  destruct (is_change_key key) eqn:Ek; cbn [andb]; [|discriminate].
  destruct (get key d) as [v|] eqn:Eg; [|discriminate].
  destruct (Hall key v Ek Eg) as [-> | ->]; [discriminate|]. intros _.
  cbn [is_none negb]. rewrite Hsc. cbn [bind].
  pose proof (get_scale_info_nonzero _ _ _ Hsc) as Hnz.
  unfold direction. destruct (Qlt_bool q 0) eqn:El; cbn [String.eqb Ascii.eqb Bool.eqb];
    unfold _format_fixed_scale; rewrite Hnz; cbn [bind]; intros [= <-]; cbn [fst];
    rewrite get_set_same; [reflexivity|].
  apply Qlt_bool_false in El. now rewrite (Qabs_nonneg_eq q El).
Qed.

(** X6. In a node whose non-null change values are all the number [q], the
    change is rendered without its sign, on its own relative scale and
    with no decimals, under [Decrease_Amount] when [q] is negative and
    under [Increase_Amount] otherwise; the other of the two keys is not
    written. *)
Theorem format_dict_change_amount (fuel : nat) (out : dict) :
  (exists key, is_change_key key = true /\ get key d = Some (VNum q)) ->
  _format_dict fuel c (VDict d) = Ok (VDict out) ->
  exists dv sf,
    _get_scale_info (VNum q) = Ok (dv, sf) /\
    let text := VStr (currency_symbol c ++ format_f true 0 (Qabs q / dv) ++ sf) in
    (q < 0 -> get "Decrease_Amount" out = Some text /\
              get "Increase_Amount" out = get "Increase_Amount" d) /\
    (0 <= q -> get "Increase_Amount" out = Some text /\
               get "Decrease_Amount" out = get "Decrease_Amount" d).
Proof.
  intros (ck & Hck & Hq) H.
  apply format_dict_inv in H as (d1 & out' & Hnode & [= <-] & Hsame).
  destruct (node_stages _ _ _ Hnode) as (nd1 & rel & nd2 & nd3 & H1 & H2 & _).
  destruct (get_scale_info_total q) as (dv & sf & Hsc).
  exists dv, sf. split; [exact Hsc|]. cbv zeta.
  assert (Hdir : get (direction (VNum q) ++ "_Amount") nd1
                 = Some (VStr (currency_symbol c ++ format_f true 0 (Qabs q / dv) ++ sf))).
  { apply (loop_writes (change_step c d) fst _ _ change_hit) with (3 := H1).
    - intros s key s'. now apply change_step_hit.
    - intros s key s'. apply change_step_miss.
    - exists ck. split; [apply get_In_keys; congruence|].
      unfold change_hit. now rewrite Hck, Hq. }
  assert (Hpct : forall K, In K ["Increase_Amount"; "Decrease_Amount"] ->
                           get K nd2 = get K nd1).
  { intros K HK.
    apply (foldM_inv _ (fun nd => get K nd = get K nd1) _ _ _) with (3 := eq_refl) in H2;
      auto.
    intros s a s' _ Hs <-. eapply pct_step_other; eauto;
      simpl in HK; destruct HK as [<-|[<-|[]]]; discriminate. }
  assert (Hother : forall K, In K ["Increase_Amount"; "Decrease_Amount"] ->
                             K <> direction (VNum q) ++ "_Amount" -> get K nd1 = None).
  { intros K HK Hne.
    apply (foldM_inv _ (fun st => get K (fst st) = None) _ _ _) in H1; auto.
    intros [nd r] key [nd' r'] _ Hs Hnd. cbn [fst] in *.
    destruct (change_hit key) eqn:E.
    - unfold change_hit in E. apply andb_true_iff in E as [Ek Ev].
      unfold change_step in Hs. rewrite Ek in Hs.
      destruct (get key d) as [v|] eqn:Eg; [|discriminate].
      destruct (Hall key v Ek Eg) as [-> | ->]; [discriminate|].
      cbn [is_none negb andb] in Hs.
      apply bind_Ok in Hs as ([dv' sf'] & _ & Hs).
      apply bind_Ok in Hs as (s0 & _ & Hs). injection Hs as <- _.
      now rewrite get_set_other by exact Hne.
    - apply change_step_miss in Hs; auto. now injection Hs as <- _. }
  assert (Hout : forall K, In K ["Increase_Amount"; "Decrease_Amount"] ->
                           get K out = match get K nd1 with
                                       | Some v => Some v
                                       | None => get K d
                                       end).
  { intros K HK.
    rewrite Hsame by (simpl in HK; destruct HK as [<-|[<-|[]]]; discriminate).
    rewrite (node_get_direction _ _ _ Hnode K _ _ _ H1 H2)
      by (simpl in *; tauto).
    now rewrite Hpct. }
  unfold direction in Hdir, Hother.
  split; intros Hsign.
  - apply Qlt_bool_iff in Hsign. rewrite Hsign in Hdir, Hother.
    change ("Decrease" ++ "_Amount") with "Decrease_Amount" in Hdir, Hother. split.
    + rewrite Hout by (simpl; auto). now rewrite Hdir.
    + rewrite Hout by (simpl; auto).
      now rewrite Hother by (simpl; auto; discriminate).
  - apply Qlt_bool_false in Hsign. rewrite Hsign in Hdir, Hother.
    change ("Increase" ++ "_Amount") with "Increase_Amount" in Hdir, Hother. split.
    + rewrite Hout by (simpl; auto). now rewrite Hdir.
    + rewrite Hout by (simpl; auto).
      now rewrite Hother by (simpl; auto; discriminate).
Qed.
End ChangeAmount.

Lemma format_dict_change_amount_witness :
  exists out,
    _format_dict 1 "USD" (VDict [("BUSINESS_DAY", VNum 1000); ("SRC_CHANGE", VNum (-25000))])
      = Ok (VDict out) /\
    get "Decrease_Amount" out = Some (VStr "$25K") /\
    get "Increase_Amount" out = None.
Proof.
  set (d := [("BUSINESS_DAY", VNum 1000); ("SRC_CHANGE", VNum (-25000))]).
  destruct (_format_dict 1 "USD" (VDict d)) as [[| | | | |out]|e] eqn:E;
    try (vm_compute in E; discriminate E).
  exists out. split; [reflexivity|].
  destruct (format_dict_change_amount "USD" d (-25000)) with (fuel := 1%nat) (out := out)
    as (dv & sf & Hsc & Hneg & _).
  - intros key v Hk Hg. unfold d in Hg. cbn [get] in Hg.
    destruct (String.eqb "BUSINESS_DAY" key) eqn:E1.
    { apply String.eqb_eq in E1. subst key. discriminate Hk. }
    destruct (String.eqb "SRC_CHANGE" key); [|discriminate Hg].
    injection Hg as <-. now right.
  - exists "SRC_CHANGE". split; reflexivity.
  - exact E.
  - vm_compute in Hsc. injection Hsc as <- <-.
    destruct Hneg as [H1 H2]; [reflexivity|]. split; [exact H1 | exact H2].
Defined.

Section Percentage.
Variables (c : string) (d : dict) (v : value) (t : string).
Hypothesis Hall : forall key v', endswith key "_PCT_CHANGE" = true ->
                                 get key d = Some v' -> v' = VNone \/ v' = v.
Hypothesis Hv : v <> VNone.
Hypothesis Htext : forall nd key,
  get key d = Some v ->
  pct_step d nd key = (if endswith key "_PCT_CHANGE"
                       then Ok (set (direction v ++ "_Percentage") (VStr t) nd)
                       else Ok nd).

Let pct_hit (key : string) : bool :=
  endswith key "_PCT_CHANGE" && negb (is_none (get key d))
  && match get key d with Some _ => true | None => false end.

Lemma pct_step_miss (nd nd' : dict) (key : string) :
  pct_hit key = false -> pct_step d nd key = Ok nd' -> nd' = nd.
Proof.
  unfold pct_hit, pct_step.
  destruct (endswith key "_PCT_CHANGE" && negb (is_none (get key d))) eqn:E;
    [|now intros _ [= <-]].
  cbn [andb]. destruct (get key d); [discriminate|now intros _ [= <-]].
Qed.

Lemma pct_step_hit (nd nd' : dict) (key : string) :
  pct_hit key = true -> pct_step d nd key = Ok nd' ->
  nd' = set (direction v ++ "_Percentage") (VStr t) nd.
Proof.
  unfold pct_hit. rewrite !andb_true_iff. intros [[Ek En] Eg].
  destruct (get key d) as [v'|] eqn:E; [|discriminate].
  destruct (Hall key v' Ek E) as [-> | ->]; [discriminate|].
  rewrite (Htext nd key E), Ek. now intros [= <-].
Qed.

(** In a node whose non-null percentage changes are all the value [v],
    rendered as [t], the key of the direction of [v] holds [t] and the
    other percentage key is not written. *)
Lemma format_dict_pct (fuel : nat) (out : dict) :
  (exists key, endswith key "_PCT_CHANGE" = true /\ get key d = Some v) ->
  _format_dict fuel c (VDict d) = Ok (VDict out) ->
  get (direction v ++ "_Percentage") out = Some (VStr t) /\
  forall K, In K ["Increase_Percentage"; "Decrease_Percentage"] ->
            K <> direction v ++ "_Percentage" -> get K out = get K d.
Proof.
  intros (pk & Hpk & Hg) H.
  apply format_dict_inv in H as (d1 & out' & Hnode & [= <-] & Hsame).
  destruct (node_stages _ _ _ Hnode) as (nd1 & rel & nd2 & nd3 & H1 & H2 & _).
  assert (Hin : forall K, In K ["Increase_Percentage"; "Decrease_Percentage"] ->
                          In K direction_keys /\ K <> "SIGNIFICANT_SOURCES" /\
                          K <> "Increase_Amount" /\ K <> "Decrease_Amount").
  { intros K HK. simpl in HK. destruct HK as [<-|[<-|[]]]; simpl;
      repeat split; auto; discriminate. }
  assert (Hnd1 : forall K, In K ["Increase_Percentage"; "Decrease_Percentage"] ->
                           get K nd1 = None).
  { intros K HK. destruct (Hin K HK) as (_ & _ & Ha & Hb).
    apply (foldM_inv _ (fun st => get K (fst st) = None) _ _ _) in H1; auto.
    intros s a s' _ Hs <-. eapply change_step_other; eauto. }
  assert (Hout : forall K, In K ["Increase_Percentage"; "Decrease_Percentage"] ->
                           get K out = match get K nd2 with
                                       | Some x => Some x
                                       | None => get K d
                                       end).
  { intros K HK. destruct (Hin K HK) as (Hd & Hs & _).
    rewrite Hsame by exact Hs.
    now rewrite (node_get_direction _ _ _ Hnode K _ _ _ H1 H2 Hd). }
  assert (Hdir : In (direction v ++ "_Percentage")
                    ["Increase_Percentage"; "Decrease_Percentage"]).
  { destruct (direction_cases v) as [-> | ->]; simpl; auto. }
  split.
  - rewrite Hout by exact Hdir.
    rewrite (loop_writes (pct_step d) (fun nd => nd) _ (VStr t) pct_hit) with (3 := H2);
      auto.
    + intros s key s' Hh Hs. rewrite (pct_step_hit _ _ _ Hh Hs). apply get_set_same.
    + intros s key s'. apply pct_step_miss.
    + exists pk. split; [apply get_In_keys; congruence|].
      unfold pct_hit. rewrite Hpk, Hg. destruct v; try reflexivity. congruence.
  - intros K HK Hne. rewrite Hout by exact HK.
    assert (E : get K nd2 = None).
    { apply (foldM_inv _ (fun nd => get K nd = None) _ _ _) in H2; auto.
      intros s key s' _ Hs Hnd. destruct (pct_hit key) eqn:Eh.
      - rewrite (pct_step_hit _ _ _ Eh Hs). now rewrite get_set_other by exact Hne.
      - now rewrite (pct_step_miss _ _ _ Eh Hs). }
    now rewrite E.
Qed.
End Percentage.

(** X7. In a node whose non-null percentage changes are all the number
    [p], the percentage is rendered without its sign and with two
    decimals, under [Decrease_Percentage] when [p] is negative and under
    [Increase_Percentage] otherwise; the other of the two keys is not
    written. *)
Theorem format_dict_percentage (fuel : nat) (c : string) (d out : dict) (p : Q) :
  (forall key v, endswith key "_PCT_CHANGE" = true -> get key d = Some v ->
                 v = VNone \/ v = VNum p) ->
  (exists key, endswith key "_PCT_CHANGE" = true /\ get key d = Some (VNum p)) ->
  _format_dict fuel c (VDict d) = Ok (VDict out) ->
  let text := VStr (format_f false 2 (Qabs p) ++ "%") in
  (p < 0 -> get "Decrease_Percentage" out = Some text /\
            get "Increase_Percentage" out = get "Increase_Percentage" d) /\
  (0 <= p -> get "Increase_Percentage" out = Some text /\
             get "Decrease_Percentage" out = get "Decrease_Percentage" d).
Proof.
  intros Hall Hex H.
  destruct (format_dict_pct c d (VNum p) (format_f false 2 (Qabs p) ++ "%") Hall)
    with (fuel := fuel) (out := out) as [Hd Ho]; auto.
  { discriminate. }
  { intros nd key Hg. unfold pct_step. rewrite Hg.
    destruct (endswith key "_PCT_CHANGE"); reflexivity. }
  cbv zeta. unfold direction in Hd, Ho.
  split; intros Hsign.
  - apply Qlt_bool_iff in Hsign. rewrite Hsign in Hd, Ho.
    change ("Decrease" ++ "_Percentage") with "Decrease_Percentage" in Hd, Ho.
    split; [exact Hd|]. apply Ho; [simpl; auto | discriminate].
  - apply Qlt_bool_false in Hsign. rewrite Hsign in Hd, Ho.
    change ("Increase" ++ "_Percentage") with "Increase_Percentage" in Hd, Ho.
    split; [exact Hd|]. apply Ho; [simpl; auto | discriminate].
Qed.

Lemma format_dict_percentage_witness :
  exists out,
    _format_dict 1 "USD" (VDict [("BUSINESS_DAY", VNum 1000); ("SRC_PCT_CHANGE", VNum (-2.5))])
      = Ok (VDict out) /\
    get "Decrease_Percentage" out = Some (VStr "2.50%") /\
    get "Increase_Percentage" out = None.
Proof.
  set (d := [("BUSINESS_DAY", VNum 1000); ("SRC_PCT_CHANGE", VNum (-2.5))]).
  destruct (_format_dict 1 "USD" (VDict d)) as [[| | | | |out]|e] eqn:E;
    try (vm_compute in E; discriminate E).
  exists out. split; [reflexivity|].
  destruct (format_dict_percentage 1 "USD" d out (-2.5)) as [Hneg _].
  - intros key v Hk Hg. unfold d in Hg. cbn [get] in Hg.
    destruct (String.eqb "BUSINESS_DAY" key) eqn:E1.
    { apply String.eqb_eq in E1. subst key. discriminate Hk. }
    destruct (String.eqb "SRC_PCT_CHANGE" key); [|discriminate Hg].
    injection Hg as <-. now right.
  - exists "SRC_PCT_CHANGE". split; reflexivity.
  - exact E.
  - destruct Hneg as [H1 H2]; [reflexivity|]. split; [exact H1 | exact H2].
Defined.

(** X8. A percentage change that is [pd.NA], as the builder leaves it for
    a prior amount of zero, is not [None]: the node gets
    [Increase_Percentage] with the text ["<NA>%"], and
    [Decrease_Percentage] is not written. *)
Theorem format_dict_percentage_na (fuel : nat) (c : string) (d out : dict) :
  (forall key v, endswith key "_PCT_CHANGE" = true -> get key d = Some v ->
                 v = VNone \/ v = VNA) ->
  (exists key, endswith key "_PCT_CHANGE" = true /\ get key d = Some VNA) ->
  _format_dict fuel c (VDict d) = Ok (VDict out) ->
  get "Increase_Percentage" out = Some (VStr "<NA>%") /\
  get "Decrease_Percentage" out = get "Decrease_Percentage" d.
Proof.
  intros Hall Hex H.
  destruct (format_dict_pct c d VNA "<NA>%" Hall)
    with (fuel := fuel) (out := out) as [Hd Ho]; auto.
  { discriminate. }
  { intros nd key Hg. unfold pct_step. rewrite Hg.
    destruct (endswith key "_PCT_CHANGE"); reflexivity. }
  split; [exact Hd|]. apply Ho; [simpl; auto | discriminate].
Qed.

Lemma format_dict_percentage_na_witness :
  exists out,
    _format_dict 1 "USD"
      (VDict (BS.tl_record ("Total Assets", BS.mkSums 500 0 0))) = Ok (VDict out) /\
    get "Increase_Percentage" out = Some (VStr "<NA>%").
Proof.
  set (d := BS.tl_record ("Total Assets", BS.mkSums 500 0 0)).
  destruct (_format_dict 1 "USD" (VDict d)) as [[| | | | |out]|e] eqn:E;
    try (vm_compute in E; discriminate E).
  exists out. split; [reflexivity|].
  apply (format_dict_percentage_na 1 "USD" d out).
  - intros key v Hk Hg. unfold d in Hg. cbn [get BS.tl_record] in Hg.
    repeat match type of Hg with
           | (if String.eqb ?a key then _ else _) = _ =>
               let E := fresh "E" in
               destruct (String.eqb a key) eqn:E;
               [apply String.eqb_eq in E; subst key;
                try discriminate Hk; injection Hg as <-; now right |]
           end.
    discriminate Hg.
  - exists "TL_PCT_CHANGE". split; reflexivity.
  - exact E.
Defined.

(* ------------------------------------------------------------------------- *)
(** ** Tree formatter: the amount keys *)

Lemma format_dict_amount_copies_witness :
  exists out,
    _format_dict 1 "USD" (VDict [("BUSINESS_DAY", VNum 4000); ("SRC_CHANGE", VNum 25000)])
      = Ok (VDict out) /\
    get "BUSINESS_DAY" out = Some (VStr "$4K") /\
    get "BUSINESS_DAY_FIX" out = Some (VStr "$4.00K").
Proof.
  set (d := [("BUSINESS_DAY", VNum 4000); ("SRC_CHANGE", VNum 25000)]).
  destruct (_format_dict 1 "USD" (VDict d)) as [[| | | | |out]|e] eqn:E;
    try (vm_compute in E; discriminate E).
  exists out. split; [reflexivity|].
  destruct (format_dict_amount_copies 1 "USD" d out 25000 "BUSINESS_DAY" (VNum 4000))
    as (dv & sf & s1 & s2 & Hsc & E1 & E2 & G1 & G2).
  - intros key v Hk Hg. unfold d in Hg. cbn [get] in Hg.
    destruct (String.eqb "BUSINESS_DAY" key) eqn:E1.
    { apply String.eqb_eq in E1. subst key. discriminate Hk. }
    destruct (String.eqb "SRC_CHANGE" key); [|discriminate Hg].
    injection Hg as <-. now right.
  - exists "SRC_CHANGE". split; reflexivity.
  - exact E.
  - simpl. auto.
  - reflexivity.
  - vm_compute in Hsc. injection Hsc as <- <-.
    vm_compute in E1. injection E1 as <-.
    vm_compute in E2. injection E2 as <-.
    split; [exact G1 | exact G2].
Defined.

Lemma amount_key_not_written (k : string) :
  In k amount_key_list ->
  ~ In k direction_keys /\ k <> "SIGNIFICANT_SOURCES" /\
  endswith k "_CHANGE" = false /\ endswith k "_PCT_CHANGE" = false /\
  endswith (k ++ "_FIX") "_CHANGE" = false /\ (k ++ "_FIX") <> "SIGNIFICANT_SOURCES".
Proof.
  simpl. intros [<-|[<-|[<-|[<-|[]]]]]; repeat split; try discriminate;
    simpl; intros H; repeat (destruct H as [H|H]; [discriminate H|]); exact H.
Qed.

(** The third loop leaves an amount key that the node does not have as it
    found it. *)
Lemma amount_loop_absent (c : string) (d : dict) (rel : rel_scale)
    (nd nd' : dict) (k : string) :
  foldM (amount_step c d rel) amount_key_list nd = Ok nd' ->
  In k amount_key_list -> get k d = None -> get k nd' = get k nd.
Proof.
  intros H Hin Hk. unfold amount_key_list, foldM in H.
  invert_amount_steps H. injection H as <-.
  simpl in Hin.
  destruct Hin as [<-|[<-|[<-|[<-|[]]]]]; rewrite Hk in *;
    repeat match goal with
           | Hs : match get ?x d with _ => _ end |- _ => destruct (get x d)
           | Hs : exists _, _ |- _ =>
               let s1 := fresh "s" in
               let s2 := fresh "s" in
               destruct Hs as (s1 & s2 & ? & ? & ?)
           end; subst;
    repeat (rewrite get_set_other; [|discriminate]); reflexivity.
Qed.

(** After formatting, an amount key holds a string, or is absent as it was
    before. *)
Lemma format_dict_amount_shape (fuel : nat) (c : string) (d out : dict) (k : string) :
  _format_dict fuel c (VDict d) = Ok (VDict out) ->
  In k amount_key_list ->
  match get k d with
  | Some _ => exists s, get k out = Some (VStr s)
  | None => get k out = None
  end.
Proof.
  intros H Hin.
  destruct (amount_key_not_written k Hin) as (Hd & Hs & Hc & Hp & _).
  apply format_dict_inv in H as (d1 & out' & Hnode & [= <-] & Hsame).
  rewrite Hsame by exact Hs.
  destruct (node_stages _ _ _ Hnode) as (nd1 & rel & nd2 & nd3 & H1 & H2 & H3 & E).
  destruct (get k d) as [v|] eqn:Eg.
  - destruct (node_get_amount _ _ _ Hnode _ _ _ _ H1 Hin Eg) as (s1 & _ & _ & _ & G & _).
    eauto.
  - subst d1. rewrite copy_loop_get, (amount_loop_absent _ _ _ _ _ _ H3 Hin Eg).
    assert (E2 : get k nd2 = None).
    { assert (E1 : get k nd1 = None).
      { apply (foldM_inv _ (fun st => get k (fst st) = None) _ _ _) in H1; auto.
        intros s a s' _ Hst <-. eapply change_step_other; eauto;
          intros ->; apply Hd; simpl; auto. }
      apply (foldM_inv _ (fun nd => get k nd = None) _ _ _) in H2; auto.
      intros s a s' _ Hst <-. eapply pct_step_other; eauto;
        intros ->; apply Hd; simpl; auto. }
    rewrite E2, Eg. now destruct (_ && _).
Qed.

(** Once a change key with a number has been met, the first loop holds a
    scale whose divisor is not zero. *)
Lemma change_loop_some (c : string) (d : dict) (ks : list string)
    (st st' : dict * rel_scale) :
  foldM (change_step c d) ks st = Ok st' ->
  ((exists dv sf, snd st = Some (dv, sf) /\ Qeq_bool dv 0 = false)
   \/ exists key q, In key ks /\ is_change_key key = true
                    /\ get key d = Some (VNum q)) ->
  exists dv sf, snd st' = Some (dv, sf) /\ Qeq_bool dv 0 = false.
Proof.
  revert st. induction ks as [|a ks IH]; simpl; intros st Hrun Hor.
  - injection Hrun as <-. destruct Hor as [?|(? & ? & [] & _)]; auto.
  - apply bind_Ok in Hrun as (st1 & Hst & Hrun). apply (IH st1 Hrun).
    destruct st as [nd r]. unfold change_step in Hst.
    assert (Hskip : Ok (nd, r) = Ok st1 ->
                    (is_change_key a = true -> forall q0, get a d <> Some (VNum q0)) ->
                    (exists dv sf, snd st1 = Some (dv, sf) /\ Qeq_bool dv 0 = false)
                    \/ exists key q, In key ks /\ is_change_key key = true
                                     /\ get key d = Some (VNum q)).
    { intros [= <-] Hno.
      destruct Hor as [?|(key0 & q0 & [<-|Hin0] & Hc0 & Hg0)]; auto.
      - exfalso. now apply (Hno Hc0 q0).
      - right. eauto. }
    destruct (is_change_key a) eqn:Ea; cbn [andb] in Hst;
      [|apply Hskip; [exact Hst | discriminate]].
    destruct (get a d) as [v|] eqn:Ev;
      [|apply Hskip; [exact Hst | intros _ q0; discriminate]].
    destruct (negb (is_none (Some v))) eqn:En;
      [|apply Hskip; [exact Hst|]; intros _ q0 [= ->]; discriminate].
    apply bind_Ok in Hst as ([dv sf] & Hsc & Hst).
    apply bind_Ok in Hst as (s & _ & Hst). injection Hst as <-.
    left. exists dv, sf. split; auto.
    eapply get_scale_info_nonzero; eauto.
Qed.

(** X10. An amount that is [None] is rendered as the bare text ["0"],
    without a currency symbol: always in its fixed-scale copy, and in its
    relative copy too unless that is ["N/A"], which it is not when the
    node has a change that is a number. *)
Theorem format_dict_none_amount (fuel : nat) (c : string) (d out : dict) (k : string) :
  _format_dict fuel c (VDict d) = Ok (VDict out) ->
  In k amount_key_list -> get k d = Some VNone ->
  get (k ++ "_FIX") out = Some (VStr "0") /\
  (get k out = Some (VStr "0") \/ get k out = Some (VStr "N/A")) /\
  ((exists key q, is_change_key key = true /\ get key d = Some (VNum q)) ->
   get k out = Some (VStr "0")).
Proof.
  intros H Hin Hk.
  destruct (amount_key_not_written k Hin) as (_ & Hs & _ & _ & _ & Hf).
  apply format_dict_inv in H as (d1 & out' & Hnode & [= <-] & Hsame).
  rewrite !Hsame by assumption.
  destruct (node_stages _ _ _ Hnode) as (nd1 & rel & nd2 & nd3 & H1 & _).
  destruct (node_get_amount _ _ _ Hnode _ _ _ _ H1 Hin Hk)
    as (s1 & s2 & E1 & E2 & G1 & G2).
  rewrite G1, G2. cbn in E2. injection E2 as <-.
  split; [reflexivity|].
  assert (Hrel : s1 = "0"
                 \/ (s1 = "N/A"
                     /\ (rel = None
                         \/ exists dv sf, rel = Some (dv, sf) /\ Qeq_bool dv 0 = true))).
  { unfold relative_copy in E1. destruct rel as [[dv sf]|].
    - destruct (Qeq_bool dv 0) eqn:Ez; injection E1 as <-; eauto 8.
    - injection E1 as <-. auto. }
  split.
  - destruct Hrel as [-> | [-> _]]; auto.
  - intros (key & q & Hck & Hq).
    destruct Hrel as [-> | [_ Hrel]]; [reflexivity|]. exfalso.
    destruct (change_loop_some _ _ _ _ _ H1) as (dv & sf & Hsome & Hnz).
    { right. exists key, q. split; [apply get_In_keys; congruence|]. auto. }
    cbn [snd] in Hsome. subst rel.
    destruct Hrel as [?|(dv' & sf' & [= <- <-] & Hz)]; congruence.
Qed.

Lemma format_dict_none_amount_witness :
  exists out,
    _format_dict 1 "USD" (VDict [("PREVIOUS_DAY", VNone); ("CUST_CHANGE", VNum 20)])
      = Ok (VDict out) /\
    get "PREVIOUS_DAY_FIX" out = Some (VStr "0").
Proof.
  set (d := [("PREVIOUS_DAY", VNone); ("CUST_CHANGE", VNum 20)]).
  destruct (_format_dict 1 "USD" (VDict d)) as [[| | | | |out]|e] eqn:E;
    try (vm_compute in E; discriminate E).
  exists out. split; [reflexivity|].
  apply (format_dict_none_amount 1 "USD" d out "PREVIOUS_DAY" E).
  - simpl. auto.
  - reflexivity.
Defined.

(** On a node whose amount keys hold strings the third loop raises. *)
Lemma amount_loop_raises (c : string) (out nd : dict) :
  (forall k, In k amount_key_list ->
             get k out = None \/ exists s, get k out = Some (VStr s)) ->
  (exists k s, In k amount_key_list /\ get k out = Some (VStr s)) ->
  foldM (amount_step c out None) amount_key_list nd = Raise TypeError.
Proof.
  intros Hall (k0 & s0 & Hin0 & Hg0).
  assert (Hstep : forall k nd0, In k amount_key_list ->
             (get k out = None /\ amount_step c out None nd0 k = Ok nd0)
             \/ ((exists s, get k out = Some (VStr s))
                 /\ amount_step c out None nd0 k = Raise TypeError)).
  { intros k nd0 Hin. destruct (amount_key_not_written k Hin) as (_ & _ & _ & Hp & _).
    unfold amount_step. rewrite Hp. cbn [negb].
    destruct (Hall k Hin) as [E | (s & E)]; rewrite E; [left | right]; eauto. }
  unfold amount_key_list in *. cbn [foldM].
  destruct (Hstep "BUSINESS_DAY" nd) as [[G1 ->]|[_ ->]]; [simpl; auto | | reflexivity].
  cbn [bind].
  destruct (Hstep "PREVIOUS_DAY" nd) as [[G2 ->]|[_ ->]]; [simpl; auto | | reflexivity].
  cbn [bind].
  destruct (Hstep "SRC_MTD" nd) as [[G3 ->]|[_ ->]]; [simpl; auto | | reflexivity].
  cbn [bind].
  destruct (Hstep "TL_MTD" nd) as [[G4 ->]|[_ ->]]; [simpl; auto 6 | | reflexivity].
  exfalso. simpl in Hin0.
  destruct Hin0 as [<-|[<-|[<-|[<-|[]]]]]; congruence.
Qed.

(** X11. Formatting is not idempotent: a formatted node that has one of
    the amount keys cannot be formatted again, its rendered amount being a
    string of which [_get_scale_info_fixed] takes the absolute value.  This
    is what happens to a node that two lists of the tree share. *)
Theorem format_dict_not_reentrant (fuel fuel' : nat) (c : string) (d out : dict)
    (k : string) :
  _format_dict fuel c (VDict d) = Ok (VDict out) ->
  In k amount_key_list -> mem k d = true ->
  _format_dict (S fuel') c (VDict out) = Raise TypeError.
Proof.
  intros H Hin Hk.
  assert (Hnone : forall key, In key (keys out) -> endswith key "_CHANGE" = true -> False).
  { intros key Hkey Hend. apply get_In_keys in Hkey. apply Hkey.
    eapply format_dict_no_change_key; eauto. }
  cbn [_format_dict as_dict bind]. unfold _format_dict_node.
  rewrite change_loop_none.
  2:{ intros key Hkey Hck. exfalso. apply (Hnone key Hkey).
      unfold is_change_key in Hck. now apply andb_true_iff in Hck as [Hck _]. }
  cbn [bind]. rewrite pct_loop_none.
  2:{ intros key Hkey Hpk. exfalso. apply (Hnone key Hkey).
      now apply pct_change_is_change. }
  cbn [bind]. rewrite amount_loop_raises; [reflexivity| |].
  - intros k' Hin'. pose proof (format_dict_amount_shape _ _ _ _ _ H Hin') as Hs.
    destruct (get k' d); auto.
  - pose proof (format_dict_amount_shape _ _ _ _ _ H Hin) as Hs.
    unfold mem in Hk. destruct (get k d); [|discriminate].
    destruct Hs as (s & Hs). eauto.
Qed.

Lemma format_dict_not_reentrant_witness :
  exists out,
    _format_dict 1 "USD" (VDict [("BUSINESS_DAY", VNum 1500); ("CUST_CHANGE", VNum 20)])
      = Ok (VDict out) /\
    _format_dict 1 "USD" (VDict out) = Raise TypeError.
Proof.
  set (d := [("BUSINESS_DAY", VNum 1500); ("CUST_CHANGE", VNum 20)]).
  destruct (_format_dict 1 "USD" (VDict d)) as [[| | | | |out]|e] eqn:E;
    try (vm_compute in E; discriminate E).
  exists out. split; [reflexivity|].
  apply (format_dict_not_reentrant 1 0 "USD" d out "BUSINESS_DAY" E).
  - simpl. auto.
  - reflexivity.
Defined.

(* ------------------------------------------------------------------------- *)
(** ** Tree formatter: the order of the sources *)

Lemma get_source_priority_label (pl : list string) (other : string) (src : value)
    (p : prio) :
  get_source_priority pl other src = Ok p ->
  p = label_priority pl other (source_label src).
Proof.
  unfold get_source_priority, label_priority, source_label, field. intros H.
  apply bind_Ok in H as (d & Hd & H). destruct src; try discriminate.
  injection Hd as <-.
  apply bind_Ok in H as (raw & Hraw & H).
  assert (E : raw = match get "SOURCE_MGT_LINE_DESC" items with
                    | Some (VStr s) => s
                    | _ => ""
                    end).
  { destruct (get "SOURCE_MGT_LINE_DESC" items) as [[]|]; try discriminate;
      now injection Hraw as <-. }
  rewrite <- E.
  destruct (assoc (strip raw) (priority_dict pl)); [now injection H as <-|].
  destruct (first_ci _ _); [now injection H as <-|].
  destruct (_ || _); now injection H as <-.
Qed.

Lemma prio_leb_total (p q : prio) : prio_leb p q = true \/ prio_leb q p = true.
Proof.
  destruct p as [n|], q as [m|]; simpl; auto.
  rewrite !Nat.leb_le. lia.
Qed.

Lemma prio_leb_trans (p q r : prio) :
  prio_leb p q = true -> prio_leb q r = true -> prio_leb p r = true.
Proof.
  destruct p as [n|], q as [m|], r as [k|]; simpl; auto; try discriminate.
  rewrite !Nat.leb_le. lia.
Qed.

(** What [sort_significant_sources] returns: the item with its sources
    sorted, for a category that has a priority list, and the item itself
    otherwise. *)
Lemma sort_significant_sources_inv (item item' : value) :
  sort_significant_sources item = Ok item' ->
  (forall K, K <> "SIGNIFICANT_SOURCES" -> field K item' = field K item) /\
  (forall mgt pl,
      desc_of item = Some (VStr mgt) -> assoc mgt source_priority = Some pl ->
      children "SIGNIFICANT_SOURCES" item'
      = sort_by (by_priority pl (other_source mgt))
          (children "SIGNIFICANT_SOURCES" item)) /\
  ((forall mgt pl, desc_of item = Some (VStr mgt) ->
                   assoc mgt source_priority = Some pl -> False) ->
   item' = item).
Proof.
  intros H. unfold sort_significant_sources in H.
  apply bind_Ok in H as (d & Hd & H). destruct item; try discriminate.
  injection Hd as <-.
  apply bind_Ok in H as (k & Hk & H).
  assert (Hsame : item' = VDict items ->
            (forall K, K <> "SIGNIFICANT_SOURCES" ->
                       field K item' = field K (VDict items)) /\
            ((forall mgt pl, desc_of (VDict items) = Some (VStr mgt) ->
                             assoc mgt source_priority = Some pl -> False) ->
             item' = VDict items)).
  { intros ->. auto. }
  destruct k as [mgt|].
  2:{ injection H as <-. destruct (Hsame eq_refl) as [S1 S2].
      split; [exact S1|]. split; [|exact S2].
      intros mgt pl Hdesc. unfold desc_of, field in Hdesc. rewrite Hdesc in Hk.
      discriminate. }
  assert (Hmgt : get "MGT_LINE_DESCRIPTION" items = Some (VStr mgt)).
  { destruct (get "MGT_LINE_DESCRIPTION" items) as [[]|]; try discriminate.
    now injection Hk as <-. }
  destruct (assoc mgt source_priority) as [pl|] eqn:Epl.
  2:{ injection H as <-. destruct (Hsame eq_refl) as [S1 S2].
      split; [exact S1|]. split; [|exact S2].
      intros mgt' pl' Hdesc Hpl'. unfold desc_of, field in Hdesc.
      rewrite Hmgt in Hdesc. injection Hdesc as <-. congruence. }
  assert (Hpure : forall l l',
             sorted_by_key (get_source_priority pl (other_source mgt)) l = Ok l' ->
             l' = sort_by (by_priority pl (other_source mgt)) l).
  { intros l l'.
    apply (sorted_by_key_pure _ (fun s => label_priority pl (other_source mgt)
                                            (source_label s))).
    intros x p. apply get_source_priority_label. }
  assert (Hknown : forall l,
             children "SIGNIFICANT_SOURCES" (VDict items) = l ->
             children "SIGNIFICANT_SOURCES" item'
             = sort_by (by_priority pl (other_source mgt)) l ->
             forall mgt' pl',
               desc_of (VDict items) = Some (VStr mgt') ->
               assoc mgt' source_priority = Some pl' ->
               children "SIGNIFICANT_SOURCES" item'
               = sort_by (by_priority pl' (other_source mgt'))
                   (children "SIGNIFICANT_SOURCES" (VDict items))).
  { intros l <- E mgt' pl' Hdesc Hpl'. unfold desc_of, field in Hdesc.
    rewrite Hmgt in Hdesc. injection Hdesc as <-.
    rewrite Epl in Hpl'. injection Hpl' as <-. exact E. }
  assert (Hnot : (forall mgt' pl', desc_of (VDict items) = Some (VStr mgt') ->
                                   assoc mgt' source_priority = Some pl' -> False) ->
                 item' = VDict items).
  { intros Hno. exfalso. apply (Hno mgt pl); auto. }
  destruct (get "SIGNIFICANT_SOURCES" items) as [v|] eqn:Ev.
  2:{ injection H as <-. split; [auto|]. split; [|exact Hnot].
      apply (Hknown []); unfold children, field; now rewrite Ev. }
  apply bind_Ok in H as (t & Ht & H).
  destruct t.
  - apply bind_Ok in H as (xs & Hxs & H). apply bind_Ok in H as (ys & Hys & H).
    destruct v; try discriminate. injection H as <-. injection Hxs as <-.
    apply Hpure in Hys. subst ys.
    split; [|split; [|exact Hnot]].
    + intros K HK. unfold field. now apply get_set_other.
    + apply (Hknown l); unfold children, field; [now rewrite Ev|].
      now rewrite get_set_same.
  - injection H as <-. split; [auto|]. split; [|exact Hnot].
    assert (El : children "SIGNIFICANT_SOURCES" (VDict items) = []).
    { unfold children, field. rewrite Ev.
      destruct v; try reflexivity. destruct l; [reflexivity | discriminate]. }
    apply (Hknown []); [exact El | now rewrite El].
Qed.

(** X12. [sort_significant_sources] touches nothing but the list of
    sources, which it permutes; for a category that has a priority list it
    sorts the sources by the priority of their labels, sources of equal
    priority staying in their order; an item of any other category is
    returned as it is. *)
Theorem sort_significant_sources_stable (item item' : value) :
  sort_significant_sources item = Ok item' ->
  (forall K, K <> "SIGNIFICANT_SOURCES" -> field K item' = field K item) /\
  Permutation (children "SIGNIFICANT_SOURCES" item')
              (children "SIGNIFICANT_SOURCES" item) /\
  (forall mgt pl,
      desc_of item = Some (VStr mgt) -> assoc mgt source_priority = Some pl ->
      let le := by_priority pl (other_source mgt) in
      children "SIGNIFICANT_SOURCES" item'
        = sort_by le (children "SIGNIFICANT_SOURCES" item) /\
      StronglySorted (fun a b => le a b = true)
                     (children "SIGNIFICANT_SOURCES" item') /\
      forall p, filter (fun s => le s p && le p s)
                       (children "SIGNIFICANT_SOURCES" item')
                = filter (fun s => le s p && le p s)
                         (children "SIGNIFICANT_SOURCES" item)) /\
  ((forall mgt, desc_of item = Some (VStr mgt) -> assoc mgt source_priority = None) ->
   item' = item).
Proof.
  intros H. destruct (sort_significant_sources_inv item item' H) as (Hk & Hs & Hn).
  split; [exact Hk|]. split; [|split].
  - destruct (desc_of item) as [[| | |mgt| |]|] eqn:Ed;
      try (rewrite Hn by (intros; discriminate); reflexivity).
    destruct (assoc mgt source_priority) as [pl|] eqn:Epl.
    + rewrite (Hs mgt pl eq_refl Epl). apply sort_by_perm.
    + rewrite Hn; [reflexivity|]. intros mgt' pl' [= <-]. congruence.
  - intros mgt pl Hd Hpl le. rewrite (Hs mgt pl Hd Hpl). fold le.
    split; [reflexivity|]. split.
    + apply sort_by_le_sorted.
      * intros x y. apply prio_leb_total.
      * intros x y z. apply prio_leb_trans.
    + intros p. apply sort_by_filter.
      intros x y Hx Hy. apply andb_true_iff in Hx as [Hx1 Hx2], Hy as [Hy1 Hy2].
      unfold le, by_priority in *. eapply prio_leb_trans; eauto.
  - intros Hnone. apply Hn. intros mgt pl Hd Hpl. rewrite (Hnone mgt Hd) in Hpl.
    discriminate.
Qed.

Lemma sort_significant_sources_stable_witness :
  exists item',
    sort_significant_sources
      (VDict [ ("MGT_LINE_DESCRIPTION", VStr "Total Assets");
               ("SIGNIFICANT_SOURCES",
                VList (labelled ["Other Assets"; "Cash"; " loans "; "Overdrafts"])) ])
    = Ok item' /\
    map source_label (children "SIGNIFICANT_SOURCES" item')
    = [" loans "; "Overdrafts"; "Cash"; "Other Assets"].
Proof.
  set (item := VDict [ ("MGT_LINE_DESCRIPTION", VStr "Total Assets");
                       ("SIGNIFICANT_SOURCES",
                        VList (labelled ["Other Assets"; "Cash"; " loans ";
                                         "Overdrafts"])) ]).
  destruct (sort_significant_sources item) as [item'|e] eqn:E;
    [|vm_compute in E; discriminate E].
  exists item'. split; [reflexivity|].
  destruct (sort_significant_sources_stable item item' E) as (_ & _ & Hs & _).
  destruct (Hs "Total Assets"
              ["Loans"; "Overdrafts"; "Public  Securities"; "Government Securities"]
              eq_refl eq_refl) as (-> & _).
  reflexivity.
Defined.

(** X13. The priority of a source label under the four priority lists of
    [format_nested_amounts].  The label is compared without surrounding
    white space and without regard to case: a listed name has its position
    in the list, the residual source of the category comes last, and every
    other label comes between them.  Low Cost Deposits precedes High Cost
    Deposits, Public Securities is matched with two spaces only, and the
    residual source of the income category is Other Assets. *)
Theorem source_priority_table (label : string) :
  let assets := ["Loans"; "Overdrafts"; "Public  Securities"; "Government Securities"] in
  let liabilities := ["Low Cost Deposits"; "High Cost Deposits"; "Long Term Borrowings";
                      "Interbank Borrowings"] in
  assoc "Total Assets" source_priority = Some assets /\
  assoc "Total Income" source_priority = Some assets /\
  assoc "Total Liability" source_priority = Some liabilities /\
  assoc "Total Expense" source_priority = Some liabilities /\
  label_priority assets (other_source "Total Assets") label
    = rank_among (map lower assets) "other assets" label /\
  label_priority assets (other_source "Total Income") label
    = rank_among (map lower assets) "other assets" label /\
  label_priority liabilities (other_source "Total Liability") label
    = rank_among (map lower liabilities) "other liabilities" label /\
  label_priority liabilities (other_source "Total Expense") label
    = rank_among (map lower liabilities) "other operating expenses" label.
Proof.
  cbv zeta. do 4 (split; [reflexivity|]).
  unfold label_priority, rank_among.
  remember (strip label) as s eqn:Es. clear Es label.
  assert (L : forall a, String.eqb a s = true -> lower s = lower a).
  { intros a H. apply String.eqb_eq in H. now subst. }
  repeat split.
  all: cbn [other_source contains prefixb Ascii.eqb Bool.eqb andb orb].
  all: change (priority_dict ["Loans"; "Overdrafts"; "Public  Securities";
                              "Government Securities"])
         with [("Loans", 0%nat); ("Overdrafts", 1%nat); ("Public  Securities", 2%nat);
               ("Government Securities", 3%nat)].
  all: change (priority_dict ["Low Cost Deposits"; "High Cost Deposits";
                              "Long Term Borrowings"; "Interbank Borrowings"])
         with [("Low Cost Deposits", 0%nat); ("High Cost Deposits", 1%nat);
               ("Long Term Borrowings", 2%nat); ("Interbank Borrowings", 3%nat)].
  all: cbn [assoc first_ci map position List.length].
  all: repeat match goal with
         | |- context [String.eqb ?a ?x] =>
             is_var x;
             let E := fresh "E" in
             destruct (String.eqb a x) eqn:E;
             [rewrite (L a E); vm_compute; reflexivity|]
         end.
  all: change (lower "Loans") with "loans";
       change (lower "Overdrafts") with "overdrafts";
       change (lower "Public  Securities") with "public  securities";
       change (lower "Government Securities") with "government securities";
       change (lower "Low Cost Deposits") with "low cost deposits";
       change (lower "High Cost Deposits") with "high cost deposits";
       change (lower "Long Term Borrowings") with "long term borrowings";
       change (lower "Interbank Borrowings") with "interbank borrowings".
  all: repeat match goal with
         | |- context [String.eqb ?a (lower ?x)] =>
             let E := fresh "E" in
             destruct (String.eqb a (lower x)) eqn:E; [reflexivity|]
         end.
  all: match goal with
       | |- (if (?x =? strip ?o) || (lower ?x =? strip (lower ?o)) then _ else _) = _ =>
           let o1 := eval vm_compute in (strip o) in
           let o2 := eval vm_compute in (strip (lower o)) in
           change (strip o) with o1; change (strip (lower o)) with o2;
           rewrite (String.eqb_sym x o1), (String.eqb_sym (lower x) o2);
           let Eo := fresh "Eo" in
           destruct (String.eqb o1 x) eqn:Eo;
           [rewrite (L o1 Eo); vm_compute; reflexivity | reflexivity]
       end.
Qed.

(** ** The sources of a formatted tree *)

Lemma Forall2_map_same {A B : Type} (g : A -> B) (l l' : list A) :
  Forall2 (fun x y => g y = g x) l l' -> map g l' = map g l.
Proof. induction 1; simpl; congruence. Qed.

Lemma label_not_written :
  ~ In "SOURCE_MGT_LINE_DESC" direction_keys /\
  ~ In "SOURCE_MGT_LINE_DESC" amount_key_list /\
  ~ In "SOURCE_MGT_LINE_DESC" (map (fun k => k ++ "_FIX") amount_key_list).
Proof.
  repeat split; simpl; intros H;
    repeat (destruct H as [H|H]; [discriminate H|]); exact H.
Qed.

Lemma sources_not_written :
  ~ In "SIGNIFICANT_SOURCES" direction_keys /\
  ~ In "SIGNIFICANT_SOURCES" amount_key_list /\
  ~ In "SIGNIFICANT_SOURCES" (map (fun k => k ++ "_FIX") amount_key_list).
Proof.
  repeat split; simpl; intros H;
    repeat (destruct H as [H|H]; [discriminate H|]); exact H.
Qed.

(** Formatting keeps the label of a node. *)
Lemma format_dict_label (fuel : nat) (c : string) (x y : value) :
  _format_dict fuel c x = Ok y -> source_label y = source_label x.
Proof.
  intros H. destruct (format_dict_is_dict _ _ _ _ H) as (d & o & -> & ->).
  apply format_dict_inv in H as (d1 & out' & Hnode & [= <-] & Hsame).
  unfold source_label, field. rewrite Hsame by discriminate.
  destruct label_not_written as (H1 & H2 & H3).
  now rewrite (node_get_other _ _ _ Hnode _ H1 H2 H3).
Qed.

(** Formatting keeps the source nodes of a node in their order, each with
    its label. *)
Lemma format_dict_sources (fuel : nat) (c : string) (x y : value) :
  _format_dict fuel c x = Ok y ->
  map source_label (children "SIGNIFICANT_SOURCES" y)
  = map source_label (children "SIGNIFICANT_SOURCES" x).
Proof.
  intros H. destruct (format_dict_is_dict _ _ _ _ H) as (d & o & -> & ->).
  destruct fuel as [|n]; [discriminate|]. cbn [_format_dict as_dict bind] in H.
  apply bind_Ok in H as (d1 & Hnode & H). apply bind_Ok in H as (d2 & Hch & H).
  injection H as <-.
  assert (E1 : get "SIGNIFICANT_SOURCES" d1 = get "SIGNIFICANT_SOURCES" d).
  { destruct sources_not_written as (H1 & H2 & H3).
    now rewrite (node_get_other _ _ _ Hnode _ H1 H2 H3). }
  unfold children, field. rewrite <- E1.
  unfold format_children in Hch.
  destruct (get "SIGNIFICANT_SOURCES" d1) as [v|] eqn:Ev.
  2:{ injection Hch as <-. now rewrite Ev. }
  apply bind_Ok in Hch as (xs & Hxs & Hch). apply bind_Ok in Hch as (ys & Hys & Hch).
  destruct v; try (injection Hch as <-; now rewrite Ev).
  injection Hch as <-. injection Hxs as <-. rewrite get_set_same.
  apply Forall2_map_same. apply mapM_Ok_Forall2 in Hys.
  eapply Forall2_impl; [|exact Hys]. cbv beta. intros s s' Hs.
  apply bind_Ok in Hs as (src1 & Hf & Hs). apply bind_Ok in Hs as (s1 & H1 & Hs).
  apply bind_Ok in Hs as (s2 & H2 & Hs). apply bind_Ok in Hs as (s3 & H3 & Hs).
  apply bind_Ok in Hs as (s4 & H4 & Hs). injection Hs as <-.
  rewrite <- (format_dict_label _ _ _ _ Hf).
  destruct src1; try discriminate. injection H1 as <-.
  unfold source_label, field.
  rewrite (format_children_get _ _ _ _ _ H4) by discriminate.
  rewrite (format_children_get _ _ _ _ _ H3) by discriminate.
  now rewrite (format_children_get _ _ _ _ _ H2) by discriminate.
Qed.

Lemma mapM_In {A B : Type} (f : A -> result B) (l : list A) (l' : list B) (y : B) :
  mapM f l = Ok l' -> In y l' -> exists x, In x l /\ f x = Ok y.
Proof.
  intros H. apply mapM_Ok_Forall2 in H.
  induction H as [|a b l r Hab _ IH]; [contradiction|].
  intros [<-|Hy]; [exists a; simpl; auto|].
  destruct (IH Hy) as (x & Hx & Hfx). exists x. simpl; auto.
Qed.

(** X14. In the tree that [format_nested_amounts] returns, every Level-0
    node comes from a node of the input with the same category, and the
    labels of its sources are those of the input node: sorted stably by
    priority when the category has a priority list, in the input order when
    it has none. *)
Theorem format_nested_amounts_sources (tree : list value) (c : string)
    (out : list value) (o : value) :
  format_nested_amounts tree c = Ok out -> In o out ->
  exists t,
    In t tree /\ desc_of o = desc_of t /\
    let labels := map source_label (children "SIGNIFICANT_SOURCES" t) in
    (forall mgt pl,
        desc_of t = Some (VStr mgt) -> assoc mgt source_priority = Some pl ->
        map source_label (children "SIGNIFICANT_SOURCES" o)
        = sort_by (label_leb pl (other_source mgt)) labels) /\
    ((forall mgt, desc_of t = Some (VStr mgt) -> assoc mgt source_priority = None) ->
     map source_label (children "SIGNIFICANT_SOURCES" o) = labels).
Proof.
  intros H Ho. unfold format_nested_amounts in H.
  apply bind_Ok in H as (processed & Hp & H).
  apply bind_Ok in H as (sorted & Hs & H).
  destruct (mapM_In _ _ _ _ H Ho) as (p & Hpin & Hfmt).
  apply (sorted_by_key_In _ _ _ _ Hs) in Hpin.
  destruct (mapM_In _ _ _ _ Hp Hpin) as (t & Ht & Hsort).
  exists t. split; [exact Ht|]. split.
  { rewrite (format_dict_desc _ _ _ _ Hfmt). now apply sort_significant_sources_desc. }
  cbv zeta. rewrite (format_dict_sources _ _ _ _ Hfmt).
  destruct (sort_significant_sources_inv t p Hsort) as (_ & Hknown & Hnone).
  split.
  - intros mgt pl Hd Hpl. rewrite (Hknown mgt pl Hd Hpl).
    symmetry. apply sort_by_map. reflexivity.
  - intros Hno. rewrite Hnone; [reflexivity|].
    intros mgt pl Hd Hpl. rewrite (Hno mgt Hd) in Hpl. discriminate.
Qed.

Lemma format_nested_amounts_sources_witness :
  exists out o,
    format_nested_amounts
      [VDict [ ("MGT_LINE_DESCRIPTION", VStr "Total Liability");
               ("SIGNIFICANT_SOURCES",
                VList (labelled ["Other Liabilities"; "Bonds"; "High Cost Deposits";
                                 "low cost deposits"])) ]] "USD" = Ok out /\
    In o out /\
    map source_label (children "SIGNIFICANT_SOURCES" o)
    = ["low cost deposits"; "High Cost Deposits"; "Bonds"; "Other Liabilities"].
Proof.
  set (t := VDict [ ("MGT_LINE_DESCRIPTION", VStr "Total Liability");
                    ("SIGNIFICANT_SOURCES",
                     VList (labelled ["Other Liabilities"; "Bonds"; "High Cost Deposits";
                                      "low cost deposits"])) ]).
  destruct (format_nested_amounts [t] "USD") as [out|e] eqn:E;
    [|vm_compute in E; discriminate E].
  assert (Hlen : exists o, out = [o]).
  { vm_compute in E. injection E as <-. eauto. }
  destruct Hlen as (o & ->).
  exists [o], o. split; [reflexivity|]. split; [now left|].
  destruct (format_nested_amounts_sources [t] "USD" [o] o E (or_introl eq_refl))
    as (t' & [<-|[]] & _ & Hk & _).
  rewrite (Hk "Total Liability"
             ["Low Cost Deposits"; "High Cost Deposits"; "Long Term Borrowings";
              "Interbank Borrowings"] eq_refl eq_refl).
  reflexivity.
Defined.

(* ------------------------------------------------------------------------- *)
(** ** Column sums *)

Lemma fold_Qplus_acc (l : list Q) (a : Q) :
  fold_left Qplus l a == a + fold_left Qplus l 0.
Proof.
  revert a. induction l as [|x l IH]; intros a; simpl; [lra|].
  rewrite (IH (a + x)), (IH (0 + x)). lra.
Qed.

Lemma col_sum_nil {R : Type} (col : R -> Q) : col_sum col [] = 0.
Proof. reflexivity. Qed.

Lemma col_sum_cons {R : Type} (col : R -> Q) (r : R) (g : list R) :
  col_sum col (r :: g) == col r + col_sum col g.
Proof. unfold col_sum. simpl. rewrite fold_Qplus_acc. lra. Qed.

Lemma col_sum_perm {R : Type} (col : R -> Q) (g h : list R) :
  Permutation g h -> col_sum col g == col_sum col h.
Proof.
  induction 1 as [|x g h _ IH|x y g|g h k _ IH1 _ IH2].
  - reflexivity.
  - rewrite !col_sum_cons, IH. reflexivity.
  - rewrite !col_sum_cons. lra.
  - now rewrite IH1.
Qed.

Lemma col_sum_map {A R : Type} (col : R -> Q) (f : A -> R) (l : list A) :
  col_sum col (map f l) = col_sum (fun x => col (f x)) l.
Proof. unfold col_sum. now rewrite map_map. Qed.

Lemma col_sum_ext {R : Type} (c1 c2 : R -> Q) (g : list R) :
  (forall r, In r g -> c1 r == c2 r) -> col_sum c1 g == col_sum c2 g.
Proof.
  induction g as [|r g IH]; intros H; [reflexivity|].
  rewrite !col_sum_cons.
  assert (E1 : c1 r == c2 r) by (apply H; now left).
  assert (E2 : col_sum c1 g == col_sum c2 g) by (apply IH; intros; apply H; now right).
  lra.
Qed.

Lemma col_sum_nonneg {R : Type} (col : R -> Q) (g : list R) :
  (forall r, In r g -> 0 <= col r) -> 0 <= col_sum col g.
Proof.
  induction g as [|r g IH]; intros H; [rewrite col_sum_nil; lra|].
  rewrite col_sum_cons. specialize (H r (or_introl eq_refl)) as Hr.
  assert (0 <= col_sum col g) by (apply IH; intros; apply H; now right). lra.
Qed.

(** Two predicates that exclude each other split a sum. *)
Lemma col_sum_filter_or {R : Type} (col : R -> Q) (p q : R -> bool) (g : list R) :
  (forall r, In r g -> p r = true -> q r = true -> False) ->
  col_sum col (filter (fun r => p r || q r) g)
  == col_sum col (filter p g) + col_sum col (filter q g).
Proof.
  induction g as [|r g IH]; intros H; simpl filter.
  - rewrite col_sum_nil. lra.
  - assert (IH' := IH (fun r' Hr' => H r' (or_intror Hr'))).
    specialize (H r (or_introl eq_refl)).
    destruct (p r) eqn:Ep, (q r) eqn:Eq; cbn [orb];
      [exfalso; auto | | |]; rewrite ?col_sum_cons, IH'; lra.
Qed.

Lemma col_sum_filter_le {R : Type} (col : R -> Q) (p : R -> bool) (g : list R) :
  (forall r, In r g -> 0 <= col r) ->
  col_sum col (filter p g) <= col_sum col g.
Proof.
  induction g as [|r g IH]; intros H; simpl filter; [lra|].
  assert (IH' := IH (fun r' Hr' => H r' (or_intror Hr'))).
  specialize (H r (or_introl eq_refl)).
  destruct (p r); rewrite ?col_sum_cons; lra.
Qed.

(** ** The groups of a frame partition its keyed rows *)

Section Partition.
Context {R K : Type} `{KeyOk K}.
Variable by_ : R -> option K.
Variable col : R -> Q.

Lemma sorted_NoDup (ks : list K) : StronglySorted klt ks -> NoDup ks.
Proof.
  induction 1 as [|k ks Hs IH Hk]; constructor; auto.
  intros Hin. rewrite Forall_forall in Hk. specialize (Hk k Hin).
  unfold klt in Hk. rewrite (proj2 (kcmp_eq k k) eq_refl) in Hk. discriminate.
Qed.

Lemma group_sums_partition (ks : list K) (df : list R) :
  NoDup ks ->
  col_sum (fun k => col_sum col (filter (has_key by_ k) df)) ks
  == col_sum col (filter (fun r => existsb (fun k => has_key by_ k r) ks) df).
Proof.
  induction 1 as [|k ks Hk Hnd IH].
  - rewrite col_sum_nil. simpl existsb.
    assert (E : filter (fun _ : R => false) df = []).
    { induction df; simpl; auto. }
    rewrite E. reflexivity.
  - rewrite col_sum_cons, IH. simpl existsb.
    rewrite (col_sum_filter_or col (has_key by_ k)
               (fun r => existsb (fun k0 => has_key by_ k0 r) ks)); [reflexivity|].
    intros r _ H1 H2. apply existsb_exists in H2 as (k' & Hin & H2).
    apply has_key_iff in H1, H2. rewrite H1 in H2. injection H2 as <-. auto.
Qed.

(** Summed over all groups, a column gives its sum over the rows that
    have a key. *)
Lemma groupby_sums (df : list R) :
  col_sum (fun kg => col_sum col (snd kg)) (groupby by_ df)
  == col_sum col (filter (fun r => match by_ r with Some _ => true | None => false end) df).
Proof.
  unfold groupby. rewrite col_sum_map. cbn [snd].
  destruct (group_keys_spec by_ df) as [Hs Hk].
  rewrite group_sums_partition by now apply sorted_NoDup.
  assert (E : forall l, (forall r, In r l -> In r df) ->
            filter (fun r => existsb (fun k => has_key by_ k r) (group_keys by_ df)) l
            = filter (fun r => match by_ r with Some _ => true | None => false end) l).
  { intros l Hl. apply filter_ext_in. intros r Hr.
    destruct (by_ r) as [k|] eqn:Ek.
    - apply existsb_exists. exists k. split.
      + apply Hk. exists r. split; auto.
      + now apply has_key_iff.
    - apply not_true_is_false. intros Hex. apply existsb_exists in Hex as (k & _ & Hh).
      apply has_key_iff in Hh. congruence. }
  rewrite E by auto. reflexivity.
Qed.
End Partition.

(* ------------------------------------------------------------------------- *)
(** ** Hierarchy builder: the shape of the tree *)

Lemma StronglySorted_map {A B : Type} (f : A -> B) (R : B -> B -> Prop) (l : list A) :
  StronglySorted (fun x y => R (f x) (f y)) l -> StronglySorted R (map f l).
Proof.
  induction 1 as [|x l Hs IH Hx]; simpl; constructor; auto.
  apply Forall_forall. intros y Hy. apply in_map_iff in Hy as (z & <- & Hz).
  rewrite Forall_forall in Hx. auto.
Qed.

Section BuilderShape.
Import BS.

Lemma build_desc (df : list Row) (E : list string) :
  map desc_of (build_bs_nested_hierarchy df E)
  = map (fun k => Some (VStr k)) (group_keys top_key df).
Proof.
  unfold build_bs_nested_hierarchy, top_level_sums, agg, groupby.
  rewrite !map_map. apply map_ext. intros k.
  unfold desc_of, field. cbn [fst].
  now rewrite mgt_node_get by discriminate.
Qed.

(** X16. The tree has one Level-0 node for each category of the input, in
    ascending order of the category, whatever is excluded: a category whose
    sources are all excluded keeps its node. *)
Theorem build_categories (df : list Row) (E : list string) :
  exists ks,
    map desc_of (build_bs_nested_hierarchy df E) = map (fun k => Some (VStr k)) ks /\
    StronglySorted (fun a b => String.compare a b = Lt) ks /\
    (forall k, In k ks <-> exists r, In r df /\ MGT_LINE_DESCRIPTION r = k).
Proof.
  exists (group_keys top_key df). split; [apply build_desc|].
  destruct (group_keys_spec top_key df) as [Hs Hk]. split; [exact Hs|].
  intros k. rewrite Hk. split; intros (r & Hr & Hkey); exists r; split; auto.
  - now injection Hkey.
  - unfold top_key. now rewrite Hkey.
Qed.

Lemma mgt_node_children (df : list Row) (srcs : list (string * string * string * Sums))
    (lookup : Lookup) (tl : string * Sums) :
  children "SIGNIFICANT_SOURCES" (VDict (mgt_node df srcs lookup tl))
  = map VDict
      (sort_source_records (fst tl)
         (map (source_record df lookup (fst tl))
            (filter (fun x => let '(m, _, _, _) := x in String.eqb m (fst tl)) srcs))).
Proof. unfold children, field, mgt_node. now rewrite get_set_same. Qed.

Lemma sort_source_records_length (mgt : string) (recs : list dict) :
  List.length (sort_source_records mgt recs) = List.length recs.
Proof.
  unfold sort_source_records. destruct (isin mgt asset_liability);
    now rewrite ?length_map, sort_by_length.
Qed.

(** X17. Both source counts of a category, [SOURCES_COUNT] and
    [SIGNIFICANT_SOURCES_COUNT], are the number of its source nodes: the
    sources that are left after the exclusion. *)
Theorem build_source_counts (df : list Row) (E : list string) (t : value) :
  In t (build_bs_nested_hierarchy df E) ->
  let n := inject_Z (Z.of_nat (List.length (children "SIGNIFICANT_SOURCES" t))) in
  field "SOURCES_COUNT" t = Some (VNum n) /\
  field "SIGNIFICANT_SOURCES_COUNT" t = Some (VNum n).
Proof.
  intros Ht. apply build_In in Ht as (tl & _ & ->). cbv zeta.
  rewrite mgt_node_children, length_map, sort_source_records_length, length_map.
  unfold field, mgt_node, sources_count. split.
  - rewrite get_set_other by discriminate. now rewrite get_set_same.
  - rewrite !(get_set_other "SIGNIFICANT_SOURCES_COUNT") by discriminate.
    now rewrite get_set_same.
Qed.

Lemma build_source_counts_witness :
  exists t,
    In t (build_bs_nested_hierarchy two_sources ["Loans"]) /\
    field "SOURCES_COUNT" t = Some (VNum 1) /\
    List.length (children "SIGNIFICANT_SOURCES" t) = 1%nat.
Proof.
  exists (hd VNone (build_bs_nested_hierarchy two_sources ["Loans"])).
  split; [left; reflexivity|]. split; [|reflexivity].
  destruct (build_source_counts two_sources ["Loans"]
              (hd VNone (build_bs_nested_hierarchy two_sources ["Loans"]))
              (or_introl eq_refl)) as [H _].
  exact H.
Defined.

Lemma source_record_no_desc (df : list Row) (lookup : Lookup) (mgt : string)
    (x : string * string * string * Sums) :
  get "MGT_LINE_DESCRIPTION" (source_record df lookup mgt x) = None.
Proof.
  rewrite source_record_get by discriminate.
  destruct x as [[[m s] d] sums]. reflexivity.
Qed.

(** X18. The shape of a source node: it has no category of its own; it has
    the two customer lists exactly when its category is an asset or
    liability category, and the sub-line list exactly when it is an income
    or expense category. *)
Theorem build_source_shape (df : list Row) (E : list string) (t s : value)
    (mgt : string) :
  In t (build_bs_nested_hierarchy df E) ->
  field "MGT_LINE_DESCRIPTION" t = Some (VStr mgt) ->
  In s (children "SIGNIFICANT_SOURCES" t) ->
  let is_list := fun k => match field k s with Some (VList _) => true | _ => false end in
  let absent := fun k => match field k s with None => true | _ => false end in
  field "MGT_LINE_DESCRIPTION" s = None /\
  (if isin mgt asset_liability
   then is_list "POSITIVE_CUSTOMERS" = true /\ is_list "NEGATIVE_CUSTOMERS" = true
   else absent "POSITIVE_CUSTOMERS" = true /\ absent "NEGATIVE_CUSTOMERS" = true) /\
  (if isin mgt income_expense
   then is_list "SIGNIFICANT_MRLS" = true
   else absent "SIGNIFICANT_MRLS" = true).
Proof.
  intros Ht Hmgt Hs.
  apply build_In in Ht as ([mgt0 sums] & Hin & ->).
  unfold field in Hmgt. rewrite mgt_node_get in Hmgt by discriminate.
  injection Hmgt as ->.
  apply mgt_node_sources_exact in Hs as (x & _ & _ & ->). cbn [fst]. cbv zeta.
  set (df' := drop_excluded E df).
  set (rec := source_record df' (customer_lookup df') mgt x).
  assert (Hget : forall K,
             field K (VDict (if isin mgt asset_liability then rec else resort_mrls rec))
             = match get K rec with
               | Some (VList l) =>
                   if isin mgt asset_liability then Some (VList l)
                   else if String.eqb "SIGNIFICANT_MRLS" K
                        then Some (VList (sort_by MRL_abs_desc l)) else Some (VList l)
               | o => o
               end).
  { intros K. unfold field. destruct (isin mgt asset_liability).
    - now destruct (get K rec) as [[]|].
    - rewrite resort_mrls_get.
      destruct (String.eqb "SIGNIFICANT_MRLS" K) eqn:EK.
      + apply String.eqb_eq in EK. subst K.
        now destruct (get "SIGNIFICANT_MRLS" rec) as [[]|].
      + destruct (get "SIGNIFICANT_MRLS" rec) as [[]|];
          now destruct (get K rec) as [[]|]. }
  rewrite !Hget. unfold rec.
  rewrite source_record_no_desc. split; [reflexivity|]. split.
  - destruct (isin mgt asset_liability) eqn:Eal.
    + destruct (source_record_customers df' (customer_lookup df') mgt x Eal) as [-> ->].
      split; reflexivity.
    + destruct (source_record_no_customers df' (customer_lookup df') mgt x Eal) as [-> ->].
      split; reflexivity.
  - destruct (isin mgt income_expense) eqn:Eie.
    + rewrite source_record_mrls by exact Eie.
      now destruct (isin mgt asset_liability).
    + now rewrite source_record_no_mrls by exact Eie.
Qed.

Lemma build_source_shape_witness :
  exists t s,
    In t (build_bs_nested_hierarchy two_sources []) /\
    In s (children "SIGNIFICANT_SOURCES" t) /\
    field "MGT_LINE_DESCRIPTION" s = None /\
    field "POSITIVE_CUSTOMERS" s = None.
Proof.
  set (t := hd VNone (build_bs_nested_hierarchy two_sources [])).
  set (s := hd VNone (children "SIGNIFICANT_SOURCES" t)).
  exists t, s. split; [left; reflexivity|]. split; [left; reflexivity|].
  destruct (build_source_shape two_sources [] t s "Total Income"
              (or_introl eq_refl) eq_refl (or_introl eq_refl)) as (H1 & H2 & _).
  split; [exact H1|]. reflexivity.
Defined.

Lemma abs_desc_total (k : string) (a b : dict) :
  abs_desc k a b = true \/ abs_desc k b a = true.
Proof. unfold abs_desc, Qge_bool. apply Qle_bool_total. Qed.

Lemma abs_desc_trans (k : string) (a b c : dict) :
  abs_desc k a b = true -> abs_desc k b c = true -> abs_desc k a c = true.
Proof. unfold abs_desc, Qge_bool. intros H1 H2. eapply Qle_bool_trans; eauto. Qed.

Lemma resort_mrls_num (k : string) (s : dict) :
  k <> "SIGNIFICANT_MRLS" -> num_field k (resort_mrls s) = num_field k s.
Proof.
  intros Hk. unfold num_field. rewrite resort_mrls_get.
  destruct (get "SIGNIFICANT_MRLS" s) as [[]|]; auto.
  destruct (String.eqb "SIGNIFICANT_MRLS" k) eqn:E; auto.
  apply String.eqb_eq in E. congruence.
Qed.

(** X19. The source nodes of a category come in descending order of the
    absolute value of their change, for an asset or liability category, and
    of their month-to-date amount, for every other category. *)
Theorem build_sources_sorted (df : list Row) (E : list string) (t : value)
    (mgt : string) :
  In t (build_bs_nested_hierarchy df E) ->
  field "MGT_LINE_DESCRIPTION" t = Some (VStr mgt) ->
  let k := if isin mgt asset_liability then "SRC_CHANGE" else "SRC_MTD" in
  StronglySorted (fun a b => Qabs (num_of k b) <= Qabs (num_of k a))
                 (children "SIGNIFICANT_SOURCES" t).
Proof.
  intros Ht Hmgt.
  apply build_In in Ht as ([mgt0 sums] & Hin & ->).
  unfold field in Hmgt. rewrite mgt_node_get in Hmgt by discriminate.
  injection Hmgt as ->. cbv zeta.
  rewrite mgt_node_children. cbn [fst].
  apply StronglySorted_map. cbn [num_of].
  unfold sort_source_records.
  destruct (isin mgt asset_liability).
  - apply StronglySorted_impl with (R1 := fun a b => abs_desc "SRC_CHANGE" a b = true).
    + intros a b. unfold abs_desc, Qge_bool. apply Qle_bool_iff.
    + apply sort_by_le_sorted; [apply abs_desc_total | apply abs_desc_trans].
  - apply StronglySorted_map.
    apply StronglySorted_impl with (R1 := fun a b => abs_desc "SRC_MTD" a b = true).
    + intros a b. rewrite !resort_mrls_num by discriminate.
      unfold abs_desc, Qge_bool. apply Qle_bool_iff.
    + apply sort_by_le_sorted; [apply abs_desc_total | apply abs_desc_trans].
Qed.

Lemma build_sources_sorted_witness :
  exists t,
    In t (build_bs_nested_hierarchy two_sources []) /\
    map (num_of "SRC_MTD") (children "SIGNIFICANT_SOURCES" t) = [75; 30] /\
    StronglySorted (fun a b => Qabs (num_of "SRC_MTD" b) <= Qabs (num_of "SRC_MTD" a))
                   (children "SIGNIFICANT_SOURCES" t).
Proof.
  set (t := hd VNone (build_bs_nested_hierarchy two_sources [])).
  exists t. split; [left; reflexivity|]. split; [reflexivity|].
  exact (build_sources_sorted two_sources [] t "Total Income"
           (or_introl eq_refl) eq_refl).
Defined.

(** ** Hierarchy builder: reconciliation of the levels *)

Lemma source_record_num (df : list Row) (lookup : Lookup) (mgt : string)
    (x : string * string * string * Sums) :
  num_field "BUSINESS_DAY" (source_record df lookup mgt x) = sum_BUSINESS_DAY (snd x) /\
  num_field "PREVIOUS_DAY" (source_record df lookup mgt x) = sum_PREVIOUS_DAY (snd x) /\
  num_field "SRC_MTD" (source_record df lookup mgt x) = sum_MTD (snd x).
Proof.
  unfold num_field. rewrite !source_record_get by discriminate.
  destruct x as [[[m s] d] sums]. repeat split; reflexivity.
Qed.

Lemma children_sum (df : list Row) (srcs : list (string * string * string * Sums))
    (lookup : Lookup) (tl : string * Sums) (k : string)
    (col : Sums -> Q) :
  k <> "SIGNIFICANT_MRLS" ->
  (forall x, num_field k (source_record df lookup (fst tl) x) = col (snd x)) ->
  col_sum (num_of k) (children "SIGNIFICANT_SOURCES" (VDict (mgt_node df srcs lookup tl)))
  == col_sum (fun x => col (snd x))
       (filter (fun x => let '(m, _, _, _) := x in String.eqb m (fst tl)) srcs).
Proof.
  intros Hk Hcol. rewrite mgt_node_children, col_sum_map. cbn [num_of].
  unfold sort_source_records. destruct (isin (fst tl) asset_liability).
  - rewrite (col_sum_perm _ _ _ (sort_by_perm _ _)), col_sum_map.
    apply col_sum_ext. intros x _. now rewrite Hcol.
  - rewrite col_sum_map, (col_sum_perm _ _ _ (sort_by_perm _ _)), col_sum_map.
    apply col_sum_ext. intros x _. now rewrite resort_mrls_num, Hcol.
Qed.

Lemma filter_map_fst {A B C : Type} (f : A -> B) (g : A -> C) (p : B -> bool) (l : list A) :
  filter (fun x => p (fst x)) (map (fun a => (f a, g a)) l)
  = map (fun a => (f a, g a)) (filter (fun a => p (f a)) l).
Proof. induction l as [|a l IH]; simpl; auto. destruct (p (f a)); simpl; congruence. Qed.

Lemma has_top_key (mgt : string) (r : Row) :
  has_key top_key mgt r = String.eqb (MGT_LINE_DESCRIPTION r) mgt.
Proof.
  unfold has_key, top_key, keqb. cbn [kcmp string_Key].
  destruct (String.eqb (MGT_LINE_DESCRIPTION r) mgt) eqn:Em.
  - apply String.eqb_eq in Em. rewrite Em. now rewrite string_compare_refl.
  - destruct (String.compare (MGT_LINE_DESCRIPTION r) mgt) eqn:Ec; auto.
    apply String.compare_eq_iff in Ec. subst.
    now rewrite String.eqb_refl in Em.
Qed.

(** The sums of the sources of a category add up to the sum over the rows
    of the category. *)
Lemma source_sums_total (df : list Row) (mgt : string) (col : Row -> Q) :
  col_sum (fun x => col_sum col (rows src_key (fst x) df))
    (filter (fun x : string * string * string * Sums =>
               let '(m, _, _, _) := x in String.eqb m mgt) (source_sums df))
  == col_sum col (rows top_key mgt df).
Proof.
  unfold source_sums, agg, groupby. rewrite map_map. cbn [fst snd].
  set (p := fun k : string * string * string => String.eqb (fst (fst k)) mgt).
  assert (E1 : filter (fun x : string * string * string * Sums =>
                         let '(m, _, _, _) := x in String.eqb m mgt)
                 (map (fun k => (k, sums_of (filter (has_key src_key k) df)))
                    (group_keys src_key df))
               = map (fun k => (k, sums_of (filter (has_key src_key k) df)))
                   (filter p (group_keys src_key df))).
  { rewrite <- (filter_map_fst (fun k => k) _ p).
    apply filter_ext. now intros [[[m s] d] sums]. }
  rewrite E1, col_sum_map. cbn [fst]. unfold rows.
  destruct (group_keys_spec src_key df) as [Hs Hk].
  rewrite (group_sums_partition src_key col).
  2:{ apply NoDup_filter. now apply sorted_NoDup. }
  assert (E2 : filter (fun r => existsb (fun k => has_key src_key k r)
                                  (filter p (group_keys src_key df))) df
               = filter (has_key top_key mgt) df).
  { apply filter_ext_in. intros r Hr. rewrite has_top_key.
    destruct (String.eqb (MGT_LINE_DESCRIPTION r) mgt) eqn:Em.
    - apply existsb_exists.
      exists (MGT_LINE_DESCRIPTION r, SOURCE_MGT_LINE r, SOURCE_MGT_LINE_DESC r). split.
      + apply filter_In. split; [|exact Em]. apply Hk. exists r. split; auto.
      + now apply has_key_iff.
    - apply not_true_is_false. intros Hex.
      apply existsb_exists in Hex as (k & Hin & Hh).
      apply filter_In in Hin as [_ Hp]. apply has_key_iff in Hh.
      unfold src_key in Hh. injection Hh as <-. unfold p in Hp. cbn [fst] in Hp.
      congruence. }
  rewrite E2. reflexivity.
Qed.

Lemma source_sums_rows (df : list Row) (x : string * string * string * Sums) :
  In x (source_sums df) -> snd x = sums_of (rows src_key (fst x) df).
Proof.
  destruct x as [k s]. intros H. apply (agg_spec src_key df) in H as [-> _].
  reflexivity.
Qed.

(** X20. The current, prior and month-to-date amounts of the source nodes
    of a category add up to the sums over the rows of the category that
    are not excluded; with nothing excluded they add up to the amounts of
    the category itself. *)
Theorem build_sources_reconcile (df : list Row) (E : list string) (t : value)
    (mgt : string) :
  In t (build_bs_nested_hierarchy df E) ->
  field "MGT_LINE_DESCRIPTION" t = Some (VStr mgt) ->
  let kept := rows top_key mgt (drop_excluded E df) in
  let sources := children "SIGNIFICANT_SOURCES" t in
  (col_sum (num_of "BUSINESS_DAY") sources == col_sum BUSINESS_DAY kept /\
   col_sum (num_of "PREVIOUS_DAY") sources == col_sum PREVIOUS_DAY kept /\
   col_sum (num_of "SRC_MTD") sources == col_sum MTD kept) /\
  (E = [] ->
   col_sum (num_of "BUSINESS_DAY") sources == num_of "BUSINESS_DAY" t /\
   col_sum (num_of "PREVIOUS_DAY") sources == num_of "PREVIOUS_DAY" t /\
   col_sum (num_of "SRC_MTD") sources == num_of "TL_MTD" t).
Proof.
  intros Ht Hmgt.
  apply build_In in Ht as ([mgt0 sums] & Hin & ->).
  unfold field in Hmgt. rewrite mgt_node_get in Hmgt by discriminate.
  injection Hmgt as ->. cbv zeta.
  set (df' := drop_excluded E df).
  assert (Hsum : forall (k : string) (col : Sums -> Q) (rcol : Row -> Q),
             k <> "SIGNIFICANT_MRLS" ->
             (forall x, num_field k (source_record df' (customer_lookup df') mgt x)
                        = col (snd x)) ->
             (forall g, col (sums_of g) = col_sum rcol g) ->
             col_sum (num_of k)
               (children "SIGNIFICANT_SOURCES"
                  (VDict (mgt_node df' (source_sums df') (customer_lookup df') (mgt, sums))))
             == col_sum rcol (rows top_key mgt df')).
  { intros k col rcol Hk Hrec Hcol.
    rewrite (children_sum df' _ _ (mgt, sums) k col Hk Hrec). cbn [fst].
    rewrite <- (source_sums_total df' mgt rcol).
    apply col_sum_ext. intros x Hx. apply filter_In in Hx as [Hx _].
    rewrite (source_sums_rows df' x Hx), Hcol. reflexivity. }
  assert (H3 : col_sum (num_of "BUSINESS_DAY")
                 (children "SIGNIFICANT_SOURCES"
                    (VDict (mgt_node df' (source_sums df') (customer_lookup df') (mgt, sums))))
               == col_sum BUSINESS_DAY (rows top_key mgt df') /\
               col_sum (num_of "PREVIOUS_DAY")
                 (children "SIGNIFICANT_SOURCES"
                    (VDict (mgt_node df' (source_sums df') (customer_lookup df') (mgt, sums))))
               == col_sum PREVIOUS_DAY (rows top_key mgt df') /\
               col_sum (num_of "SRC_MTD")
                 (children "SIGNIFICANT_SOURCES"
                    (VDict (mgt_node df' (source_sums df') (customer_lookup df') (mgt, sums))))
               == col_sum MTD (rows top_key mgt df')).
  { split; [|split].
    - apply (Hsum "BUSINESS_DAY" sum_BUSINESS_DAY BUSINESS_DAY); [discriminate| |reflexivity].
      intros x. apply source_record_num.
    - apply (Hsum "PREVIOUS_DAY" sum_PREVIOUS_DAY PREVIOUS_DAY); [discriminate| |reflexivity].
      intros x. apply source_record_num.
    - apply (Hsum "SRC_MTD" sum_MTD MTD); [discriminate| |reflexivity].
      intros x. apply source_record_num. }
  split; [exact H3|].
  intros ->. apply (agg_spec top_key df) in Hin as [-> _].
  assert (Ed : df' = df).
  { unfold df', drop_excluded. simpl. clear. induction df; simpl; congruence. }
  rewrite Ed in H3. destruct H3 as (B & P & M).
  unfold num_of at 2 4 6, num_field.
  rewrite !mgt_node_get by discriminate. cbn [tl_record get String.eqb Ascii.eqb Bool.eqb].
  rewrite Ed. auto.
Qed.

Lemma build_sources_reconcile_witness :
  exists t,
    In t (build_bs_nested_hierarchy two_sources []) /\
    col_sum (num_of "BUSINESS_DAY") (children "SIGNIFICANT_SOURCES" t)
    == num_of "BUSINESS_DAY" t.
Proof.
  set (t := hd VNone (build_bs_nested_hierarchy two_sources [])).
  exists t. split; [left; reflexivity|].
  destruct (build_sources_reconcile two_sources [] t "Total Income"
              (or_introl eq_refl) eq_refl) as [_ H].
  destruct (H eq_refl) as [Hb _]. exact Hb.
Defined.

(** X21. A significant sub-line carries the label of the first row of its
    sub-line among the rows that are not excluded; the fallback label "-"
    is never needed. *)
Theorem build_mrl_description (df : list Row) (E : list string) (t s m : value)
    (mgt src mrl : string) :
  In t (build_bs_nested_hierarchy df E) ->
  field "MGT_LINE_DESCRIPTION" t = Some (VStr mgt) ->
  In s (children "SIGNIFICANT_SOURCES" t) ->
  field "SOURCE_MGT_LINE" s = Some (VStr src) ->
  In m (children "SIGNIFICANT_MRLS" s) ->
  field "MRL_LINE" m = Some (VStr mrl) ->
  exists r rest,
    rows mrl_key (mgt, src, mrl) (drop_excluded E df) = r :: rest /\
    field "MRL_DESCRIPTION" m = Some (VStr (MRL_DESCRIPTION r)).
Proof.
  intros Ht Hmgt Hs Hsrc Hm Hmrl.
  apply build_In in Ht as ([mgt0 sums] & Hin & ->).
  unfold field in Hmgt. rewrite mgt_node_get in Hmgt by discriminate.
  injection Hmgt as ->.
  apply mgt_node_sources in Hs as (s' & x & -> & Hx & Hfst & Hk & Hp).
  cbn [fst] in *.
  destruct x as [[[m0 src0] desc] ssums]. cbn [fst] in Hfst. subst m0.
  assert (Esrc : src0 = src).
  { unfold field in Hsrc. rewrite Hk, source_record_get in Hsrc by discriminate.
    now injection Hsrc. }
  subst src0.
  apply (Permutation_in _ Hp) in Hm. rewrite source_children_mrls in Hm.
  destruct (isin mgt income_expense); [|contradiction]. cbn [fst snd] in Hm.
  rewrite significant_mrls_eq in Hm.
  apply in_map_iff in Hm as ([[[m1 s1] mrl1] msums] & <- & Hy).
  apply firstn_In, sort_by_In, filter_In in Hy as [Hy _].
  unfold mrls_of in Hy. apply filter_In in Hy as [Hy Hms].
  apply andb_true_iff in Hms as [E1 E2]. apply String.eqb_eq in E1, E2. subst m1 s1.
  assert (Emrl : mrl1 = mrl) by (cbn in Hmrl; now injection Hmrl).
  subst mrl1.
  apply (agg_spec mrl_key (drop_excluded E df)) in Hy as [_ (r0 & Hr0 & Hkey)].
  unfold described, mrl_description_lookup, rows.
  destruct (filter (has_key mrl_key (mgt, src, mrl)) (drop_excluded E df))
    as [|r rest] eqn:Ef.
  - exfalso.
    assert (Hin0 : In r0 (filter (has_key mrl_key (mgt, src, mrl)) (drop_excluded E df))).
    { apply filter_In. split; auto. now apply has_key_iff. }
    now rewrite Ef in Hin0.
  - exists r, rest. split; reflexivity.
Qed.

Lemma build_mrl_description_witness :
  exists t s m,
    In t (build_bs_nested_hierarchy two_sources []) /\
    In s (children "SIGNIFICANT_SOURCES" t) /\
    In m (children "SIGNIFICANT_MRLS" s) /\
    field "MRL_DESCRIPTION" m = Some (VStr "Fees").
Proof.
  set (t := hd VNone (build_bs_nested_hierarchy two_sources [])).
  set (s := hd VNone (children "SIGNIFICANT_SOURCES" t)).
  set (m := hd VNone (children "SIGNIFICANT_MRLS" s)).
  exists t, s, m.
  split; [left; reflexivity|]. split; [left; reflexivity|]. split; [left; reflexivity|].
  destruct (build_mrl_description two_sources [] t s m "Total Income" "S2" "M2"
              (or_introl eq_refl) eq_refl (or_introl eq_refl) eq_refl
              (or_introl eq_refl) eq_refl) as (r & rest & Hr & Hd).
  vm_compute in Hr. injection Hr as <- _. exact Hd.
Defined.

Lemma format_build_returns_witness :
  exists out,
    format_nested_amounts (build_bs_nested_hierarchy two_sources []) "USD" = Ok out /\
    map desc_of out = [Some (VStr "Total Income")].
Proof.
  destruct (format_build_returns two_sources [] "USD") as (out & Hout & Hd).
  - intros r1 r2 H1 H2 Hm Hs. simpl in H1, H2.
    destruct H1 as [<-|[<-|[<-|[]]]], H2 as [<-|[<-|[<-|[]]]];
      try reflexivity; discriminate Hs.
  - exists out. split; [exact Hout|]. rewrite Hd. reflexivity.
Defined.
End BuilderShape.

(* ------------------------------------------------------------------------- *)
(** ** Leakage aggregator: totals *)

Section LeakageTotals.
Import RA.

Lemma nansum_amount (col : Row -> option Q) (g : list Row) :
  nansum col g == col_sum (amount_or_zero col) g.
Proof.
  unfold nansum. induction g as [|r g IH]; [reflexivity|].
  rewrite col_sum_cons. simpl flat_map. unfold amount_or_zero at 1.
  destruct (col r) as [q|]; simpl app.
  - simpl fold_left. rewrite fold_Qplus_acc, IH. lra.
  - rewrite IH. lra.
Qed.

Lemma leakage_cases (df : list Row) (l : Leakage) :
  l = fst (get_overcharge_and_undercharge_aggregations df)
  \/ l = snd (get_overcharge_and_undercharge_aggregations df) ->
  exists bal, l = leakage_of (leakage_rows bal df).
Proof. intros [-> | ->]; [exists 208%Z | exists 207%Z]; reflexivity. Qed.

Lemma leakage_rows_nonneg (bal : Z) (df : list Row) (r : Row) :
  In r (leakage_rows bal df) ->
  0 <= amount_or_zero BUSINESS_DAY r /\ 0 <= amount_or_zero MTD r.
Proof.
  unfold leakage_rows. intros H. apply filter_In in H as [H _].
  apply in_map_iff in H as (r0 & <- & _). unfold amount_or_zero, abs_amounts. cbn.
  destruct (BUSINESS_DAY r0), (MTD r0); cbn; split;
    try apply Qabs_nonneg; apply Qle_refl.
Qed.

Lemma nansum_nonneg (col : Row -> option Q) (g : list Row) :
  (forall r, In r g -> 0 <= amount_or_zero col r) -> 0 <= nansum col g.
Proof. intros H. rewrite nansum_amount. now apply col_sum_nonneg. Qed.

Lemma nansum_filter_le (col : Row -> option Q) (p : Row -> bool) (g : list Row) :
  (forall r, In r g -> 0 <= amount_or_zero col r) ->
  nansum col (filter p g) <= nansum col g.
Proof. intros H. rewrite !nansum_amount. now apply col_sum_filter_le. Qed.

(** The sum over a part of the rows of a leakage type lies between 0 and
    the total. *)
Lemma leakage_part_bounds (bal : Z) (df : list Row) (p : Row -> bool) :
  let ldf := leakage_rows bal df in
  (0 <= nansum BUSINESS_DAY (filter p ldf) <= fst (totals (leakage_of ldf))) /\
  (0 <= nansum MTD (filter p ldf) <= snd (totals (leakage_of ldf))).
Proof.
  cbv zeta. cbn [totals leakage_of _build_totals fst snd].
  assert (Hrow := leakage_rows_nonneg bal df).
  repeat split.
  - apply nansum_nonneg. intros r Hr. apply filter_In in Hr as [Hr _]. now apply Hrow.
  - apply nansum_filter_le. intros r Hr. now apply Hrow.
  - apply nansum_nonneg. intros r Hr. apply filter_In in Hr as [Hr _]. now apply Hrow.
  - apply nansum_filter_le. intros r Hr. now apply Hrow.
Qed.

Lemma sbu_totals_In (ldf : list Row) (x : string * (Q * Q)) :
  In x (sbu_totals (leakage_of ldf)) ->
  exists k, sbu_BUSINESS_DAY x = nansum BUSINESS_DAY (filter (has_key SBU_DESCRIPTION k) ldf)
            /\ sbu_MTD x = nansum MTD (filter (has_key SBU_DESCRIPTION k) ldf).
Proof.
  intros Hx. cbn [sbu_totals leakage_of] in Hx.
  apply in_map_iff in Hx as ([k g] & <- & Hin).
  apply (groupby_spec SBU_DESCRIPTION ldf) in Hin as [-> _].
  exists k. split; reflexivity.
Qed.

Lemma top_soc_In (ldf : list Row) (x : SocRow) :
  In x (top_soc (leakage_of ldf)) ->
  exists k, soc_BUSINESS_DAY x = nansum BUSINESS_DAY (filter (has_key soc_key k) ldf)
            /\ soc_MTD x = nansum MTD (filter (has_key soc_key k) ldf).
Proof.
  intros Hx. cbn [top_soc leakage_of] in Hx. unfold _top_soc in Hx.
  apply firstn_In, sort_by_In in Hx. unfold soc_aggregated in Hx.
  apply in_map_iff in Hx as ([k g] & <- & Hin).
  apply (groupby_spec soc_key ldf) in Hin as [-> _].
  exists k. split; reflexivity.
Qed.

(** X22. Every amount of the result is a magnitude: the totals, the
    segment totals, the amounts of the top groups and the detail amounts
    are all non-negative, whatever the signs of the input. *)
Theorem leakage_amounts_nonneg (df : list Row) (l : Leakage) :
  l = fst (get_overcharge_and_undercharge_aggregations df)
  \/ l = snd (get_overcharge_and_undercharge_aggregations df) ->
  (0 <= fst (totals l) /\ 0 <= snd (totals l)) /\
  (forall x, In x (sbu_totals l) -> 0 <= sbu_BUSINESS_DAY x /\ 0 <= sbu_MTD x) /\
  (forall x, In x (top_soc l) -> 0 <= soc_BUSINESS_DAY x /\ 0 <= soc_MTD x) /\
  (forall q, In q (agg_details l) -> 0 <= q).
Proof.
  intros Hl. destruct (leakage_cases df l Hl) as (bal & ->).
  set (ldf := leakage_rows bal df).
  assert (Htop : forall x, In x (top_soc (leakage_of ldf)) ->
                           0 <= soc_BUSINESS_DAY x /\ 0 <= soc_MTD x).
  { intros x Hx. destruct (top_soc_In ldf x Hx) as (k & -> & ->).
    split; apply (leakage_part_bounds bal df). }
  split; [|split; [|split]].
  - cbn [totals leakage_of _build_totals fst snd].
    split; apply nansum_nonneg; intros r Hr; now apply (leakage_rows_nonneg bal df).
  - intros x Hx. destruct (sbu_totals_In ldf x Hx) as (k & -> & ->).
    split; apply (leakage_part_bounds bal df).
  - exact Htop.
  - intros q Hq. cbn [agg_details leakage_of] in Hq.
    apply in_map_iff in Hq as (x & <- & Hx). now apply Htop.
Qed.

Lemma leakage_amounts_nonneg_witness :
  0 <= fst (totals (fst (get_overcharge_and_undercharge_aggregations
                           (soc_example [("A", -10, 5)])))).
Proof.
  apply (leakage_amounts_nonneg (soc_example [("A", -10, 5)])). now left.
Defined.

(** X23. The segment totals add up to the total over the rows that have a
    segment, so to no more than the overall total, and to exactly the
    overall total when every row has one; no segment and no top group
    exceeds the overall total. *)
Theorem leakage_totals_reconcile (df : list Row) (l : Leakage) (bal : Z) :
  (bal = 208%Z /\ l = fst (get_overcharge_and_undercharge_aggregations df))
  \/ (bal = 207%Z /\ l = snd (get_overcharge_and_undercharge_aggregations df)) ->
  let ldf := leakage_rows bal df in
  (col_sum sbu_BUSINESS_DAY (sbu_totals l)
     == nansum BUSINESS_DAY (filter has_segment ldf) /\
   col_sum sbu_MTD (sbu_totals l) == nansum MTD (filter has_segment ldf)) /\
  (col_sum sbu_BUSINESS_DAY (sbu_totals l) <= fst (totals l) /\
   col_sum sbu_MTD (sbu_totals l) <= snd (totals l)) /\
  (forallb has_segment ldf = true ->
   col_sum sbu_BUSINESS_DAY (sbu_totals l) == fst (totals l) /\
   col_sum sbu_MTD (sbu_totals l) == snd (totals l)) /\
  (forall x, In x (sbu_totals l) ->
             sbu_BUSINESS_DAY x <= fst (totals l) /\ sbu_MTD x <= snd (totals l)) /\
  (forall x, In x (top_soc l) ->
             soc_BUSINESS_DAY x <= fst (totals l) /\ soc_MTD x <= snd (totals l)).
Proof.
  intros Hl ldf.
  assert (El : l = leakage_of ldf).
  { destruct Hl as [[-> ->]|[-> ->]]; reflexivity. }
  subst l.
  assert (Hsum : forall col : Row -> option Q,
             col_sum (fun kg : string * list Row => nansum col (snd kg))
                     (groupby SBU_DESCRIPTION ldf)
             == nansum col (filter has_segment ldf)).
  { intros col. rewrite nansum_amount.
    rewrite <- (groupby_sums SBU_DESCRIPTION (amount_or_zero col) ldf).
    apply col_sum_ext. intros kg _. apply nansum_amount. }
  assert (Hb : col_sum sbu_BUSINESS_DAY (sbu_totals (leakage_of ldf))
               == nansum BUSINESS_DAY (filter has_segment ldf)).
  { cbn [sbu_totals leakage_of]. rewrite col_sum_map.
    unfold sbu_BUSINESS_DAY. cbn [fst snd]. apply Hsum. }
  assert (Hm : col_sum sbu_MTD (sbu_totals (leakage_of ldf))
               == nansum MTD (filter has_segment ldf)).
  { cbn [sbu_totals leakage_of]. rewrite col_sum_map.
    unfold sbu_MTD. cbn [fst snd]. apply Hsum. }
  split; [split; assumption|]. split; [|split; [|split]].
  - rewrite Hb, Hm. split; apply (leakage_part_bounds bal df).
  - intros Hall. rewrite Hb, Hm.
    assert (E : filter has_segment ldf = ldf).
    { rewrite forallb_forall in Hall. clear - Hall.
      induction ldf as [|r g IH]; simpl; auto.
      rewrite (Hall r) by (simpl; auto). f_equal. apply IH.
      intros x Hx. apply Hall. now right. }
    rewrite E. cbn [totals leakage_of _build_totals fst snd]. split; reflexivity.
  - intros x Hx. destruct (sbu_totals_In ldf x Hx) as (k & -> & ->).
    split; apply (leakage_part_bounds bal df).
  - intros x Hx. destruct (top_soc_In ldf x Hx) as (k & -> & ->).
    split; apply (leakage_part_bounds bal df).
Qed.

Lemma leakage_totals_reconcile_witness :
  col_sum sbu_BUSINESS_DAY
    (sbu_totals (fst (get_overcharge_and_undercharge_aggregations
                        (soc_example [("A", 10, 5); ("B", 7, 1)]))))
  <= fst (totals (fst (get_overcharge_and_undercharge_aggregations
                         (soc_example [("A", 10, 5); ("B", 7, 1)])))).
Proof.
  apply (leakage_totals_reconcile (soc_example [("A", 10, 5); ("B", 7, 1)]) _ 208).
  left. split; reflexivity.
Defined.

Lemma leakage_rows_counted (bal : Z) (df : list Row) :
  leakage_rows bal df = map abs_amounts (filter (counted bal) df).
Proof.
  unfold leakage_rows. rewrite filter_map_comm, filter_andb. reflexivity.
Qed.

(** X24. Each result is computed from the local-currency rows of its own
    balance type only, 208 for overcharge and 207 for undercharge: every
    other row can be dropped from the input without changing it, and no
    row counts for both. *)
Theorem leakage_rows_used (df : list Row) :
  fst (get_overcharge_and_undercharge_aggregations df)
  = fst (get_overcharge_and_undercharge_aggregations (filter (counted 208) df)) /\
  snd (get_overcharge_and_undercharge_aggregations df)
  = snd (get_overcharge_and_undercharge_aggregations (filter (counted 207) df)) /\
  forall r, counted 208 r = true -> counted 207 r = true -> False.
Proof.
  assert (E : forall bal, leakage_rows bal (filter (counted bal) df) = leakage_rows bal df).
  { intros bal. rewrite !leakage_rows_counted. f_equal.
    rewrite filter_andb. apply filter_ext. intros r. apply andb_diag. }
  split; [|split].
  - change (leakage_of (leakage_rows 208 df)
            = leakage_of (leakage_rows 208 (filter (counted 208) df))).
    now rewrite E.
  - change (leakage_of (leakage_rows 207 df)
            = leakage_of (leakage_rows 207 (filter (counted 207) df))).
    now rewrite E.
  - unfold counted. intros r H1 H2.
    apply andb_true_iff in H1 as [_ H1], H2 as [_ H2].
    apply Z.eqb_eq in H1, H2. congruence.
Qed.
End LeakageTotals.

(* ------------------------------------------------------------------------- *)
(** ** Segment summary agent *)

Section SegmentShares.
Import RA Segment.

Lemma extreme_In {A : Type} (beats : Q -> Q -> bool) (key : A -> Q) (x : A) (l : list A) :
  In (extreme beats key x l) (x :: l).
Proof.
  revert x. induction l as [|y r IH]; intros x; simpl; auto.
  destruct (IH (if beats (key y) (key x) then y else x)) as [H|H]; auto.
  destruct (beats (key y) (key x)); auto.
Qed.

Lemma max_item_ge {A : Type} (key : A -> Q) (x : A) (l : list A) (y : A) :
  In y (x :: l) -> key y <= key (max_item key x l).
Proof.
  unfold max_item.
  assert (G : forall l x, key x <= key (extreme (fun a b => Qlt_bool b a) key x l) /\
                          forall y, In y l ->
                                    key y <= key (extreme (fun a b => Qlt_bool b a) key x l)).
  { clear. induction l as [|z r IH]; intros x; simpl.
    - split; [apply Qle_refl | tauto].
    - destruct (IH (if Qlt_bool (key x) (key z) then z else x)) as [H1 H2].
      destruct (Qlt_bool (key x) (key z)) eqn:E.
      + apply Qlt_bool_iff in E. split; [lra|]. intros y [<-|Hy]; auto.
      + assert (key z <= key x).
        { apply Qnot_lt_le. intros Hlt. apply Qlt_bool_iff in Hlt. congruence. }
        split; auto. intros y [<-|Hy]; auto. lra. }
  intros [<-|Hy]; [apply (proj1 (G l x)) | apply (proj2 (G l x)); exact Hy].
Qed.

Lemma min_item_le {A : Type} (key : A -> Q) (x : A) (l : list A) (y : A) :
  In y (x :: l) -> key (min_item key x l) <= key y.
Proof.
  unfold min_item.
  assert (G : forall l x, key (extreme (fun a b => Qlt_bool a b) key x l) <= key x /\
                          forall y, In y l ->
                                    key (extreme (fun a b => Qlt_bool a b) key x l) <= key y).
  { clear. induction l as [|z r IH]; intros x; simpl.
    - split; [apply Qle_refl | tauto].
    - destruct (IH (if Qlt_bool (key z) (key x) then z else x)) as [H1 H2].
      destruct (Qlt_bool (key z) (key x)) eqn:E.
      + apply Qlt_bool_iff in E. split; [lra|]. intros y [<-|Hy]; auto.
      + assert (key x <= key z).
        { apply Qnot_lt_le. intros Hlt. apply Qlt_bool_iff in Hlt. congruence. }
        split; auto. intros y [<-|Hy]; auto. lra. }
  intros [<-|Hy]; [apply (proj1 (G l x)) | apply (proj2 (G l x)); exact Hy].
Qed.

Lemma share_bounds (x y t : Q) :
  0 <= x -> x <= y -> y <= t ->
  0 <= share x t /\ share x t <= share y t /\ share y t <= 100.
Proof.
  intros H0 Hxy Hyt. unfold share. destruct (Qlt_bool 0 t) eqn:E.
  - apply Qlt_bool_iff in E.
    assert (D : forall a, a / t * 100 == a * (100 / t)).
    { intros a. field. lra. }
    assert (P : 0 < 100 / t) by (apply Qlt_shift_div_l; lra).
    assert (U : t * (100 / t) == 100) by (field; lra).
    rewrite !D. split; [|split].
    + apply Qmult_le_0_compat; lra.
    + apply Qmult_le_compat_r; lra.
    + apply Qle_trans with (t * (100 / t)); [apply Qmult_le_compat_r; lra|].
      rewrite U. apply Qle_refl.
  - split; [|split]; lra.
Qed.

(** X25. The segment figures that [agent_overall_summary] derives from a
    result of the aggregator: the highest and the lowest segment are
    segments of the result, every segment amount lies between theirs, and
    their shares of the day's total lie between 0 and 100 percent.  With
    no segment, both are the placeholder ["N/A"] with the amount 0 and
    the share 0. *)
Theorem segment_shares_bounded (df : list Row) (l : Leakage) :
  l = fst (get_overcharge_and_undercharge_aggregations df)
  \/ l = snd (get_overcharge_and_undercharge_aggregations df) ->
  let s := shares l in
  0 <= min_pct s /\ min_pct s <= max_pct s /\ max_pct s <= 100 /\
  min_val s <= snd (max_sbu s) /\
  (sbu_totals l <> [] ->
   (exists b m, In (fst (max_sbu s), (b, m)) (sbu_totals l) /\ snd (max_sbu s) = b) /\
   (exists b m, In (fst (min_sbu s), (b, m)) (sbu_totals l) /\ snd (min_sbu s) = b) /\
   forall x, In x (sbu_totals l) ->
             min_val s <= sbu_BUSINESS_DAY x <= snd (max_sbu s)) /\
  (sbu_totals l = [] ->
   max_sbu s = ("N/A", 0) /\ min_sbu s = ("N/A", 0) /\ min_val s = 0 /\
   max_pct s == 0 /\ min_pct s == 0).
Proof.
  intros Hl.
  assert (Hb : forall x, In x (sbu_totals l) ->
                         0 <= sbu_BUSINESS_DAY x <= fst (totals l)).
  { destruct (leakage_cases df l Hl) as (bal & ->). intros x Hx.
    destruct (sbu_totals_In _ x Hx) as (k & -> & _).
    apply (leakage_part_bounds bal df). }
  assert (Ht : 0 <= fst (totals l)).
  { destruct (leakage_cases df l Hl) as (bal & ->).
    cbn [totals leakage_of _build_totals fst]. apply nansum_nonneg.
    intros r Hr. now apply (leakage_rows_nonneg bal df). }
  unfold shares. cbv zeta. cbn [min_pct max_pct min_val max_sbu min_sbu].
  destruct (sbu_totals l) as [|x r] eqn:Es.
  - cbn [snd]. destruct (share_bounds 0 0 (fst (totals l))) as (A & B & C); try lra.
    split; [exact A|]. split; [exact B|]. split; [exact C|]. split; [lra|].
    split; [intros Hne; now contradiction Hne|].
    intros _. split; [reflexivity|]. split; [reflexivity|]. split; [reflexivity|].
    unfold share. destruct (Qlt_bool 0 (fst (totals l))) eqn:Et.
    + apply Qlt_bool_iff in Et.
      assert (Z0 : 0 / fst (totals l) * 100 == 0) by (field; lra).
      split; exact Z0.
    + split; reflexivity.
  - cbn [fst snd].
    pose proof (extreme_In (fun a b => Qlt_bool b a) sbu_BUSINESS_DAY x r) as Hmax.
    pose proof (extreme_In (fun a b => Qlt_bool a b) sbu_BUSINESS_DAY x r) as Hmin.
    fold (max_item sbu_BUSINESS_DAY x r) in Hmax.
    fold (min_item sbu_BUSINESS_DAY x r) in Hmin.
    assert (Hmm : sbu_BUSINESS_DAY (min_item sbu_BUSINESS_DAY x r)
                  <= sbu_BUSINESS_DAY (max_item sbu_BUSINESS_DAY x r)).
    { now apply max_item_ge. }
    destruct (share_bounds (sbu_BUSINESS_DAY (min_item sbu_BUSINESS_DAY x r))
                (sbu_BUSINESS_DAY (max_item sbu_BUSINESS_DAY x r)) (fst (totals l)))
      as (A & B & C); auto; try apply Hb; auto.
    split; [exact A|]. split; [exact B|]. split; [exact C|]. split; [exact Hmm|].
    split; [|discriminate].
    intros _. split; [|split].
    + destruct (max_item sbu_BUSINESS_DAY x r) as [k [b m]] eqn:Em. exists b, m.
      split; [exact Hmax | reflexivity].
    + destruct (min_item sbu_BUSINESS_DAY x r) as [k [b m]] eqn:Em. exists b, m.
      split; [exact Hmin | reflexivity].
    + intros y Hy. split; [now apply min_item_le | now apply max_item_ge].
Qed.

Lemma segment_shares_bounded_witness :
  max_pct (shares (fst (get_overcharge_and_undercharge_aggregations
                          (soc_example [("A", 10, 5); ("B", 7, 1)])))) <= 100 /\
  max_sbu (shares (fst (get_overcharge_and_undercharge_aggregations [])))
  = ("N/A", 0).
Proof.
  split.
  - apply (segment_shares_bounded (soc_example [("A", 10, 5); ("B", 7, 1)])).
    now left.
  - destruct (segment_shares_bounded [] _ (or_introl eq_refl))
      as (_ & _ & _ & _ & _ & H).
    now apply H.
Defined.
End SegmentShares.

(* ------------------------------------------------------------------------- *)
(** ** Hierarchy builder: what each level counts *)

(** Of a sorted list, an element is among the first [n] or is preceded by
    [n] elements that the order puts before it. *)
Lemma firstn_sorted_cases {A : Type} (R : A -> A -> Prop) (n : nat) (l : list A) (x : A) :
  StronglySorted R l -> In x l ->
  In x (firstn n l)
  \/ (List.length (firstn n l) = n /\ forall y, In y (firstn n l) -> R y x).
Proof.
  intros Hs. revert n. induction Hs as [|a l Hs IH Ha]; intros n Hx; [destruct Hx|].
  destruct n as [|n]; [right; split; [reflexivity | intros y []]|].
  simpl. destruct Hx as [<-|Hx]; [left; now left|].
  destruct (IH n Hx) as [H|[Hl Hy]]; [left; now right|].
  right. split; [now rewrite Hl|]. intros y [<-|Hy']; auto.
  rewrite Forall_forall in Ha. auto.
Qed.

Section LevelsComplete.
Import BS.

Lemma rows_In {K : Type} `{KeyOk K} (by_ : Row -> option K) (k : K)
    (df : list Row) (r : Row) :
  In r (rows by_ k df) <-> In r df /\ by_ r = Some k.
Proof. unfold rows. now rewrite filter_In, has_key_iff. Qed.

Lemma source_node_field (b : bool) (rec : dict) (K : string) :
  K <> "SIGNIFICANT_MRLS" ->
  field K (VDict (if b then rec else resort_mrls rec)) = get K rec.
Proof.
  intros HK. unfold field. destruct b; auto. rewrite resort_mrls_get.
  destruct (get "SIGNIFICANT_MRLS" rec) as [[]|]; auto.
  destruct (String.eqb "SIGNIFICANT_MRLS" K) eqn:E; auto.
  apply String.eqb_eq in E. congruence.
Qed.


(** The sub-line list of a source node of an income or expense category. *)
Lemma source_node_mrls (df : list Row) (lookup : Lookup) (mgt : string)
    (x : string * string * string * Sums) :
  isin mgt income_expense = true ->
  field "SIGNIFICANT_MRLS"
    (VDict (if isin mgt asset_liability
            then source_record df lookup mgt x
            else resort_mrls (source_record df lookup mgt x)))
  = Some (VList (map (mrl_node df mgt (snd (fst (fst x))))
                     (top_mrls df mgt (snd (fst (fst x)))))).
Proof.
  intros Hie. rewrite (income_expense_not_asset _ Hie).
  unfold field. rewrite resort_mrls_get, source_record_mrls by auto.
  rewrite String.eqb_refl. rewrite significant_mrls_eq.
  fold (positive_mrls df mgt (snd (fst (fst x)))).
  fold (top_mrls df mgt (snd (fst (fst x)))).
  fold (mrl_node df mgt (snd (fst (fst x)))). now rewrite resort_top_mrls.
Qed.

(** The sub-lines of a source in the sub-line frame: one for each sub-line
    that has a row under the source, with the sums of its rows. *)
Lemma mrls_of_In (df : list Row) (mgt src : string)
    (x : string * string * string * Sums) :
  In x (mrls_of df mgt src) <->
  exists mrl,
    x = (mgt, src, mrl, sums_of (rows mrl_key (mgt, src, mrl) df)) /\
    exists r, In r df /\ MGT_LINE_DESCRIPTION r = mgt /\
              SOURCE_MGT_LINE r = src /\ MRL_LINE r = mrl.
Proof.
  unfold mrls_of, mrl_sums. rewrite filter_In.
  destruct x as [[[m s] mrl] sums]. rewrite (proj2 (agg_spec mrl_key df)).
  rewrite andb_true_iff, !String.eqb_eq. split.
  - intros [[-> (r & Hr & Hk)] [-> ->]]. exists mrl. split; auto.
    injection Hk as E1 E2 E3. exists r. auto.
  - intros (mrl' & [= -> -> -> ->] & r & Hr & E1 & E2 & E3).
    repeat split; auto. exists r. split; auto. unfold mrl_key. congruence.
Qed.

Lemma positive_mrls_In (df : list Row) (mgt src : string)
    (x : string * string * string * Sums) :
  In x (positive_mrls df mgt src) <-> In x (mrls_of df mgt src) /\ 0 < mrl_MTD x.
Proof. unfold positive_mrls. now rewrite filter_In, Qlt_bool_iff. Qed.

Lemma top_mrls_sorted (df : list Row) (mgt src : string) :
  StronglySorted (fun a b => mrl_MTD b <= mrl_MTD a)
                 (sort_by MTD_desc (positive_mrls df mgt src)).
Proof.
  apply StronglySorted_impl with (R1 := fun a b => MTD_desc a b = true).
  - intros a b. unfold MTD_desc, Qge_bool. apply Qle_bool_iff.
  - apply sort_by_le_sorted; [apply MTD_desc_total | apply MTD_desc_trans].
Qed.

(** A sub-line with a positive month-to-date sum is kept, unless two
    sub-lines with at least its sum are. *)
Lemma top_mrls_complete (df : list Row) (mgt src : string)
    (x : string * string * string * Sums) :
  In x (positive_mrls df mgt src) ->
  In x (top_mrls df mgt src)
  \/ exists a b, top_mrls df mgt src = [a; b] /\
                 mrl_MTD x <= mrl_MTD a /\ mrl_MTD x <= mrl_MTD b.
Proof.
  intros Hx. unfold top_mrls.
  destruct (firstn_sorted_cases _ 2 _ x (top_mrls_sorted df mgt src))
    as [H|[Hl Hy]]; [now apply sort_by_In | now left |].
  right.
  destruct (firstn 2 (sort_by MTD_desc (positive_mrls df mgt src)))
    as [|a [|b [|c l]]]; try discriminate Hl.
  exists a, b. split; [reflexivity|]. split; apply Hy; simpl; auto.
Qed.

Lemma mrl_node_fields (df : list Row) (mgt src mrl : string) (g : list Row) :
  let m := mrl_node df mgt src (mgt, src, mrl, sums_of g) in
  field "MRL_LINE" m = Some (VStr mrl) /\ day_sums m g /\ mtd_sum "MRL_MTD" m g.
Proof. repeat split; reflexivity. Qed.




Lemma mrl_node_mtd (df : list Row) (mgt src : string)
    (x : string * string * string * Sums) :
  field "MRL_MTD" (mrl_node df mgt src x) = Some (VNum (mrl_MTD x)).
Proof. destruct x as [[[m s] mrl] sums]. reflexivity. Qed.

(** The sub-line nodes of a source: a sub-line of the source with a
    positive month-to-date sum has its node, unless two nodes with at least
    that sum take the two places. *)
Lemma mrl_nodes_complete (df : list Row) (mgt src : string) (r : Row) :
  In r df -> MGT_LINE_DESCRIPTION r = mgt -> SOURCE_MGT_LINE r = src ->
  let g := rows mrl_key (mgt, src, MRL_LINE r) df in
  let nodes := map (mrl_node df mgt src) (top_mrls df mgt src) in
  0 < col_sum MTD g ->
  (exists m, In m nodes /\ field "MRL_LINE" m = Some (VStr (MRL_LINE r)) /\
             day_sums m g /\ mtd_sum "MRL_MTD" m g)
  \/ (exists m1 m2 q1 q2,
        nodes = [m1; m2] /\
        field "MRL_MTD" m1 = Some (VNum q1) /\ field "MRL_MTD" m2 = Some (VNum q2) /\
        col_sum MTD g <= q1 /\ col_sum MTD g <= q2).
Proof.
  intros Hr E1 E2 g nodes Hpos.
  set (x := (mgt, src, MRL_LINE r, sums_of g)).
  assert (Hx : In x (positive_mrls df mgt src)).
  { apply positive_mrls_In. split; [|exact Hpos].
    apply mrls_of_In. exists (MRL_LINE r). split; [reflexivity|]. exists r. auto. }
  destruct (top_mrls_complete df mgt src x Hx) as [H|(a & b & Hab & Ha & Hb)].
  - left. exists (mrl_node df mgt src x). split; [now apply in_map|].
    apply mrl_node_fields.
  - right. exists (mrl_node df mgt src a), (mrl_node df mgt src b),
             (mrl_MTD a), (mrl_MTD b).
    unfold nodes. rewrite Hab. repeat split; auto using mrl_node_mtd.
Qed.



(** C3. For an income or expense category and each of its sources, the
    significant sub-lines are those with a strictly positive
    month-to-date sum, the top 2 by month-to-date descending; the list is
    present and empty when no sub-line is positive.  The selection is per
    source: the sub-lines of a source are the sub-lines of the rows that
    are not excluded and carry the category and the code of the source,
    each with the sums over its rows; a node of the list is such a
    sub-line with a positive sum, and such a sub-line with a positive sum
    has a node unless two nodes with at least its sum take the two places.
    Month-to-date values {120, -50, 300, 0, 80} give [300, 120]; of two
    sources with the values {10, 20, 30} and {100, 5, -1} the first lists
    [30, 20] and the second [100, 5]. *)
Theorem significant_sublines :
  (forall (df : list Row) (E : list string) (t s : value) (mgt src : string),
      let df' := drop_excluded E df in
      In t (build_bs_nested_hierarchy df E) ->
      field "MGT_LINE_DESCRIPTION" t = Some (VStr mgt) ->
      isin mgt income_expense = true ->
      In s (children "SIGNIFICANT_SOURCES" t) ->
      field "SOURCE_MGT_LINE" s = Some (VStr src) ->
      field "SIGNIFICANT_MRLS" s
        = Some (VList (map (mrl_node df' mgt src) (top_mrls df' mgt src))) /\
      (exists S, Permutation S (positive_mrls df' mgt src) /\
                 StronglySorted (fun a b => mrl_MTD b <= mrl_MTD a) S /\
                 top_mrls df' mgt src = firstn 2 S) /\
      (forall x, In x (top_mrls df' mgt src) ->
                 In x (mrls_of df' mgt src) /\ 0 < mrl_MTD x) /\
      List.length (top_mrls df' mgt src)
        = Nat.min 2 (List.length (positive_mrls df' mgt src)) /\
      (positive_mrls df' mgt src = [] ->
       field "SIGNIFICANT_MRLS" s = Some (VList [])) /\
      (forall x, In x (mrls_of df' mgt src) <->
                 exists mrl,
                   x = (mgt, src, mrl, sums_of (rows mrl_key (mgt, src, mrl) df')) /\
                   exists r, In r df' /\ MGT_LINE_DESCRIPTION r = mgt /\
                             SOURCE_MGT_LINE r = src /\ MRL_LINE r = mrl) /\
      (forall r mrl, In r (rows mrl_key (mgt, src, mrl) df') <->
                     In r df' /\ MGT_LINE_DESCRIPTION r = mgt /\
                     SOURCE_MGT_LINE r = src /\ MRL_LINE r = mrl) /\
      (forall x, In x (positive_mrls df' mgt src) <->
                 In x (mrls_of df' mgt src) /\ 0 < mrl_MTD x) /\
      (forall m, In m (children "SIGNIFICANT_MRLS" s) ->
         exists mrl r,
           In r df' /\ MGT_LINE_DESCRIPTION r = mgt /\
           SOURCE_MGT_LINE r = src /\ MRL_LINE r = mrl /\
           field "MRL_LINE" m = Some (VStr mrl) /\
           field "MRL_MTD" m
             = Some (VNum (col_sum MTD (rows mrl_key (mgt, src, mrl) df'))) /\
           0 < col_sum MTD (rows mrl_key (mgt, src, mrl) df')) /\
      (forall r, In r df' -> MGT_LINE_DESCRIPTION r = mgt -> SOURCE_MGT_LINE r = src ->
         let v := col_sum MTD (rows mrl_key (mgt, src, MRL_LINE r) df') in
         0 < v ->
         (exists m, In m (children "SIGNIFICANT_MRLS" s) /\
                    field "MRL_LINE" m = Some (VStr (MRL_LINE r)) /\
                    field "MRL_MTD" m = Some (VNum v))
         \/ (exists m1 m2 q1 q2,
               children "SIGNIFICANT_MRLS" s = [m1; m2] /\
               field "MRL_MTD" m1 = Some (VNum q1) /\
               field "MRL_MTD" m2 = Some (VNum q2) /\ v <= q1 /\ v <= q2))) /\
  map (field "MRL_MTD")
      (flat_map (children "SIGNIFICANT_MRLS")
         (flat_map (children "SIGNIFICANT_SOURCES")
            (build_bs_nested_hierarchy (income_example [120; -50; 300; 0; 80]) [])))
    = [Some (VNum 300); Some (VNum 120)] /\
  map (field "SIGNIFICANT_MRLS")
      (flat_map (children "SIGNIFICANT_SOURCES")
         (build_bs_nested_hierarchy (income_example [-120; -50; -300; 0; 0]) []))
    = [Some (VList [])] /\
  map (fun s => (field "SOURCE_MGT_LINE" s,
                 map (field "MRL_MTD") (children "SIGNIFICANT_MRLS" s)))
      (flat_map (children "SIGNIFICANT_SOURCES")
         (build_bs_nested_hierarchy two_source_income []))
    = [ (Some (VStr "S2"), [Some (VNum 100); Some (VNum 5)]);
        (Some (VStr "S1"), [Some (VNum 30); Some (VNum 20)]) ].
Proof.
  split; [|split; [|split]; vm_compute; reflexivity].
  intros df E t s mgt src df' Ht Hmgt Hie Hs Hsrc.
  apply build_In in Ht as ([mgt0 sums] & Hin & ->).
  unfold field in Hmgt. rewrite mgt_node_get in Hmgt by discriminate.
  injection Hmgt as ->.
  apply mgt_node_sources_exact in Hs as (x & Hx & Hm & ->).
  change (drop_excluded E df) with df' in Hx, Hsrc |- *. cbn [fst] in *.
  destruct x as [[[m src0] desc] ssums]. cbn [fst] in Hm. subst m.
  pose proof (source_node_mrls df' (customer_lookup df') mgt
                (mgt, src0, desc, ssums) Hie) as Hfield.
  cbn [fst snd] in Hfield.
  assert (Esrc : src0 = src).
  { rewrite source_node_field in Hsrc by discriminate.
    rewrite source_record_get in Hsrc by discriminate. now injection Hsrc. }
  subst src0.
  assert (Hch : children "SIGNIFICANT_MRLS"
                  (VDict (if isin mgt asset_liability
                          then source_record df' (customer_lookup df') mgt
                                 (mgt, src, desc, ssums)
                          else resort_mrls
                                 (source_record df' (customer_lookup df') mgt
                                    (mgt, src, desc, ssums))))
                = map (mrl_node df' mgt src) (top_mrls df' mgt src)).
  { unfold children. now rewrite Hfield. }
  split; [exact Hfield|].
  split; [|split; [|split; [|split; [|split; [|split; [|split; [|split]]]]]]].
  - exists (sort_by MTD_desc (positive_mrls df' mgt src)).
    split; [apply sort_by_perm|]. split; [apply top_mrls_sorted | reflexivity].
  - apply top_mrls_positive.
  - unfold top_mrls. now rewrite length_firstn, sort_by_length.
  - intros Hnone. etransitivity; [exact Hfield|].
    unfold top_mrls. now rewrite Hnone.
  - apply mrls_of_In.
  - intros r mrl. rewrite rows_In. unfold mrl_key. split.
    + intros [H1 H2]. injection H2 as E1 E2 E3. auto.
    + intros (H1 & E1 & E2 & E3). split; auto. congruence.
  - apply positive_mrls_In.
  - intros m0 Hm0. rewrite Hch in Hm0.
    apply in_map_iff in Hm0 as (y & <- & Hy).
    apply top_mrls_positive in Hy as [Hy Hpos].
    apply mrls_of_In in Hy as (mrl & -> & r & Hr & E1 & E2 & E3).
    exists mrl, r. repeat split; auto.
  - intros r Hr E1 E2 Hv. rewrite Hch.
    destruct (mrl_nodes_complete df' mgt src r Hr E1 E2 Hv)
      as [(m0 & Hm0 & Hl & _ & Hmtd)|H]; [left | right; exact H].
    exists m0. auto.
Qed.

Lemma significant_sublines_witness :
  exists t s,
    In t (build_bs_nested_hierarchy two_source_income []) /\
    In s (children "SIGNIFICANT_SOURCES" t) /\
    field "SOURCE_MGT_LINE" s = Some (VStr "S1") /\
    field "SIGNIFICANT_MRLS" s
      = Some (VList (map (mrl_node (drop_excluded [] two_source_income)
                                   "Total Income" "S1")
                         (top_mrls (drop_excluded [] two_source_income)
                                   "Total Income" "S1"))) /\
    map (field "MRL_MTD") (children "SIGNIFICANT_MRLS" s)
      = [Some (VNum 30); Some (VNum 20)].
Proof.
  assert (Ht : In (nth 0 (build_bs_nested_hierarchy two_source_income []) VNone)
                  (build_bs_nested_hierarchy two_source_income [])).
  { apply nth_In. vm_compute. repeat constructor. }
  assert (Hs : In (nth 1 (children "SIGNIFICANT_SOURCES"
                            (nth 0 (build_bs_nested_hierarchy two_source_income [])
                                 VNone)) VNone)
                  (children "SIGNIFICANT_SOURCES"
                     (nth 0 (build_bs_nested_hierarchy two_source_income []) VNone))).
  { apply nth_In. vm_compute. repeat constructor. }
  assert (Hsrc : field "SOURCE_MGT_LINE"
                   (nth 1 (children "SIGNIFICANT_SOURCES"
                             (nth 0 (build_bs_nested_hierarchy two_source_income [])
                                  VNone)) VNone)
                 = Some (VStr "S1")).
  { vm_compute. reflexivity. }
  assert (Hmgt : field "MGT_LINE_DESCRIPTION"
                   (nth 0 (build_bs_nested_hierarchy two_source_income []) VNone)
                 = Some (VStr "Total Income")).
  { vm_compute. reflexivity. }
  destruct (proj1 significant_sublines two_source_income [] _ _
              "Total Income" "S1" Ht Hmgt eq_refl Hs Hsrc) as [Hf _].
  eexists. eexists.
  split; [exact Ht|]. split; [exact Hs|]. split; [exact Hsrc|].
  split; [exact Hf | vm_compute; reflexivity].
Defined.
End LevelsComplete.
